(** * Bootstrap of the OpenDataHub operator: factory, Setup sequence,
      cache scoping and startup tasks.

    Shallow embedding of
      - cmd/main.go                                  (entry point),
      - internal/bootstrap/operator/main_operator.go (mainOperator, Factory),
      - internal/bootstrap/operator/schemes.go       (RegisterSchemes).

    Calls into collaborating packages (controller-runtime, package cluster,
    the handler registries, the webhook and controller packages) are
    answered by a [World]: one field per call, holding what that call
    returns; a callee that is handed the manager pointer also answers with
    what it did to the manager.  Go's [error] results are [option error]
    ([None] is [nil]), pairs [(T, error)] are [result T]. *)

From stdpp Require Import base option list strings functions gmap fin_maps fin_sets.
From Stdlib Require Import ZArith.

Open Scope string_scope.
Open Scope list_scope.

(* ===================================================================== *)
(** ** Go errors                                                          *)
(* ===================================================================== *)

(** [errors.New s] and [fmt.Errorf] without a wrapping verb give a plain
    message; [fmt.Errorf("<msg>%w", err)] keeps [err] reachable through
    [Unwrap].  [msg] is the formatted text that precedes the wrapped error. *)
Inductive error : Type :=
| errorString (s : string)
| wrapError (msg : string) (err : error).

Fixpoint Error (e : error) : string :=
  match e with
  | errorString s => s
  | wrapError msg err => msg +:+ Error err
  end.

Definition Unwrap (e : error) : option error :=
  match e with
  | errorString _ => None
  | wrapError _ err => Some err
  end.

(** The chain walked by [errors.Is]: the error itself, then what it wraps. *)
Fixpoint chain (e : error) : list error :=
  e :: match e with
       | errorString _ => []
       | wrapError _ err => chain err
       end.

Definition errors_New (s : string) : error := errorString s.

(** A Go result pair [(T, error)]. *)
Inductive result (A : Type) : Type :=
| Ok (a : A)
| Err (e : error).
Arguments Ok {A} a.
Arguments Err {A} e.

(* ===================================================================== *)
(** ** Platform, configuration, cache settings                            *)
(* ===================================================================== *)

(** [common.Platform] is a string type. *)
Definition Platform : Type := string.

(** [operatorconfig.Config], the fields read by this package. *)
Record Config : Type := {
  RestConfig : string;
  MetricsAddr : string;
  HealthProbeAddr : string;
  PprofAddr : string;
  LeaderElection : bool;
  MonitoringNamespace : string
}.

(** [cache.Config{}]: the per-namespace cache settings; always the zero
    value in this package. *)
Inductive cache_Config : Type := cache_Config_zero.

(** What package [cluster] exposes to the cache builders: three constants
    whose values live outside this package, and the two namespace lookups. *)
Record Cluster : Type := {
  ManagedRhoai : Platform;
  NamespaceConsoleLink : string;
  ClusterAuthenticationObj : string;
  GetOperatorNamespace : result string;
  GetApplicationNamespace : string
}.

Section CachePolicy.
Variable cluster : Cluster.

Definition getCommonCache (platform : Platform)
  : result (gmap string cache_Config) :=
  let namespaceConfigs : gmap string cache_Config := ∅ in
  match GetOperatorNamespace cluster with
  | Err err => Err err
  | Ok operatorNs =>
      let namespaceConfigs := <[operatorNs := cache_Config_zero]> namespaceConfigs in
      let namespaceConfigs := <["redhat-ods-monitoring" := cache_Config_zero]> namespaceConfigs in
      let appNamespace := GetApplicationNamespace cluster in
      let namespaceConfigs := <[appNamespace := cache_Config_zero]> namespaceConfigs in
      let namespaceConfigs :=
        if String.eqb platform (ManagedRhoai cluster)
        then <[NamespaceConsoleLink cluster := cache_Config_zero]> namespaceConfigs
        else namespaceConfigs in
      Ok namespaceConfigs
  end.

Definition createSecretCacheConfig (platform : Platform)
  : result (gmap string cache_Config) :=
  match getCommonCache platform with
  | Err err => Err err
  | Ok namespaceConfigs =>
      let namespaceConfigs := <["openshift-ingress" := cache_Config_zero]> namespaceConfigs in
      Ok namespaceConfigs
  end.

Definition createODHGeneralCacheConfig (platform : Platform)
  : result (gmap string cache_Config) :=
  match getCommonCache platform with
  | Err err => Err err
  | Ok namespaceConfigs =>
      let namespaceConfigs := <["openshift-operators" := cache_Config_zero]> namespaceConfigs in
      let namespaceConfigs := <["openshift-ingress" := cache_Config_zero]> namespaceConfigs in
      Ok namespaceConfigs
  end.

End CachePolicy.

(** The namespaces a cache map restricts to: its key set. *)
Definition namespaces (m : gmap string cache_Config) : gset string := dom m.


(* ===================================================================== *)
(** ** Scheme registration (schemes.go)                                   *)
(* ===================================================================== *)

(** A [runtime.Scheme] as the API groups added to it, oldest first.  The
    [AddToScheme]/[Install] calls register generated types; they are taken
    to succeed, so [utilruntime.Must] never fires. *)
Definition Scheme : Type := list string.

Definition runtime_NewScheme : Scheme := [].

Definition AddToScheme (pkg : string) (scheme : Scheme) : Scheme := scheme ++ [pkg].

Definition RegisterSchemes (scheme : Scheme) : Scheme :=
  foldl (λ s pkg, AddToScheme pkg s) scheme
    [ "componentApi"; "serviceApi"; "infrav1alpha1"; "infrav1";
      "clientgoscheme"; "dsciv1"; "dsciv2"; "dscv1"; "dscv2"; "featurev1";
      "networkingv1"; "rbacv1"; "corev1"; "routev1"; "appsv1"; "oauthv1";
      "ofapiv1alpha1"; "userv1"; "ofapiv2"; "ocappsv1"; "buildv1"; "imagev1";
      "apiextensionsv1"; "admissionregistrationv1"; "promv1"; "operatorv1";
      "consolev1"; "securityv1"; "templatev1"; "gwapiv1" ].

(* ===================================================================== *)
(** ** Contexts and the log sink                                          *)
(* ===================================================================== *)

(** A [context.Context] as far as this code looks into it: the logger that
    [logf.IntoContext] stored. *)
Record Context : Type := { ctx_logger : string }.

Inductive Level : Type := LInfo | LError.

Record LogEntry : Type := {
  log_name : string;            (* the logger's name *)
  log_level : Level;
  log_err : option error;
  log_msg : string;
  log_kv : list (string * string)
}.

Definition logf_FromContext (ctx : Context) : string := ctx_logger ctx.

Definition logf_IntoContext (ctx : Context) (logger : string) : Context :=
  {| ctx_logger := logger |}.

Definition Logger_Info (logger msg : string) (kv : list (string * string)) : LogEntry :=
  {| log_name := logger; log_level := LInfo; log_err := None;
     log_msg := msg; log_kv := kv |}.

Definition Logger_Error (logger : string) (err : error) (msg : string) : LogEntry :=
  {| log_name := logger; log_level := LError; log_err := Some err;
     log_msg := msg; log_kv := [] |}.

(* ===================================================================== *)
(** ** Startup tasks: the leader-election wrapper                         *)
(* ===================================================================== *)

(** [crtlmanager.RunnableFunc]: [func(context.Context) error].  A task
    writes log lines and returns an error or nil.  Its closure holds the
    receiver pointer, so what it reads of the operator's configuration is the
    configuration as it is when the task runs: the second argument. *)
Definition RunnableFunc : Type := Context → Config → list LogEntry * option error.

Record leaderElectionRunnableWrapper : Type := { Fn : RunnableFunc }.

Definition leaderElectionRunnableFunc (fn : RunnableFunc)
  : leaderElectionRunnableWrapper := {| Fn := fn |}.

(** Method [Start] of the wrapper. *)
Definition Runnable_Start (l : leaderElectionRunnableWrapper) (ctx : Context)
  : Config → list LogEntry * option error := Fn l ctx.

(** Method [NeedLeaderElection] of the wrapper. *)
Definition NeedLeaderElection (l : leaderElectionRunnableWrapper) : bool := true.

(* ===================================================================== *)
(** ** Cached objects and the default transform                           *)
(* ===================================================================== *)

(** [metav1.ObjectMeta], the part the transform touches.  A Go slice is
    [None] when nil, so an empty non-nil slice is [Some []]. *)
Record ObjectMeta : Type := {
  meta_Name : string;
  meta_Namespace : string;
  meta_ManagedFields : option (list string)
}.

(** What a pointer handed to the cache may point to: an API object, for
    which [meta.Accessor] answers, or anything else (a tombstone, a plain
    value), for which it returns an error. *)
Inductive value : Type :=
| Object (kind : string) (meta : ObjectMeta) (body : string)
| NotObject (payload : string).

(** Objects live behind pointers, in a heap. *)
Abbreviation ref := nat.
Abbreviation Heap := (ref → value).

(** The [any] handed to the transform: a pointer into the heap, or a nil
    pointer of the type of an API object, which satisfies the object
    interfaces and has nothing behind it. *)
Inductive any : Type :=
| ptr (r : ref)
| nil_ptr (kind : string).

(** A call that returns, or panics dereferencing a nil pointer. *)
Inductive may_panic (A : Type) : Type :=
| returned (a : A)
| panicked.
Arguments returned {A} a.
Arguments panicked {A}.

Definition errNotObject : error := errorString "object does not implement the Object interfaces".

(** [meta.Accessor(in)]: a type switch, so it answers for a nil pointer of
    an object type as well; the accessor is the input itself. *)
Definition meta_Accessor (h : Heap) (in_ : any) : result any :=
  match in_ with
  | ptr r =>
      match h r with
      | Object _ _ _ => Ok in_
      | NotObject _ => Err errNotObject
      end
  | nil_ptr _ => Ok in_
  end.

Definition GetManagedFields (h : Heap) (obj : any) : may_panic (option (list string)) :=
  match obj with
  | ptr r =>
      match h r with
      | Object _ meta _ => returned (meta_ManagedFields meta)
      | NotObject _ => returned None
      end
  | nil_ptr _ => panicked
  end.

Definition SetManagedFields (h : Heap) (obj : any) (mf : option (list string))
  : may_panic Heap :=
  match obj with
  | ptr r =>
      match h r with
      | Object kind meta body =>
          returned (<[r := Object kind {| meta_Name := meta_Name meta;
                                          meta_Namespace := meta_Namespace meta;
                                          meta_ManagedFields := mf |} body]> h)
      | NotObject _ => returned h
      end
  | nil_ptr _ => panicked
  end.

(** The [DefaultTransform] closure of [cacheOptions] in [Setup]: what it
    returns, or that it panicked, and the heap it leaves. *)
Definition DefaultTransform (h : Heap) (in_ : any)
  : may_panic (any * option error) * Heap :=
  match meta_Accessor h in_ with
  | Ok obj =>
      match GetManagedFields h obj with
      | returned managedFields =>
          if bool_decide (managedFields ≠ None)
          then match SetManagedFields h obj None with
               | returned h' => (returned (in_, None), h')
               | panicked => (panicked, h)
               end
          else (returned (in_, None), h)
      | panicked => (panicked, h)
      end
  | Err _ => (returned (in_, None), h)
  end.

(* ===================================================================== *)
(** ** controller-runtime options and the manager                         *)
(* ===================================================================== *)

Module cache.
Record ByObject : Type := {
  Namespaces : option (gmap string cache_Config);
  Field : option (string * string)
}.
Record Options : Type := {
  Scheme : Scheme;
  ByObject_ : list (string * ByObject);
  DefaultTransform : Heap → any → may_panic (any * option error) * Heap
}.
End cache.

Module ctrl.
Record Options : Type := {
  Scheme : Scheme;
  Metrics_BindAddress : string;
  WebhookServer_Port : Z;
  PprofBindAddress : string;
  HealthProbeBindAddress : string;
  Cache : cache.Options;
  LeaderElection : bool;
  LeaderElectionID : string;
  Client_Cache_DisableFor : list string;
  Client_Cache_Unstructured : bool
}.
End ctrl.

(** What a manager runs: a startup task of this package, or a runnable
    that a collaborating package added (a controller, a webhook server),
    known by its name. *)
Inductive Runnable : Type :=
| Task (l : leaderElectionRunnableWrapper)
| Other (name : string).

(** The manager: what it was built from and what has been registered on it. *)
Record Manager : Type := {
  mgr_config : string;
  mgr_options : ctrl.Options;
  mgr_runnables : list Runnable;
  mgr_healthz : list string;
  mgr_readyz : list string
}.

(** The manager [ctrl.NewManager] hands back when it succeeds. *)
Definition ctrl_Manager (config : string) (options : ctrl.Options) : Manager :=
  {| mgr_config := config; mgr_options := options;
     mgr_runnables := []; mgr_healthz := []; mgr_readyz := [] |}.

(** [manager.New] wraps the controller-runtime manager with the custom
    client; nothing this package reads changes. *)
Definition manager_New (ctrlMgr : Manager) : Manager := ctrlMgr.

Definition with_runnable (m : Manager) (r : leaderElectionRunnableWrapper) : Manager :=
  {| mgr_config := mgr_config m; mgr_options := mgr_options m;
     mgr_runnables := mgr_runnables m ++ [Task r];
     mgr_healthz := mgr_healthz m; mgr_readyz := mgr_readyz m |}.

Definition with_healthz (m : Manager) (name : string) : Manager :=
  {| mgr_config := mgr_config m; mgr_options := mgr_options m;
     mgr_runnables := mgr_runnables m;
     mgr_healthz := mgr_healthz m ++ [name]; mgr_readyz := mgr_readyz m |}.

Definition with_readyz (m : Manager) (name : string) : Manager :=
  {| mgr_config := mgr_config m; mgr_options := mgr_options m;
     mgr_runnables := mgr_runnables m;
     mgr_healthz := mgr_healthz m; mgr_readyz := mgr_readyz m ++ [name] |}.

(** [client.Client] built by [client.New]. *)
Record Client : Type := { client_config : string; client_scheme : Scheme }.

(* ===================================================================== *)
(** ** The operator object                                                *)
(* ===================================================================== *)

(** [mgr] is a pointer: [None] is nil. *)
Record mainOperator : Type := {
  config : Config;
  mgr : option Manager;
  scheme : Scheme
}.

Definition New (cfg : Config) : mainOperator :=
  let scheme := runtime_NewScheme in
  let scheme := RegisterSchemes scheme in
  {| config := cfg; mgr := None; scheme := scheme |}.

(* ===================================================================== *)
(** ** The world outside this package                                     *)
(* ===================================================================== *)

(** What a callee that was handed the pointer [o.mgr] comes back with: the
    error it returns, and what it did to the manager behind the pointer
    (what it registered on it).  Nothing is done to a manager when the
    pointer was nil. *)
Definition handed : Type := (option error * (Manager → Manager))%type.

(** [sr.ServiceHandler] and [cr.ComponentHandler]: the three methods
    [Setup] calls on a registered handler.  The constructors are handed the
    pointer [o.mgr], nil or not. *)
Record ServiceHandler : Type := {
  sh_GetName : string;
  sh_Init : Platform → option error;
  sh_NewReconciler : Context → option Manager → handed
}.

Record ComponentHandler : Type := {
  ch_GetName : string;
  ch_Init : Platform → option error;
  ch_NewComponentReconciler : Context → option Manager → handed
}.

Record World : Type := {
  (* operatorconfig *)
  LoadConfig : result Config;
  (* the process environment *)
  os_Environ : gmap string string;
  (* package cluster *)
  cluster : Cluster;
  cluster_Init : Context → Client → option error;
  GetRelease_Name : Platform;
  (* the two handler registries, in registration order *)
  sr_registry : list ServiceHandler;
  cr_registry : list ComponentHandler;
  (* controller-runtime *)
  client_New : string → Scheme → option error;
  GetConfigOrDie : result string;
  NewManager : string → ctrl.Options → option error;
  Add : Manager → leaderElectionRunnableWrapper → option error;
  AddHealthzCheck : Manager → string → option error;
  AddReadyzCheck : Manager → string → option error;
  Manager_Start : Manager → Context → option error;
  (* webhooks and the two built-in controllers, handed the pointer o.mgr *)
  RegisterAllWebhooks : option Manager → handed;
  DSCInitialization_SetupWithManager : Context → option Manager → handed;
  NewDataScienceClusterReconciler : Context → option Manager → handed;
  (* packages initialinstall and upgrade, run inside the startup tasks *)
  CreateDefaultDSCI : Context → Client → Platform → string → option error;
  CreateDefaultDSC : Context → Client → option error;
  CleanupExistingResource : Context → Client → option error
}.

(** [os.LookupEnv]: the value and whether the variable is present. *)
Definition os_LookupEnv (w : World) (key : string) : string * bool :=
  match os_Environ w !! key with
  | Some v => (v, true)
  | None => ("", false)
  end.

(* ===================================================================== *)
(** ** Calls, outcomes and the monad of [Setup]                           *)
(* ===================================================================== *)

(** The calls [Setup] and [Start] make that can fail, by callee. *)
Inductive Call : Type :=
| c_client_New
| c_cluster_Init
| c_Init_service (name : string)
| c_Init_component (name : string)
| c_createSecretCacheConfig
| c_createODHGeneralCacheConfig
| c_GetConfigOrDie
| c_NewManager
| c_RegisterAllWebhooks
| c_DSCInitialization_SetupWithManager
| c_NewDataScienceClusterReconciler
| c_NewReconciler (name : string)
| c_NewComponentReconciler (name : string)
| c_Add (r : leaderElectionRunnableWrapper)
| c_AddHealthzCheck (name : string)
| c_AddReadyzCheck (name : string)
| c_Start.

(** A call together with the error it came back with. *)
Abbreviation Event := (Call * option error)%type.

(** What the code mutates: the operator behind the receiver pointer and the
    log sink. *)
Record St : Type := { op : mainOperator; logs : list LogEntry }.

Inductive crash : Type :=
| nil_pointer_dereference
| os_Exit (code : Z).

(** How a Go function ends: it returns a value with a nil error, returns a
    non-nil error, or does not return (a panic, or the process exits). *)
Inductive outcome (A : Type) : Type :=
| Return (a : A)
| Raise (err : error)
| Crash (c : crash).
Arguments Return {A} a.
Arguments Raise {A} err.
Arguments Crash {A} c.

(** State passing for the operator and the logs; the calls made are
    collected in order. *)
Definition M (A : Type) : Type := St → outcome A * St * list Event.

Definition M_ret {A} (a : A) : M A := λ st, (Return a, st, []).

Definition M_bind {A B} (f : A → M B) (m : M A) : M B := λ st,
  match m st with
  | (Return a, st1, evs1) =>
      match f a st1 with
      | (r, st2, evs2) => (r, st2, evs1 ++ evs2)
      end
  | (Raise err, st1, evs1) => (Raise err, st1, evs1)
  | (Crash c, st1, evs1) => (Crash c, st1, evs1)
  end.

#[global] Instance M_MRet : MRet M := @M_ret.
#[global] Instance M_MBind : MBind M := @M_bind.

(** A call that returns only an error. *)
Definition call (c : Call) (r : option error) : M unit := λ st,
  (match r with None => Return tt | Some err => Raise err end, st, [(c, r)]).

(** A call that returns a value and an error. *)
Definition call_r {A} (c : Call) (r : result A) : M A := λ st,
  match r with
  | Ok a => (Return a, st, [(c, None)])
  | Err err => (Raise err, st, [(c, Some err)])
  end.

(** [if err != nil { return fmt.Errorf("<msg>%w", err) }] around [m]. *)
Definition wrap {A} (msg : string) (m : M A) : M A := λ st,
  match m st with
  | (Raise err, st1, evs) => (Raise (wrapError msg err), st1, evs)
  | other => other
  end.

(** [if err := m; err != nil { h err }]. *)
Definition catch (m : M unit) (h : error → M unit) : M unit := λ st,
  match m st with
  | (Raise err, st1, evs1) =>
      match h err st1 with
      | (r, st2, evs2) => (r, st2, evs1 ++ evs2)
      end
  | other => other
  end.

Definition get_op : M mainOperator := λ st, (Return (op st), st, []).

(** Reading through [o.mgr], as a method call on it does: a nil pointer
    panics.  ([manager.Manager] is not among the sources; its methods are
    taken to dereference their receiver.) *)
Definition get_mgr : M Manager := λ st,
  match mgr (op st) with
  | Some m => (Return m, st, [])
  | None => (Crash nil_pointer_dereference, st, [])
  end.

(** The state after the assignment [o.mgr = m]. *)
Definition with_mgr (st : St) (m : Manager) : St :=
  {| op := {| config := config (op st); mgr := Some m; scheme := scheme (op st) |};
     logs := logs st |}.

Definition set_mgr (m : Manager) : M unit := λ st, (Return tt, with_mgr st m, []).

(** The state after a callee did [f] to the manager behind [o.mgr]. *)
Definition with_registered (st : St) (f : Manager → Manager) : St :=
  {| op := {| config := config (op st); mgr := f <$> mgr (op st);
              scheme := scheme (op st) |};
     logs := logs st |}.

(** A call that is handed the pointer [o.mgr] and returns only an error. *)
Definition hand (c : Call) (callee : option Manager → handed) : M unit := λ st,
  let '(r, f) := callee (mgr (op st)) in
  (match r with None => Return tt | Some err => Raise err end,
   with_registered st f, [(c, r)]).

(** The state after one more line reached the log sink. *)
Definition with_log (st : St) (e : LogEntry) : St :=
  {| op := op st; logs := logs st ++ [e] |}.

Definition log (e : LogEntry) : M unit := λ st, (Return tt, with_log st e, []).

Definition exit (code : Z) : M unit := λ st, (Crash (os_Exit code), st, []).

(* ===================================================================== *)
(** ** mainOperator (main_operator.go)                                    *)
(* ===================================================================== *)

Section Operator.
Variable w : World.

(** Modelled from the spec: [ForEach] of the handler registries, which is
    not among the sources.  It applies [fn] to every registered handler in
    registration order, stops at the first error and returns it annotated
    with the failing handler's name. *)
Fixpoint ForEach {H : Type} (GetName : H → string) (handlers : list H)
    (fn : H → M unit) : M unit :=
  match handlers with
  | [] => mret tt
  | h :: handlers' =>
      wrap (GetName h +:+ ": ") (fn h) ;;
      ForEach GetName handlers' fn
  end.

Definition sr_ForEach : (ServiceHandler → M unit) → M unit :=
  ForEach sh_GetName (sr_registry w).

Definition cr_ForEach : (ComponentHandler → M unit) → M unit :=
  ForEach ch_GetName (cr_registry w).

Definition initServices (_ : Context) (p : Platform) : M unit :=
  sr_ForEach (λ sh, call (c_Init_service (sh_GetName sh)) (sh_Init sh p)).

Definition initComponents (_ : Context) (p : Platform) : M unit :=
  cr_ForEach (λ ch, call (c_Init_component (ch_GetName ch)) (ch_Init ch p)).

Definition createServiceReconcilers (ctx : Context) : M unit :=
  let log_ := logf_FromContext ctx in
  sr_ForEach (λ sh,
    log (Logger_Info log_ "creating reconciler"
           [("type", "service"); ("name", sh_GetName sh)]) ;;
    wrap ("error creating " +:+ sh_GetName sh +:+ " service reconciler: ")
      (hand (c_NewReconciler (sh_GetName sh)) (sh_NewReconciler sh ctx))).

Definition createComponentReconcilers (ctx : Context) : M unit :=
  let log_ := logf_FromContext ctx in
  cr_ForEach (λ ch,
    log (Logger_Info log_ "creating reconciler"
           [("type", "component"); ("name", ch_GetName ch)]) ;;
    wrap ("error creating " +:+ ch_GetName ch +:+ " component reconciler: ")
      (hand (c_NewComponentReconciler (ch_GetName ch))
         (ch_NewComponentReconciler ch ctx))).

(** [o.mgr.Add(r)]: on success the manager holds one more runnable. *)
Definition mgr_Add (r : leaderElectionRunnableWrapper) : M unit :=
  m ← get_mgr;
  call (c_Add r) (Add w m r) ;;
  set_mgr (with_runnable m r).

Definition mgr_AddHealthzCheck (name : string) : M unit :=
  m ← get_mgr;
  call (c_AddHealthzCheck name) (AddHealthzCheck w m name) ;;
  set_mgr (with_healthz m name).

Definition mgr_AddReadyzCheck (name : string) : M unit :=
  m ← get_mgr;
  call (c_AddReadyzCheck name) (AddReadyzCheck w m name) ;;
  set_mgr (with_readyz m name).

(** The three closures [addStartupTasks] hands to the wrapper.  Each logs
    through the [setupLog] captured from [Setup]'s context; [o_config] is
    the configuration behind [o.config] when the task runs. *)
Definition createDefaultDSCIFunc (setupLog : string) (setupClient : Client)
    (platform : Platform) : RunnableFunc :=
  λ ctx o_config,
    let err := CreateDefaultDSCI w ctx setupClient platform
                 (MonitoringNamespace o_config) in
    (Logger_Info setupLog "create default DSCI" [] ::
     match err with
     | Some e => [Logger_Error setupLog e "unable to create initial setup for the operator"]
     | None => []
     end, err).

Definition createDefaultDSCFunc (setupLog : string) (setupClient : Client)
    : RunnableFunc :=
  λ ctx _,
    let err := CreateDefaultDSC w ctx setupClient in
    (Logger_Info setupLog "create default DSC" [] ::
     match err with
     | Some e => [Logger_Error setupLog e "unable to create default DSC CR by the operator"]
     | None => []
     end, err).

Definition cleanup (setupLog : string) (setupClient : Client) : RunnableFunc :=
  λ ctx _,
    match CleanupExistingResource w ctx setupClient with
    | Some err =>
        ([Logger_Info setupLog "run upgrade task" [];
          Logger_Error setupLog err "unable to perform cleanup"], Some err)
    | None => ([Logger_Info setupLog "run upgrade task" []], None)
    end.

Definition addStartupTasks (ctx : Context) (setupClient : Client)
    (platform : Platform) : M unit :=
  let setupLog := logf_FromContext ctx in
  let '(disableDSCConfig, existDSCConfig) := os_LookupEnv w "DISABLE_DSC_CONFIG" in
  (if existDSCConfig && negb (String.eqb disableDSCConfig "false")
   then log (Logger_Info setupLog "DSCI auto creation is disabled" [])
   else
     let createDefaultDSCIFunc_ :=
       leaderElectionRunnableFunc
         (createDefaultDSCIFunc setupLog setupClient platform) in
     wrap "error scheduling DSCI creation: " (mgr_Add createDefaultDSCIFunc_)) ;;
  (if String.eqb platform (ManagedRhoai (cluster w))
   then
     let createDefaultDSCFunc_ :=
       leaderElectionRunnableFunc (createDefaultDSCFunc setupLog setupClient) in
     wrap "error scheduling DSC creation: " (mgr_Add createDefaultDSCFunc_)
   else mret tt) ;;
  let cleanup_ := leaderElectionRunnableFunc (cleanup setupLog setupClient) in
  catch (mgr_Add cleanup_)
    (λ err, log (Logger_Error setupLog err
                   "error remove deprecated resources from previous version")) ;;
  mret tt.

(** The [cache.Options] literal of [Setup]. *)
Definition cacheOptions (o : mainOperator)
    (secretCache odhCache : gmap string cache_Config) : cache.Options :=
  let byNamespaces ns := {| cache.Namespaces := Some ns; cache.Field := None |} in
  let byField name := {| cache.Namespaces := None;
                         cache.Field := Some ("metadata.name", name) |} in
  {| cache.Scheme := scheme o;
     cache.ByObject_ :=
       [ ("corev1.Secret", byNamespaces secretCache);
         ("corev1.ConfigMap", byNamespaces odhCache);
         ("operatorv1.IngressController", byField "default");
         ("configv1.Authentication", byField (ClusterAuthenticationObj (cluster w)));
         ("appsv1.Deployment", byNamespaces odhCache);
         ("promv1.PrometheusRule", byNamespaces odhCache);
         ("promv1.ServiceMonitor", byNamespaces odhCache);
         ("routev1.Route", byNamespaces odhCache);
         ("networkingv1.NetworkPolicy", byNamespaces odhCache);
         ("rbacv1.Role", byNamespaces odhCache);
         ("rbacv1.RoleBinding", byNamespaces odhCache) ];
     cache.DefaultTransform := DefaultTransform |}.

(** The [ctrl.Options] literal of [Setup]. *)
Definition managerOptions (o : mainOperator) (cacheOptions_ : cache.Options)
    : ctrl.Options :=
  {| ctrl.Scheme := scheme o;
     ctrl.Metrics_BindAddress := MetricsAddr (config o);
     ctrl.WebhookServer_Port := 9443;
     ctrl.PprofBindAddress := PprofAddr (config o);
     ctrl.HealthProbeBindAddress := HealthProbeAddr (config o);
     ctrl.Cache := cacheOptions_;
     ctrl.LeaderElection := LeaderElection (config o);
     ctrl.LeaderElectionID := "07ed84f7.opendatahub.io";
     ctrl.Client_Cache_DisableFor :=
       [ "gvk.OpenshiftIngress"; "ofapiv1alpha1.Subscription";
         "authorizationv1.SelfSubjectRulesReview"; "corev1.Pod";
         "userv1.Group"; "ofapiv1alpha1.CatalogSource" ];
     ctrl.Client_Cache_Unstructured := true |}.

(** [ctrl.GetConfigOrDie()]: when no configuration can be loaded it writes
    the error to controller-runtime's own logger (named
    [controller-runtime.client.config]) and exits the process with
    status 1. *)
Definition kubeconfig_failed (err : error) : LogEntry :=
  Logger_Error "controller-runtime.client.config" err "unable to get kubeconfig".

Definition ctrl_GetConfigOrDie : M string := λ st,
  match GetConfigOrDie w with
  | Ok cfg => (Return cfg, st, [(c_GetConfigOrDie, None)])
  | Err err =>
      (Crash (os_Exit 1), with_log st (kubeconfig_failed err),
       [(c_GetConfigOrDie, Some err)])
  end.

Definition Setup (ctx : Context) : M unit :=
  o ← get_op;
  let setupClient := {| client_config := RestConfig (config o);
                        client_scheme := scheme o |} in
  wrap "error getting client for setup: "
    (call c_client_New (client_New w (RestConfig (config o)) (scheme o))) ;;
  wrap "unable to initialize cluster config: "
    (call c_cluster_Init (cluster_Init w ctx setupClient)) ;;
  let platform := GetRelease_Name w in
  wrap "unable to init services: " (initServices ctx platform) ;;
  wrap "unable to init components: " (initComponents ctx platform) ;;
  secretCache ← wrap "unable to get application namespace into cache: "
    (call_r c_createSecretCacheConfig (createSecretCacheConfig (cluster w) platform));
  odhCache ← wrap "unable to get application namespace into cache: "
    (call_r c_createODHGeneralCacheConfig
       (createODHGeneralCacheConfig (cluster w) platform));
  let cacheOptions_ := cacheOptions o secretCache odhCache in
  restConfig ← ctrl_GetConfigOrDie;
  let options := managerOptions o cacheOptions_ in
  wrap "unable to start manager: "
    (call c_NewManager (NewManager w restConfig options)) ;;
  let ctrlMgr := ctrl_Manager restConfig options in
  set_mgr (manager_New ctrlMgr) ;;
  wrap "unable to register webhooks: "
    (hand c_RegisterAllWebhooks (RegisterAllWebhooks w)) ;;
  wrap "unable to create controller DSCInitialization: "
    (get_mgr ;;  (* o.mgr.GetClient(), GetScheme(), GetEventRecorderFor() *)
     hand c_DSCInitialization_SetupWithManager
       (DSCInitialization_SetupWithManager w ctx)) ;;
  wrap "unable to create controller DataScienceCluster: "
    (hand c_NewDataScienceClusterReconciler
       (NewDataScienceClusterReconciler w ctx)) ;;
  wrap "unable to create service controllers: " (createServiceReconcilers ctx) ;;
  wrap "unable to create component controllers: " (createComponentReconcilers ctx) ;;
  addStartupTasks ctx setupClient platform ;;
  wrap "unable to set up health check: " (mgr_AddHealthzCheck "healthz") ;;
  wrap "unable to set up ready check: " (mgr_AddReadyzCheck "readyz") ;;
  mret tt.

(** [Start] runs the manager; it blocks until the manager returns. *)
Definition Start (ctx : Context) : M unit :=
  m ← get_mgr;
  call c_Start (Manager_Start w m ctx).

End Operator.

(* ===================================================================== *)
(** ** Package factory                                                    *)
(* ===================================================================== *)

Module factory.

(** The [Operator] interface has one implementation, [*mainOperator]. *)
Definition Operator : Type := mainOperator.

Definition OperatorType : Type := string.

Definition OperatorTypeMain : OperatorType := "main".
Definition OperatorTypeCloudManager : OperatorType := "cloud-manager".

Record Factory : Type := { config : Config }.

Definition NewFactory (cfg : Config) : Factory := {| config := cfg |}.

Definition Create (f : Factory) (operatorType : OperatorType) : result Operator :=
  if String.eqb operatorType OperatorTypeMain then
    Ok (New (config f))
  else if String.eqb operatorType OperatorTypeCloudManager then
    Err (errors_New "cloud-manager operator not yet implemented")
  else
    Err (errorString ("unknown operator type: " +:+ operatorType)).

End factory.

(* ===================================================================== *)
(** ** The entry point (cmd/main.go)                                      *)
(* ===================================================================== *)

(** How the process ends. *)
Record Run : Type := {
  exit_code : Z;
  run_logs : list LogEntry;
  run_calls : list Event
}.

Definition setupLog : string := "setup".

(** [main] after the operator has been created. *)
Definition run_operator (w : World) (ctx : Context) : M unit :=
  catch (Setup w ctx)
    (λ err, log (Logger_Error setupLog err "unable to setup operator") ;; exit 1) ;;
  log (Logger_Info setupLog "starting operator" []) ;;
  catch (Start w ctx)
    (λ err, log (Logger_Error setupLog err "problem running operator") ;; exit 1).

(** The exit status: 0 when [main] returns, the argument of [os.Exit], and
    Go's status 2 for a panic.  ([run_operator] handles every error, so it
    never ends in [Raise].) *)
Definition status {A} (r : outcome A) : Z :=
  match r with
  | Return _ => 0
  | Raise _ => 0
  | Crash (os_Exit code) => code
  | Crash nil_pointer_dereference => 2
  end.

Definition main (w : World) : Run :=
  match LoadConfig w with
  | Err err => {| exit_code := 1; run_logs := []; run_calls := [] |}
  | Ok cfg =>
      let ctx := {| ctx_logger := "" |} in
      let ctx := logf_IntoContext ctx setupLog in
      let f := factory.NewFactory cfg in
      match factory.Create f factory.OperatorTypeMain with
      | Err err =>
          {| exit_code := 1;
             run_logs := [Logger_Error setupLog err "unable to create operator"];
             run_calls := [] |}
      | Ok op_ =>
          match run_operator w ctx {| op := op_; logs := [] |} with
          | (r, st, evs) =>
              {| exit_code := status r; run_logs := logs st; run_calls := evs |}
          end
      end
  end.

(* ===================================================================== *)
(** ** The nine steps of [Setup], as the specification lists them         *)
(* ===================================================================== *)

Inductive Step : Type :=
| ClusterProbe
| HandlerInit
| CachePolicy
| ManagerConstruction
| WebhookRegistration
| BuiltinReconcilers
| PluggableReconcilers
| StartupTasks
| HealthChecks.

Definition nine_steps : list Step :=
  [ ClusterProbe; HandlerInit; CachePolicy; ManagerConstruction;
    WebhookRegistration; BuiltinReconcilers; PluggableReconcilers;
    StartupTasks; HealthChecks ].

(** The step a call belongs to; [Start] is not part of [Setup]. *)
Definition step_of (c : Call) : option Step :=
  match c with
  | c_client_New | c_cluster_Init => Some ClusterProbe
  | c_Init_service _ | c_Init_component _ => Some HandlerInit
  | c_createSecretCacheConfig | c_createODHGeneralCacheConfig => Some CachePolicy
  | c_GetConfigOrDie | c_NewManager => Some ManagerConstruction
  | c_RegisterAllWebhooks => Some WebhookRegistration
  | c_DSCInitialization_SetupWithManager
  | c_NewDataScienceClusterReconciler => Some BuiltinReconcilers
  | c_NewReconciler _ | c_NewComponentReconciler _ => Some PluggableReconcilers
  | c_Add _ => Some StartupTasks
  | c_AddHealthzCheck _ | c_AddReadyzCheck _ => Some HealthChecks
  | c_Start => None
  end.

(** The step each error message of [Setup] names. *)
Definition step_messages : list (string * Step) :=
  [ ("error getting client for setup: ", ClusterProbe);
    ("unable to initialize cluster config: ", ClusterProbe);
    ("unable to init services: ", HandlerInit);
    ("unable to init components: ", HandlerInit);
    ("unable to get application namespace into cache: ", CachePolicy);
    ("unable to start manager: ", ManagerConstruction);
    ("unable to register webhooks: ", WebhookRegistration);
    ("unable to create controller DSCInitialization: ", BuiltinReconcilers);
    ("unable to create controller DataScienceCluster: ", BuiltinReconcilers);
    ("unable to create service controllers: ", PluggableReconcilers);
    ("unable to create component controllers: ", PluggableReconcilers);
    ("error scheduling DSCI creation: ", StartupTasks);
    ("error scheduling DSC creation: ", StartupTasks);
    ("unable to set up health check: ", HealthChecks);
    ("unable to set up ready check: ", HealthChecks) ].

Fixpoint lookup_message (msg : string) (table : list (string * Step)) : option Step :=
  match table with
  | [] => None
  | (m, s) :: table' => if String.eqb msg m then Some s else lookup_message msg table'
  end.

Definition message_step (msg : string) : option Step := lookup_message msg step_messages.

(** An error is wrapped with a message that names the step of call [c]. *)
Definition names_step (c : Call) (err : error) : Prop :=
  ∃ msg cause, err = wrapError msg cause ∧
               is_Some (step_of c) ∧ message_step msg = step_of c.

(** The client [Setup] builds first. *)
Definition setupClient_of (o : mainOperator) : Client :=
  {| client_config := RestConfig (config o); client_scheme := scheme o |}.

(** The three startup tasks. *)
Definition dsci_task (w : World) (setupLog : string) (setupClient : Client)
    (platform : Platform) : leaderElectionRunnableWrapper :=
  leaderElectionRunnableFunc (createDefaultDSCIFunc w setupLog setupClient platform).

Definition dsc_task (w : World) (setupLog : string) (setupClient : Client)
    : leaderElectionRunnableWrapper :=
  leaderElectionRunnableFunc (createDefaultDSCFunc w setupLog setupClient).

Definition cleanup_task (w : World) (setupLog : string) (setupClient : Client)
    : leaderElectionRunnableWrapper :=
  leaderElectionRunnableFunc (cleanup w setupLog setupClient).

(** Whether default DSCI creation is scheduled, from the environment:
    the variable is absent, or is exactly ["false"]. *)
Definition dsci_enabled (w : World) : bool :=
  match os_Environ w !! "DISABLE_DSC_CONFIG" with
  | None => true
  | Some v => String.eqb v "false"
  end.

(** The tasks the startup-task phase hands to the manager, in order. *)
Definition startup_tasks (w : World) (ctx : Context)
    (setupClient : Client) (platform : Platform)
    : list leaderElectionRunnableWrapper :=
  let setupLog := logf_FromContext ctx in
  (if dsci_enabled w
   then [dsci_task w setupLog setupClient platform]
   else [])
  ++ (if String.eqb platform (ManagedRhoai (cluster w))
      then [dsc_task w setupLog setupClient] else [])
  ++ [cleanup_task w setupLog setupClient].

(** The three parts of [addStartupTasks], one per task. *)
Definition schedule_dsci (w : World) (ctx : Context) (setupClient : Client)
    (platform : Platform) : M unit :=
  if dsci_enabled w
  then wrap "error scheduling DSCI creation: "
         (mgr_Add w (dsci_task w (logf_FromContext ctx) setupClient platform))
  else log (Logger_Info (logf_FromContext ctx) "DSCI auto creation is disabled" []).

Definition schedule_dsc (w : World) (ctx : Context) (setupClient : Client)
    (platform : Platform) : M unit :=
  if String.eqb platform (ManagedRhoai (cluster w))
  then wrap "error scheduling DSC creation: "
         (mgr_Add w (dsc_task w (logf_FromContext ctx) setupClient))
  else mret tt.

Definition schedule_cleanup (w : World) (ctx : Context) (setupClient : Client)
    : M unit :=
  catch (mgr_Add w (cleanup_task w (logf_FromContext ctx) setupClient))
    (λ err, log (Logger_Error (logf_FromContext ctx) err
                   "error remove deprecated resources from previous version")).

(** The calls of one step, in order. *)
Definition calls_of_step (w : World) (ctx : Context) (o : mainOperator)
    (s : Step) : list Call :=
  match s with
  | ClusterProbe => [c_client_New; c_cluster_Init]
  | HandlerInit =>
      map (λ sh, c_Init_service (sh_GetName sh)) (sr_registry w)
      ++ map (λ ch, c_Init_component (ch_GetName ch)) (cr_registry w)
  | CachePolicy => [c_createSecretCacheConfig; c_createODHGeneralCacheConfig]
  | ManagerConstruction => [c_GetConfigOrDie; c_NewManager]
  | WebhookRegistration => [c_RegisterAllWebhooks]
  | BuiltinReconcilers =>
      [c_DSCInitialization_SetupWithManager; c_NewDataScienceClusterReconciler]
  | PluggableReconcilers =>
      map (λ sh, c_NewReconciler (sh_GetName sh)) (sr_registry w)
      ++ map (λ ch, c_NewComponentReconciler (ch_GetName ch)) (cr_registry w)
  | StartupTasks =>
      map c_Add (startup_tasks w ctx (setupClient_of o) (GetRelease_Name w))
  | HealthChecks => [c_AddHealthzCheck "healthz"; c_AddReadyzCheck "readyz"]
  end.

(** All calls of a complete [Setup]: the nine steps one after the other. *)
Definition Setup_steps (w : World) (ctx : Context) (o : mainOperator) : list Call :=
  concat (map (calls_of_step w ctx o) nine_steps).

(** The one call whose failure [Setup] tolerates: registering the cleanup
    task. *)
Definition tolerated (w : World) (c : Call) : Prop :=
  ∃ setupLog setupClient, c = c_Add (cleanup_task w setupLog setupClient).

Definition ok (w : World) (ev : Event) : Prop := ev.2 = None ∨ tolerated w ev.1.

Definition same_config (o : mainOperator) (st : St) : Prop :=
  config (op st) = config o ∧ scheme (op st) = scheme o.

(** [m] makes the calls [cs], in that order, and stops at the first call
    that fails and is not tolerated; [Φ] relates that call to the error
    returned.  The process exits only with status 1, on a failing
    [GetConfigOrDie]; a panic is not preceded by a failing call. *)
Definition follows {A : Type} (w : World) (o : mainOperator)
    (Φ : Call → error → Prop) (m : M A) (cs : list Call) : Prop :=
  ∀ st, same_config o st →
    match m st with
    | (Return _, st', evs) =>
        same_config o st' ∧ map fst evs = cs ∧ Forall (ok w) evs
    | (Raise err, _, evs) =>
        ∃ pre c cause,
          evs = pre ++ [(c, Some cause)] ∧ Forall (ok w) pre ∧
          ¬ tolerated w c ∧ cause ∈ chain err ∧ Φ c err ∧
          map fst evs `prefix_of` cs
    | (Crash c, _, evs) =>
        map fst evs `prefix_of` cs ∧
        match c with
        | nil_pointer_dereference => Forall (ok w) evs
        | os_Exit code =>
            code = 1%Z ∧
            ∃ pre cause, evs = pre ++ [(c_GetConfigOrDie, Some cause)] ∧
                         Forall (ok w) pre
        end
    end.

(** [m] leaves the state alone, does not crash, and makes only calls in [P]. *)
Definition quiet {A : Type} (P : Call → Prop) (m : M A) : Prop :=
  ∀ st, match m st with
        | (r, st', evs) =>
            st' = st ∧ (∀ c, r ≠ Crash c) ∧ Forall (λ ev : Event, P ev.1) evs
        end.

(** Calls of the first two steps. *)
Definition before_cache (c : Call) : Prop :=
  step_of c = Some ClusterProbe ∨ step_of c = Some HandlerInit.

(** The base namespace set of the cache policy, given the operator
    namespace: the operator, monitoring and application namespaces, and the
    console-link namespace on the managed platform. *)
Definition base_set (cl : Cluster) (platform : Platform) (operatorNs : string)
    : gset string :=
  {[operatorNs]} ∪ {["redhat-ods-monitoring"]} ∪ {[GetApplicationNamespace cl]}
  ∪ (if String.eqb platform (ManagedRhoai cl)
     then {[NamespaceConsoleLink cl]} else ∅).

(** The state [main] runs the operator from. *)
Definition main_ctx : Context := {| ctx_logger := setupLog |}.

Definition main_st (cfg : Config) : St := {| op := New cfg; logs := [] |}.

(* ===================================================================== *)
(** ** Sample inputs                                                      *)
(* ===================================================================== *)

(** Sample clusters.  [odh_cluster] is an Open Data Hub install in its own
    namespaces; [olm_cluster] has the operator in [openshift-operators];
    [console_cluster] has it in the console-link namespace. *)
Definition odh_cluster : Cluster :=
  {| ManagedRhoai := "OpenShift AI Cloud Service";
     NamespaceConsoleLink := "openshift-console";
     ClusterAuthenticationObj := "cluster";
     GetOperatorNamespace := Ok "opendatahub-operator-system";
     GetApplicationNamespace := "opendatahub" |}.

Definition olm_cluster : Cluster :=
  {| ManagedRhoai := "OpenShift AI Cloud Service";
     NamespaceConsoleLink := "openshift-console";
     ClusterAuthenticationObj := "cluster";
     GetOperatorNamespace := Ok "openshift-operators";
     GetApplicationNamespace := "opendatahub" |}.

Definition console_cluster : Cluster :=
  {| ManagedRhoai := "OpenShift AI Cloud Service";
     NamespaceConsoleLink := "openshift-console";
     ClusterAuthenticationObj := "cluster";
     GetOperatorNamespace := Ok "openshift-console";
     GetApplicationNamespace := "opendatahub" |}.

(** The application namespace lookup came back empty. *)
Definition no_app_cluster : Cluster :=
  {| ManagedRhoai := "OpenShift AI Cloud Service";
     NamespaceConsoleLink := "openshift-console";
     ClusterAuthenticationObj := "cluster";
     GetOperatorNamespace := Ok "opendatahub-operator-system";
     GetApplicationNamespace := "" |}.

Definition sample_cfg : Config :=
  {| RestConfig := "in-cluster"; MetricsAddr := ":8080"; HealthProbeAddr := ":8081";
     PprofAddr := ""; LeaderElection := true; MonitoringNamespace := "opendatahub" |}.

(** A callee that returns [r] and registers nothing. *)
Definition nothing_registered (r : option error) : handed := (r, id).

Definition monitoring_service : ServiceHandler :=
  {| sh_GetName := "monitoring"; sh_Init := λ _, None;
     sh_NewReconciler := λ _ _, nothing_registered None |}.

Definition dashboard_component : ComponentHandler :=
  {| ch_GetName := "dashboard"; ch_Init := λ _, None;
     ch_NewComponentReconciler := λ _ _, nothing_registered None |}.

(** A world on an Open Data Hub cluster with one service and one component
    registered, in which every call succeeds except as the arguments say:
    the cluster lookups, the environment, what [Add] answers and what
    webhook registration answers.  Its collaborators leave the manager as
    they found it. *)
Definition sample_world (cl : Cluster) (env : gmap string string)
    (add : Manager → leaderElectionRunnableWrapper → option error)
    (webhooks : option error) : World :=
  {| LoadConfig := Ok sample_cfg;
     os_Environ := env;
     cluster := cl;
     cluster_Init := λ _ _, None;
     GetRelease_Name := "Open Data Hub";
     sr_registry := [monitoring_service];
     cr_registry := [dashboard_component];
     client_New := λ _ _, None;
     GetConfigOrDie := Ok "in-cluster";
     NewManager := λ _ _, None;
     Add := add;
     AddHealthzCheck := λ _ _, None;
     AddReadyzCheck := λ _ _, None;
     Manager_Start := λ _ _, None;
     RegisterAllWebhooks := λ _, nothing_registered webhooks;
     DSCInitialization_SetupWithManager := λ _ _, nothing_registered None;
     NewDataScienceClusterReconciler := λ _ _, nothing_registered None;
     CreateDefaultDSCI := λ _ _ _ _, None;
     CreateDefaultDSC := λ _ _, None;
     CleanupExistingResource := λ _ _, None |}.

Definition always_added : Manager → leaderElectionRunnableWrapper → option error :=
  λ _ _, None.

Definition never_added : Manager → leaderElectionRunnableWrapper → option error :=
  λ _ _, Some (errorString "manager is stopped").

(** [Add] refuses the second runnable only. *)
Definition second_refused : Manager → leaderElectionRunnableWrapper → option error :=
  λ m _, if decide (length (mgr_runnables m) = 1)
         then Some (errorString "manager is stopped") else None.

Definition quiet_world : World := sample_world odh_cluster ∅ always_added None.

(** [DISABLE_DSC_CONFIG] is set to the empty string. *)
Definition empty_toggle_world : World :=
  sample_world odh_cluster {["DISABLE_DSC_CONFIG" := ""]} always_added None.

(** [DISABLE_DSC_CONFIG] is set to ["false"]. *)
Definition false_toggle_world : World :=
  sample_world odh_cluster {["DISABLE_DSC_CONFIG" := "false"]} always_added None.

Definition stopped_manager_world : World :=
  sample_world odh_cluster ∅ never_added None.

Definition cleanup_refused_world : World :=
  sample_world odh_cluster ∅ second_refused None.

Definition webhook_failure_world : World :=
  sample_world odh_cluster ∅ always_added (Some (errorString "no certificate")).

Definition no_app_world : World := sample_world no_app_cluster ∅ always_added None.

(** The operator namespace cannot be resolved. *)
Definition no_operator_ns_cluster : Cluster :=
  {| ManagedRhoai := "OpenShift AI Cloud Service";
     NamespaceConsoleLink := "openshift-console";
     ClusterAuthenticationObj := "cluster";
     GetOperatorNamespace := Err (errorString "operator namespace not found");
     GetApplicationNamespace := "opendatahub" |}.

Definition no_operator_ns_world : World :=
  sample_world no_operator_ns_cluster ∅ always_added None.

(** A callee that returns nil and adds a runnable of its own. *)
Definition with_other (m : Manager) (name : string) : Manager :=
  {| mgr_config := mgr_config m; mgr_options := mgr_options m;
     mgr_runnables := mgr_runnables m ++ [Other name];
     mgr_healthz := mgr_healthz m; mgr_readyz := mgr_readyz m |}.

Definition registers (name : string) : handed := (None, λ m, with_other m name).

(** A world in which the webhooks, the two built-in controllers and the
    registered handlers each add a runnable to the manager. *)
Definition registering_world : World :=
  {| LoadConfig := Ok sample_cfg;
     os_Environ := ∅;
     cluster := odh_cluster;
     cluster_Init := λ _ _, None;
     GetRelease_Name := "Open Data Hub";
     sr_registry := [ {| sh_GetName := "monitoring"; sh_Init := λ _, None;
                         sh_NewReconciler := λ _ _, registers "monitoring" |} ];
     cr_registry := [ {| ch_GetName := "dashboard"; ch_Init := λ _, None;
                         ch_NewComponentReconciler := λ _ _, registers "dashboard" |} ];
     client_New := λ _ _, None;
     GetConfigOrDie := Ok "in-cluster";
     NewManager := λ _ _, None;
     Add := always_added;
     AddHealthzCheck := λ _ _, None;
     AddReadyzCheck := λ _ _, None;
     Manager_Start := λ _ _, None;
     RegisterAllWebhooks := λ _, registers "webhook-server";
     DSCInitialization_SetupWithManager := λ _ _, registers "dscinitialization";
     NewDataScienceClusterReconciler := λ _ _, registers "datasciencecluster";
     CreateDefaultDSCI := λ _ _ _ _, None;
     CreateDefaultDSC := λ _ _, None;
     CleanupExistingResource := λ _ _, None |}.

(** No kubeconfig can be loaded. *)
Definition no_kubeconfig_world : World :=
  {| LoadConfig := Ok sample_cfg;
     os_Environ := ∅;
     cluster := odh_cluster;
     cluster_Init := λ _ _, None;
     GetRelease_Name := "Open Data Hub";
     sr_registry := [monitoring_service];
     cr_registry := [dashboard_component];
     client_New := λ _ _, None;
     GetConfigOrDie := Err (errorString "no kubeconfig");
     NewManager := λ _ _, None;
     Add := always_added;
     AddHealthzCheck := λ _ _, None;
     AddReadyzCheck := λ _ _, None;
     Manager_Start := λ _ _, None;
     RegisterAllWebhooks := λ _, nothing_registered None;
     DSCInitialization_SetupWithManager := λ _ _, nothing_registered None;
     NewDataScienceClusterReconciler := λ _ _, nothing_registered None;
     CreateDefaultDSCI := λ _ _ _ _, None;
     CreateDefaultDSC := λ _ _, None;
     CleanupExistingResource := λ _ _, None |}.

(** A heap that holds no API object. *)
Definition no_objects : Heap := λ _, NotObject "".

(** A manager with nothing registered, and a state whose operator holds it. *)
Definition sample_manager : Manager :=
  ctrl_Manager "in-cluster"
    (managerOptions (New sample_cfg)
       (cacheOptions quiet_world (New sample_cfg) ∅ ∅)).

Definition ready_st : St := with_mgr (main_st sample_cfg) sample_manager.

Definition sample_client : Client := setupClient_of (New sample_cfg).

(* ===================================================================== *)
(** ** What a run adds to the manager; [Setup] once the manager is set    *)
(* ===================================================================== *)

(** The runnables, liveness checks and readiness checks the manager took
    during a run, read off the calls that returned nil. *)
Definition added_runnables (evs : list Event) : list leaderElectionRunnableWrapper :=
  flat_map (λ ev : Event, match ev with (c_Add r, None) => [r] | _ => [] end) evs.

Definition added_healthz (evs : list Event) : list string :=
  flat_map (λ ev : Event,
              match ev with (c_AddHealthzCheck name, None) => [name] | _ => [] end) evs.

Definition added_readyz (evs : list Event) : list string :=
  flat_map (λ ev : Event,
              match ev with (c_AddReadyzCheck name, None) => [name] | _ => [] end) evs.

(** From a state whose operator holds a manager, [m] does not crash, keeps
    the operator's configuration and scheme, keeps the manager's own
    configuration and options, and changes the manager only by appending what
    its calls registered. *)
Definition grows {A : Type} (m : M A) : Prop :=
  ∀ st mg, mgr (op st) = Some mg →
    match m st with
    | (r, st', evs) =>
        (∀ c, r ≠ Crash c) ∧
        config (op st') = config (op st) ∧ scheme (op st') = scheme (op st) ∧
        ∃ mg', mgr (op st') = Some mg' ∧
          mgr_config mg' = mgr_config mg ∧ mgr_options mg' = mgr_options mg ∧
          mgr_runnables mg' = mgr_runnables mg ++ map Task (added_runnables evs) ∧
          mgr_healthz mg' = mgr_healthz mg ++ added_healthz evs ∧
          mgr_readyz mg' = mgr_readyz mg ++ added_readyz evs
    end.

(** From a state whose operator holds a manager, [m] does not crash, keeps
    the operator's configuration and scheme, and leaves it with a manager. *)
Definition keeps {A : Type} (m : M A) : Prop :=
  ∀ st, is_Some (mgr (op st)) →
    match m st with
    | (r, st', evs) =>
        (∀ c, r ≠ Crash c) ∧
        config (op st') = config (op st) ∧ scheme (op st') = scheme (op st) ∧
        is_Some (mgr (op st'))
    end.

(** The statements of [Setup] from the startup tasks on, for the operator
    value [o] read at the start of [Setup]. *)
Definition Setup_tail (w : World) (ctx : Context) (o : mainOperator) : M unit :=
  addStartupTasks w ctx (setupClient_of o) (GetRelease_Name w) ;;
  wrap "unable to set up health check: " (mgr_AddHealthzCheck w "healthz") ;;
  wrap "unable to set up ready check: " (mgr_AddReadyzCheck w "readyz") ;;
  mret tt.

(** The statements of [Setup] that follow the assignment to [o.mgr]. *)
Definition Setup_rest (w : World) (ctx : Context) (o : mainOperator) : M unit :=
  wrap "unable to register webhooks: "
    (hand c_RegisterAllWebhooks (RegisterAllWebhooks w)) ;;
  wrap "unable to create controller DSCInitialization: "
    (get_mgr ;;
     hand c_DSCInitialization_SetupWithManager
       (DSCInitialization_SetupWithManager w ctx)) ;;
  wrap "unable to create controller DataScienceCluster: "
    (hand c_NewDataScienceClusterReconciler
       (NewDataScienceClusterReconciler w ctx)) ;;
  wrap "unable to create service controllers: " (createServiceReconcilers w ctx) ;;
  wrap "unable to create component controllers: " (createComponentReconcilers w ctx) ;;
  Setup_tail w ctx o.

(** The manager a callee leaves behind the pointer when it is handed [m]. *)
Definition left_by (callee : option Manager → handed) (m : Manager) : Manager :=
  (callee (Some m)).2 m.

(** The handlers of a registry with the manager each one is handed when
    those before it returned nil: the first is handed [m], the next what
    the first left behind, and so on. *)
Fixpoint handed_on {H : Type} (new : H → option Manager → handed)
    (handlers : list H) (m : Manager) : list (H * Manager) :=
  match handlers with
  | [] => []
  | h :: handlers' => (h, m) :: handed_on new handlers' (left_by (new h) m)
  end.

(** The manager after every handler of the registry has had it. *)
Definition registered {H : Type} (new : H → option Manager → handed)
    (handlers : list H) (m : Manager) : Manager :=
  foldl (λ m h, left_by (new h) m) m handlers.

(** The manager after the callees that [Setup] hands it to, between
    building it and scheduling the startup tasks, have all had it in turn. *)
Definition after_collaborators (w : World) (ctx : Context) (m : Manager) : Manager :=
  let m := left_by (RegisterAllWebhooks w) m in
  let m := left_by (DSCInitialization_SetupWithManager w ctx) m in
  let m := left_by (NewDataScienceClusterReconciler w ctx) m in
  let m := registered (λ sh, sh_NewReconciler sh ctx) (sr_registry w) m in
  registered (λ ch, ch_NewComponentReconciler ch ctx) (cr_registry w) m.

(** The manager [Setup] assigns to [o.mgr], given the results of the cache
    builders and of [GetConfigOrDie]. *)
Definition fresh_manager (w : World) (o : mainOperator)
    (secret general : gmap string cache_Config) (restConfig : string) : Manager :=
  manager_New (ctrl_Manager restConfig
                 (managerOptions o (cacheOptions w o secret general))).

(* ===================================================================== *)
(** * Properties                                                          *)
(* ===================================================================== *)

(** ** Cache policy: the namespace sets *)

Section CachePolicyFacts.
Variable cl : Cluster.
Variable platform : Platform.

Lemma getCommonCache_Ok operatorNs :
  GetOperatorNamespace cl = Ok operatorNs →
  ∃ m, getCommonCache cl platform = Ok m ∧ namespaces m = base_set cl platform operatorNs.
Proof.
  intros Hns. unfold getCommonCache, namespaces, base_set. rewrite Hns.
  eexists; split; [reflexivity|].
  destruct (String.eqb platform (ManagedRhoai cl));
    rewrite ?dom_insert_L, dom_empty_L; set_solver.
Qed.

Lemma getCommonCache_Err err :
  GetOperatorNamespace cl = Err err → getCommonCache cl platform = Err err.
Proof. intros Hns. unfold getCommonCache. by rewrite Hns. Qed.

Lemma createSecretCacheConfig_Ok operatorNs :
  GetOperatorNamespace cl = Ok operatorNs →
  ∃ m, createSecretCacheConfig cl platform = Ok m ∧
       namespaces m = base_set cl platform operatorNs ∪ {["openshift-ingress"]}.
Proof.
  intros Hns. destruct (getCommonCache_Ok _ Hns) as (m & Hm & Hdom).
  unfold createSecretCacheConfig. rewrite Hm.
  eexists; split; [reflexivity|].
  unfold namespaces in *. rewrite dom_insert_L, Hdom. set_solver.
Qed.

Lemma createODHGeneralCacheConfig_Ok operatorNs :
  GetOperatorNamespace cl = Ok operatorNs →
  ∃ m, createODHGeneralCacheConfig cl platform = Ok m ∧
       namespaces m =
         base_set cl platform operatorNs ∪ {["openshift-ingress"]} ∪ {["openshift-operators"]}.
Proof.
  intros Hns. destruct (getCommonCache_Ok _ Hns) as (m & Hm & Hdom).
  unfold createODHGeneralCacheConfig. rewrite Hm.
  eexists; split; [reflexivity|].
  unfold namespaces in *. rewrite !dom_insert_L, Hdom. set_solver.
Qed.

Lemma createSecretCacheConfig_Err err :
  GetOperatorNamespace cl = Err err → createSecretCacheConfig cl platform = Err err.
Proof.
  intros Hns. unfold createSecretCacheConfig. by rewrite (getCommonCache_Err _ Hns).
Qed.

Lemma createODHGeneralCacheConfig_Err err :
  GetOperatorNamespace cl = Err err → createODHGeneralCacheConfig cl platform = Err err.
Proof.
  intros Hns. unfold createODHGeneralCacheConfig.
  by rewrite (getCommonCache_Err _ Hns).
Qed.

Lemma eqb_platform_true : platform = ManagedRhoai cl →
  String.eqb platform (ManagedRhoai cl) = true.
Proof. intros ->. apply String.eqb_refl. Qed.

Lemma eqb_platform_false : platform ≠ ManagedRhoai cl →
  String.eqb platform (ManagedRhoai cl) = false.
Proof. intros Hne. by apply String.eqb_neq. Qed.

End CachePolicyFacts.

(** C4, as stated, fails: on a platform other than the managed one the
    secret-cache and general-cache sets do contain the console-link namespace
    when the operator itself is installed there. *)
Lemma C4_counterexample :
  "Open Data Hub" ≠ ManagedRhoai console_cluster ∧
  ∃ secret general,
    createSecretCacheConfig console_cluster "Open Data Hub" = Ok secret ∧
    createODHGeneralCacheConfig console_cluster "Open Data Hub" = Ok general ∧
    NamespaceConsoleLink console_cluster ∈ namespaces secret ∧
    NamespaceConsoleLink console_cluster ∈ namespaces general.
Proof.
  split; [discriminate|].
  destruct (createSecretCacheConfig_Ok console_cluster "Open Data Hub" _ eq_refl)
    as (secret & Hs & Hds).
  destruct (createODHGeneralCacheConfig_Ok console_cluster "Open Data Hub" _ eq_refl)
    as (general & Hg & Hdg).
  exists secret, general. rewrite Hds, Hdg. unfold base_set. simpl.
  repeat split; try done; set_solver.
Qed.

(** C4 (amended): when the operator namespace resolves, both builders
    succeed; on the managed platform both sets contain the console-link
    namespace; on any other platform a set contains it exactly when it is one
    of the other namespaces of that set (the operator namespace, the
    monitoring namespace, the application namespace, [openshift-ingress], and
    for the general set [openshift-operators]) -- so neither set contains it
    when it differs from all of those. *)
Theorem C4_console_link_namespace (cl : Cluster) (platform : Platform)
    (operatorNs : string) :
  GetOperatorNamespace cl = Ok operatorNs →
  ∃ secret general,
    createSecretCacheConfig cl platform = Ok secret ∧
    createODHGeneralCacheConfig cl platform = Ok general ∧
    (platform = ManagedRhoai cl →
       NamespaceConsoleLink cl ∈ namespaces secret ∧
       NamespaceConsoleLink cl ∈ namespaces general) ∧
    (platform ≠ ManagedRhoai cl →
       (NamespaceConsoleLink cl ∈ namespaces secret ↔
        NamespaceConsoleLink cl ∈
          ({[operatorNs; "redhat-ods-monitoring"; GetApplicationNamespace cl;
             "openshift-ingress"]} : gset string)) ∧
       (NamespaceConsoleLink cl ∈ namespaces general ↔
        NamespaceConsoleLink cl ∈
          ({[operatorNs; "redhat-ods-monitoring"; GetApplicationNamespace cl;
             "openshift-ingress"; "openshift-operators"]} : gset string))).
Proof.
  intros Hns.
  destruct (createSecretCacheConfig_Ok cl platform _ Hns) as (secret & Hs & Hds).
  destruct (createODHGeneralCacheConfig_Ok cl platform _ Hns) as (general & Hg & Hdg).
  exists secret, general. rewrite Hds, Hdg. unfold base_set.
  split; [done|]. split; [done|]. split.
  - intros Heq. rewrite (eqb_platform_true _ _ Heq). set_solver.
  - intros Hne. rewrite (eqb_platform_false _ _ Hne). set_solver.
Qed.

Lemma C4_console_link_namespace_witness :
  ∃ secret general,
    createSecretCacheConfig odh_cluster "Open Data Hub" = Ok secret ∧
    createODHGeneralCacheConfig odh_cluster "Open Data Hub" = Ok general ∧
    (NamespaceConsoleLink odh_cluster ∉ namespaces secret) ∧
    (NamespaceConsoleLink odh_cluster ∉ namespaces general).
Proof.
  destruct (C4_console_link_namespace odh_cluster "Open Data Hub"
              "opendatahub-operator-system" eq_refl)
    as (secret & general & Hs & Hg & _ & Hother).
  exists secret, general. split; [exact Hs|]. split; [exact Hg|].
  destruct Hother as [Hsecret Hgeneral]; [discriminate|].
  split.
  - intros Hin. apply Hsecret in Hin. simpl in Hin. set_solver.
  - intros Hin. apply Hgeneral in Hin. simpl in Hin. set_solver.
Defined.

(** C5, as stated, fails in its second half: with the operator installed in
    [openshift-operators] the general-cache set equals the secret-cache set,
    so it does not contain strictly more namespaces. *)
Lemma C5_counterexample :
  ∃ secret general,
    createSecretCacheConfig olm_cluster "Open Data Hub" = Ok secret ∧
    createODHGeneralCacheConfig olm_cluster "Open Data Hub" = Ok general ∧
    namespaces general = namespaces secret ∧
    ¬ (namespaces secret ⊂ namespaces general).
Proof.
  destruct (createSecretCacheConfig_Ok olm_cluster "Open Data Hub" _ eq_refl)
    as (secret & Hs & Hds).
  destruct (createODHGeneralCacheConfig_Ok olm_cluster "Open Data Hub" _ eq_refl)
    as (general & Hg & Hdg).
  exists secret, general.
  assert (Heq : namespaces general = namespaces secret).
  { rewrite Hds, Hdg. unfold base_set. simpl. set_solver. }
  repeat split; try done. rewrite Heq. set_solver.
Qed.

(** C5 (amended): when the operator namespace resolves, the secret-cache
    set is a subset of the general-cache set (hence of its union with the
    operator namespace), the general-cache set is the secret-cache set plus
    [openshift-operators], and it is strictly larger exactly when
    [openshift-operators] is not already in the secret-cache set. *)
Theorem C5_secret_subset_general (cl : Cluster) (platform : Platform)
    (operatorNs : string) :
  GetOperatorNamespace cl = Ok operatorNs →
  ∃ secret general,
    createSecretCacheConfig cl platform = Ok secret ∧
    createODHGeneralCacheConfig cl platform = Ok general ∧
    namespaces secret ⊆ namespaces general ∪ {[operatorNs]} ∧
    namespaces secret ⊆ namespaces general ∧
    namespaces general = namespaces secret ∪ {["openshift-operators"]} ∧
    (namespaces secret ⊂ namespaces general ↔
     "openshift-operators" ∉ namespaces secret).
Proof.
  intros Hns.
  destruct (createSecretCacheConfig_Ok cl platform _ Hns) as (secret & Hs & Hds).
  destruct (createODHGeneralCacheConfig_Ok cl platform _ Hns) as (general & Hg & Hdg).
  exists secret, general. rewrite Hdg, <- Hds.
  split; [done|]. split; [done|]. split; [set_solver|]. split; [set_solver|].
  split; [done|]. split.
  - intros [_ Hnot] Hin. apply Hnot. set_solver.
  - intros Hnotin. split; [set_solver|]. intros Hsub. apply Hnotin, Hsub. set_solver.
Qed.

Lemma C5_secret_subset_general_witness :
  ∃ secret general,
    createSecretCacheConfig odh_cluster "Open Data Hub" = Ok secret ∧
    createODHGeneralCacheConfig odh_cluster "Open Data Hub" = Ok general ∧
    namespaces secret ⊆ namespaces general ∧
    namespaces general = namespaces secret ∪ {["openshift-operators"]}.
Proof.
  destruct (C5_secret_subset_general odh_cluster "Open Data Hub"
              "opendatahub-operator-system" eq_refl)
    as (secret & general & Hs & Hg & _ & Hsub & Heq & _).
  exists secret, general. repeat split; assumption.
Defined.

(** ** The factory *)

(** C2: [Create] on ["main"] returns the operator [New] builds from the
    factory's configuration, which has no manager yet; on ["cloud-manager"]
    it returns the not-implemented error; on any other value it returns an
    error whose message is ["unknown operator type: "] followed by that
    value; and an operator is returned for ["main"] only. *)
Theorem C2_Create_by_kind (cfg : Config) (operatorType : factory.OperatorType) :
  let f := factory.NewFactory cfg in
  (operatorType = "main" →
     factory.Create f operatorType = Ok (New cfg) ∧
     mgr (New cfg) = None ∧ config (New cfg) = cfg) ∧
  (operatorType = "cloud-manager" →
     factory.Create f operatorType =
       Err (errors_New "cloud-manager operator not yet implemented")) ∧
  (operatorType ≠ "main" → operatorType ≠ "cloud-manager" →
     ∃ err, factory.Create f operatorType = Err err ∧
            Error err = "unknown operator type: " +:+ operatorType) ∧
  (∀ o, factory.Create f operatorType = Ok o → operatorType = "main").
Proof.
  cbv zeta. unfold factory.Create, factory.OperatorTypeMain,
    factory.OperatorTypeCloudManager.
  split; [|split; [|split]].
  - by intros ->.
  - by intros ->.
  - intros Hmain Hcloud.
    apply String.eqb_neq in Hmain, Hcloud. rewrite Hmain, Hcloud.
    eexists; split; reflexivity.
  - intros o. destruct (String.eqb_spec operatorType "main") as [->|_]; [done|].
    by destruct (String.eqb operatorType "cloud-manager").
Qed.

(** ** The startup-task wrapper *)

(** C8: whatever function is wrapped, the task reports that it needs leader
    election, and starting it runs that function on the given context. *)
Theorem C8_wrapper_needs_leader_election (fn : RunnableFunc) (ctx : Context) :
  NeedLeaderElection (leaderElectionRunnableFunc fn) = true ∧
  Runnable_Start (leaderElectionRunnableFunc fn) ctx = fn ctx ∧
  Fn (leaderElectionRunnableFunc fn) = fn.
Proof. repeat split. Qed.

(** ** The cache transform *)

(** C10, as stated, fails: for a nil pointer of an API object type
    [meta.Accessor] answers, reading the managed fields dereferences the
    pointer, and the transform panics instead of returning its input. *)
Lemma C10_counterexample :
  meta_Accessor no_objects (nil_ptr "corev1.Pod") = Ok (nil_ptr "corev1.Pod") ∧
  DefaultTransform no_objects (nil_ptr "corev1.Pod") = (panicked, no_objects) ∧
  ∀ out, (DefaultTransform no_objects (nil_ptr "corev1.Pod")).1 ≠ returned out.
Proof. by repeat split. Qed.

(** C10 (amended): the transform never returns an error.  For every heap
    and every pointer into it, it returns that pointer and a nil error; no
    other cell changes; an API object comes back with nil managed fields and
    is otherwise the same; anything else, and any object whose managed fields
    were nil already, leaves the heap as it was.  For a nil pointer of an
    object type it panics, and the heap is as it was. *)
Theorem C10_DefaultTransform_total_on_pointers (h : Heap) (in_ : any) :
  (∀ out err, (DefaultTransform h in_).1 ≠ returned (out, Some err)) ∧
  match in_ with
  | ptr r =>
      ∃ h', DefaultTransform h in_ = (returned (in_, None), h') ∧
        (∀ l, l ≠ r → h' l = h l) ∧
        match h r with
        | Object kind meta body =>
            h' r = Object kind {| meta_Name := meta_Name meta;
                                  meta_Namespace := meta_Namespace meta;
                                  meta_ManagedFields := None |} body
        | NotObject payload => h' = h
        end ∧
        (GetManagedFields h in_ = returned None → h' = h)
  | nil_ptr _ => DefaultTransform h in_ = (panicked, h)
  end.
Proof.
  destruct in_ as [r|kind]; [|by split].
  unfold DefaultTransform, meta_Accessor, GetManagedFields, SetManagedFields.
  destruct (h r) as [kind meta body|payload] eqn:Hin; rewrite ?Hin.
  - case_bool_decide as Hmf.
    + split; [done|]. eexists; split; [reflexivity|]. split; [|split].
      * intros l Hl. by rewrite fn_lookup_insert_ne.
      * by rewrite fn_lookup_insert.
      * intros [= Hnil]. by rewrite Hnil in Hmf.
    + split; [done|]. exists h. split; [reflexivity|]. split; [done|]. split; [|done].
      rewrite Hin. destruct meta as [n ns mf]; simpl in *.
      destruct mf; [by destruct Hmf|done].
  - split; [done|]. exists h. by repeat split.
Qed.

(** ** Running [Setup]: calls in order, first failure wins *)

Section Follows.
Variable w : World.
Variable o : mainOperator.

Lemma run_bind {A B} (m : M A) (k : A → M B) (st : St) :
  (m ≫= k) st =
  match m st with
  | (Return a, st1, evs1) =>
      match k a st1 with (r, st2, evs2) => (r, st2, evs1 ++ evs2) end
  | (Raise err, st1, evs1) => (Raise err, st1, evs1)
  | (Crash c, st1, evs1) => (Crash c, st1, evs1)
  end.
Proof. reflexivity. Qed.

Lemma follows_ret {A} Φ (a : A) : follows w o Φ (mret a) [].
Proof. intros st Hst. by split; [|split; [|constructor]]. Qed.

Lemma follows_bind {A B} Φ (m : M A) (k : A → M B) cs1 cs2 :
  follows w o Φ m cs1 →
  (∀ a, follows w o Φ (k a) cs2) →
  follows w o Φ (m ≫= k) (cs1 ++ cs2).
Proof.
  intros Hm Hk st Hst. rewrite run_bind. specialize (Hm st Hst).
  destruct (m st) as [[[a|err|c] st1] evs1].
  - destruct Hm as (Hst1 & Hcs1 & Hok1). specialize (Hk a st1 Hst1).
    destruct (k a st1) as [[[b|err|c] st2] evs2].
    + destruct Hk as (Hst2 & Hcs2 & Hok2).
      split; [done|]. split; [by rewrite List.map_app, Hcs1, Hcs2|].
      by apply Forall_app.
    + destruct Hk as (pre & c & cause & -> & Hpre & Hfatal & Hcause & HΦ & Hpfx).
      exists (evs1 ++ pre), c, cause.
      split; [by rewrite app_assoc|]. split; [by apply Forall_app|].
      do 3 (split; [done|]).
      rewrite List.map_app, Hcs1. by apply prefix_app.
    + destruct Hk as [Hpfx Hc]. split; [rewrite List.map_app, Hcs1; by apply prefix_app|].
      destruct c as [|code]; [by apply Forall_app|].
      destruct Hc as (-> & pre & cause & -> & Hpre). split; [done|].
      exists (evs1 ++ pre), cause. split; [by rewrite app_assoc|by apply Forall_app].
  - destruct Hm as (pre & c & cause & -> & Hpre & Hfatal & Hcause & HΦ & Hpfx).
    exists pre, c, cause. do 5 (split; [done|]). by apply prefix_app_r.
  - destruct Hm as [Hpfx Hc]. split; [by apply prefix_app_r|done].
Qed.

Lemma follows_bind_nil {A B} Φ (m : M A) (k : A → M B) cs :
  follows w o Φ m [] →
  (∀ a, follows w o Φ (k a) cs) →
  follows w o Φ (m ≫= k) cs.
Proof. intros Hm Hk. by apply (follows_bind Φ m k [] cs). Qed.

Lemma follows_bind_cons {A B} Φ (m : M A) (k : A → M B) c cs :
  follows w o Φ m [c] →
  (∀ a, follows w o Φ (k a) cs) →
  follows w o Φ (m ≫= k) (c :: cs).
Proof. intros Hm Hk. by apply (follows_bind Φ m k [c] cs). Qed.

Lemma chain_self (err : error) : err ∈ chain err.
Proof. destruct err; simpl; set_solver. Qed.

Lemma follows_call Φ (c : Call) (r : option error) :
  ¬ tolerated w c → (∀ err, Φ c err) →
  follows w o Φ (call c r) [c].
Proof.
  intros Hfatal HΦ st Hst. unfold call. destruct r as [err|].
  - exists [], c, err. split; [done|]. split; [constructor|].
    split; [done|]. split; [apply chain_self|]. by split.
  - split; [done|]. split; [done|]. constructor; [by left|constructor].
Qed.

Lemma follows_call_r {A} Φ (c : Call) (r : result A) :
  ¬ tolerated w c → (∀ err, Φ c err) →
  follows w o Φ (call_r c r) [c].
Proof.
  intros Hfatal HΦ st Hst. unfold call_r. destruct r as [a|err].
  - split; [done|]. split; [done|]. constructor; [by left|constructor].
  - exists [], c, err. split; [done|]. split; [constructor|].
    split; [done|]. split; [apply chain_self|]. by split.
Qed.

Lemma follows_wrap {A} (Φ Ψ : Call → error → Prop) msg (m : M A) cs :
  follows w o Φ m cs →
  (∀ c err, c ∈ cs → Φ c err → Ψ c (wrapError msg err)) →
  follows w o Ψ (wrap msg m) cs.
Proof.
  intros Hm HΨ st Hst. unfold wrap. specialize (Hm st Hst).
  destruct (m st) as [[[a|err|c] st1] evs1]; [done| |done].
  destruct Hm as (pre & c & cause & -> & Hpre & Hfatal & Hcause & HΦ & Hpfx).
  exists pre, c, cause. do 3 (split; [done|]).
  split; [simpl; set_solver|]. split; [|done].
  apply HΨ; [|done]. rewrite List.map_app in Hpfx. simpl in Hpfx.
  destruct Hpfx as [rest ->]. set_solver.
Qed.

Lemma follows_get_op Φ : follows w o Φ get_op [].
Proof. intros st Hst. by split; [|split; [|constructor]]. Qed.

Lemma follows_get_mgr Φ : follows w o Φ get_mgr [].
Proof.
  intros st Hst. unfold get_mgr. destruct (mgr (op st)); simpl.
  - by split; [|split; [|constructor]].
  - split; [apply prefix_nil|constructor].
Qed.

Lemma follows_set_mgr Φ m : follows w o Φ (set_mgr m) [].
Proof. intros st Hst. by split; [|split; [|constructor]]. Qed.

Lemma follows_log Φ e : follows w o Φ (log e) [].
Proof. intros st Hst. by split; [|split; [|constructor]]. Qed.

Lemma follows_ForEach {H} Φ (GetName : H → string) (fn : H → M unit)
    (c : H → Call) (handlers : list H) :
  (∀ h, follows w o Φ (fn h) [c h]) →
  (∀ h name err, Φ (c h) err → Φ (c h) (wrapError name err)) →
  follows w o Φ (ForEach GetName handlers fn) (map c handlers).
Proof.
  intros Hfn HΦ. induction handlers as [|h handlers IH]; simpl.
  - apply follows_ret.
  - apply follows_bind_cons; [|by intros _].
    apply (follows_wrap Φ Φ); [done|].
    intros c' err Hc' HΦ'. apply list_elem_of_singleton in Hc' as ->. by apply HΦ.
Qed.

(** The calls made are always an initial segment of the plan. *)
Lemma follows_prefix {A} Φ (m : M A) cs (st : St) :
  follows w o Φ m cs → same_config o st → map fst (m st).2 `prefix_of` cs.
Proof.
  intros Hm Hst. specialize (Hm st Hst).
  destruct (m st) as [[[a|err|c] st'] evs]; simpl.
  - by destruct Hm as (_ & -> & _).
  - by destruct Hm as (?&?&?&?&?&?&?&?&?).
  - by destruct Hm.
Qed.

End Follows.

(** ** The startup tasks are three different tasks *)

Section Tasks.
Variable w : World.

Lemma cleanup_first_message setupLog setupClient ctx cfg :
  log_msg <$> head (Fn (cleanup_task w setupLog setupClient) ctx cfg).1
  = Some "run upgrade task".
Proof.
  unfold cleanup_task, leaderElectionRunnableFunc, cleanup. simpl.
  by destruct (CleanupExistingResource w ctx setupClient).
Qed.

Lemma dsci_first_message setupLog setupClient platform ctx cfg :
  log_msg <$> head (Fn (dsci_task w setupLog setupClient platform) ctx cfg).1
  = Some "create default DSCI".
Proof. reflexivity. Qed.

Lemma dsc_first_message setupLog setupClient ctx cfg :
  log_msg <$> head (Fn (dsc_task w setupLog setupClient) ctx cfg).1
  = Some "create default DSC".
Proof. reflexivity. Qed.

Lemma dsci_task_not_cleanup l1 c1 p l2 c2 :
  dsci_task w l1 c1 p ≠ cleanup_task w l2 c2.
Proof.
  intros Heq.
  pose proof (dsci_first_message l1 c1 p main_ctx sample_cfg) as Hd.
  rewrite Heq, cleanup_first_message in Hd. discriminate.
Qed.

Lemma dsc_task_not_cleanup l1 c1 l2 c2 :
  dsc_task w l1 c1 ≠ cleanup_task w l2 c2.
Proof.
  intros Heq.
  pose proof (dsc_first_message l1 c1 main_ctx sample_cfg) as Hd.
  rewrite Heq, cleanup_first_message in Hd. discriminate.
Qed.

Lemma dsci_task_not_dsc l1 c1 p l2 c2 :
  dsci_task w l1 c1 p ≠ dsc_task w l2 c2.
Proof.
  intros Heq.
  pose proof (dsci_first_message l1 c1 p main_ctx sample_cfg) as Hd.
  rewrite Heq, dsc_first_message in Hd. discriminate.
Qed.

Lemma not_tolerated_dsci l c p : ¬ tolerated w (c_Add (dsci_task w l c p)).
Proof.
  intros (l' & c' & Heq).
  apply (dsci_task_not_cleanup l c p l' c'). congruence.
Qed.

Lemma not_tolerated_dsc l c : ¬ tolerated w (c_Add (dsc_task w l c)).
Proof.
  intros (l' & c' & Heq).
  apply (dsc_task_not_cleanup l c l' c'). congruence.
Qed.

Lemma not_tolerated_step (c : Call) :
  step_of c ≠ Some StartupTasks → ¬ tolerated w c.
Proof. intros Hstep (l & cl & ->). by apply Hstep. Qed.

Lemma dsci_gate :
  (let '(disableDSCConfig, existDSCConfig) := os_LookupEnv w "DISABLE_DSC_CONFIG" in
   existDSCConfig && negb (String.eqb disableDSCConfig "false"))
  = negb (dsci_enabled w).
Proof.
  unfold os_LookupEnv, dsci_enabled.
  by destruct (os_Environ w !! "DISABLE_DSC_CONFIG").
Qed.

End Tasks.

(** ** [Setup] follows the nine steps *)

Section SetupFollows.
Variable w : World.
Variable ctx : Context.
Variable o : mainOperator.

Local Abbreviation raw := (λ (_ : Call) (_ : error), True).

Lemma follows_bind_get_op {B} Φ (k : mainOperator → M B) cs :
  (∀ o', config o' = config o → scheme o' = scheme o → follows w o Φ (k o') cs) →
  follows w o Φ (get_op ≫= k) cs.
Proof.
  intros Hk st Hst. rewrite run_bind. unfold get_op.
  destruct Hst as [Hc Hs]. specialize (Hk (op st) Hc Hs st (conj Hc Hs)).
  by destruct (k (op st) st) as [[[b|err|c] st2] evs2].
Qed.

(** Wrapping a step's calls with that step's message. *)
Lemma follows_step {A} (s : Step) msg (m : M A) cs :
  follows w o raw m cs →
  (∀ c, c ∈ cs → step_of c = Some s) →
  message_step msg = Some s →
  follows w o names_step (wrap msg m) cs.
Proof.
  intros Hm Hcs Hmsg. apply (follows_wrap w o raw names_step); [done|].
  intros c err Hc _. exists msg, err. rewrite (Hcs c Hc). by repeat split.
Qed.

Lemma follows_hand Φ (c : Call) (callee : option Manager → handed) :
  ¬ tolerated w c → (∀ err, Φ c err) →
  follows w o Φ (hand c callee) [c].
Proof.
  intros Hfatal HΦ st Hst. unfold hand.
  destruct (callee (mgr (op st))) as [[err|] f].
  - exists [], c, err. split; [done|]. split; [constructor|].
    split; [done|]. split; [apply chain_self|]. by split.
  - split; [done|]. split; [done|]. constructor; [by left|constructor].
Qed.

Lemma follows_mgr_Add r :
  ¬ tolerated w (c_Add r) → follows w o raw (mgr_Add w r) [c_Add r].
Proof.
  intros Hfatal. unfold mgr_Add.
  apply follows_bind_nil; [apply follows_get_mgr|]. intros m.
  apply (follows_bind w o raw _ _ [c_Add r] []).
  - by apply follows_call.
  - intros _. apply follows_set_mgr.
Qed.

Lemma follows_mgr_AddHealthzCheck name :
  follows w o raw (mgr_AddHealthzCheck w name) [c_AddHealthzCheck name].
Proof.
  unfold mgr_AddHealthzCheck.
  apply follows_bind_nil; [apply follows_get_mgr|]. intros m.
  apply (follows_bind w o raw _ _ [c_AddHealthzCheck name] []).
  - apply follows_call; [by apply not_tolerated_step|done].
  - intros _. apply follows_set_mgr.
Qed.

Lemma follows_mgr_AddReadyzCheck name :
  follows w o raw (mgr_AddReadyzCheck w name) [c_AddReadyzCheck name].
Proof.
  unfold mgr_AddReadyzCheck.
  apply follows_bind_nil; [apply follows_get_mgr|]. intros m.
  apply (follows_bind w o raw _ _ [c_AddReadyzCheck name] []).
  - apply follows_call; [by apply not_tolerated_step|done].
  - intros _. apply follows_set_mgr.
Qed.

(** Registering the cleanup task never raises: a failure is logged. *)
Lemma follows_cleanup Φ setupLog setupClient :
  follows w o Φ
    (catch (mgr_Add w (cleanup_task w setupLog setupClient))
       (λ err, log (Logger_Error setupLog err
                      "error remove deprecated resources from previous version")))
    [c_Add (cleanup_task w setupLog setupClient)].
Proof.
  intros st Hst. unfold catch, mgr_Add. rewrite run_bind. unfold get_mgr.
  destruct (mgr (op st)) as [m|]; [|split; [apply prefix_nil|constructor]].
  rewrite run_bind. unfold call.
  destruct (Add w m (cleanup_task w setupLog setupClient)) as [err|]; simpl.
  - split; [done|]. split; [done|].
    constructor; [|constructor]. right. by exists setupLog, setupClient.
  - split; [done|]. split; [done|]. constructor; [by left|constructor].
Qed.

Lemma follows_addStartupTasks setupClient platform :
  follows w o names_step (addStartupTasks w ctx setupClient platform)
    (map c_Add (startup_tasks w ctx setupClient platform)).
Proof.
  unfold addStartupTasks, startup_tasks.
  pose proof (dsci_gate w) as Hgate.
  destruct (os_LookupEnv w "DISABLE_DSC_CONFIG") as [disableDSCConfig existDSCConfig].
  rewrite Hgate. rewrite !List.map_app.
  apply follows_bind.
  { destruct (dsci_enabled w); simpl.
    - apply (follows_step StartupTasks); [|set_solver|done].
      apply follows_mgr_Add, not_tolerated_dsci.
    - apply follows_log. }
  intros _. apply follows_bind.
  { destruct (String.eqb platform (ManagedRhoai (cluster w))); simpl.
    - apply (follows_step StartupTasks); [|set_solver|done].
      apply follows_mgr_Add, not_tolerated_dsc.
    - apply follows_ret. }
  intros _. apply (follows_bind w o names_step _ _ [_] []).
  - apply follows_cleanup.
  - intros _. apply follows_ret.
Qed.

Lemma follows_initServices p :
  follows w o raw (initServices w ctx p)
    (map (λ sh, c_Init_service (sh_GetName sh)) (sr_registry w)).
Proof.
  apply (follows_ForEach w o raw); [|done].
  intros sh. apply follows_call; [by apply not_tolerated_step|done].
Qed.

Lemma follows_initComponents p :
  follows w o raw (initComponents w ctx p)
    (map (λ ch, c_Init_component (ch_GetName ch)) (cr_registry w)).
Proof.
  apply (follows_ForEach w o raw); [|done].
  intros ch. apply follows_call; [by apply not_tolerated_step|done].
Qed.

Lemma follows_createServiceReconcilers :
  follows w o raw (createServiceReconcilers w ctx)
    (map (λ sh, c_NewReconciler (sh_GetName sh)) (sr_registry w)).
Proof.
  apply (follows_ForEach w o raw); [|done].
  intros sh. apply follows_bind_nil; [apply follows_log|]. intros _.
  apply (follows_wrap w o raw raw); [|done].
  apply follows_hand; [by apply not_tolerated_step|done].
Qed.

Lemma follows_createComponentReconcilers :
  follows w o raw (createComponentReconcilers w ctx)
    (map (λ ch, c_NewComponentReconciler (ch_GetName ch)) (cr_registry w)).
Proof.
  apply (follows_ForEach w o raw); [|done].
  intros ch. apply follows_bind_nil; [apply follows_log|]. intros _.
  apply (follows_wrap w o raw raw); [|done].
  apply follows_hand; [by apply not_tolerated_step|done].
Qed.

Lemma follows_GetConfigOrDie Φ :
  follows w o Φ (ctrl_GetConfigOrDie w) [c_GetConfigOrDie].
Proof.
  intros st Hst. unfold ctrl_GetConfigOrDie.
  destruct (GetConfigOrDie w) as [cfg|err]; simpl.
  - split; [done|]. split; [done|]. constructor; [by left|constructor].
  - split; [done|]. split; [done|]. exists [], err. by split; [|constructor].
Qed.

Lemma step_of_map {H} (f : H → Call) (s : Step) (l : list H) :
  (∀ h, step_of (f h) = Some s) → ∀ c, c ∈ map f l → step_of c = Some s.
Proof. intros Hf c Hc. apply list_elem_of_fmap in Hc as (h & -> & _). apply Hf. Qed.

Lemma Setup_steps_unfold :
  Setup_steps w ctx o =
  c_client_New :: c_cluster_Init ::
  (map (λ sh, c_Init_service (sh_GetName sh)) (sr_registry w) ++
   (map (λ ch, c_Init_component (ch_GetName ch)) (cr_registry w) ++
    (c_createSecretCacheConfig :: c_createODHGeneralCacheConfig ::
     c_GetConfigOrDie :: c_NewManager :: c_RegisterAllWebhooks ::
     c_DSCInitialization_SetupWithManager :: c_NewDataScienceClusterReconciler ::
     (map (λ sh, c_NewReconciler (sh_GetName sh)) (sr_registry w) ++
      (map (λ ch, c_NewComponentReconciler (ch_GetName ch)) (cr_registry w) ++
       (map c_Add (startup_tasks w ctx (setupClient_of o) (GetRelease_Name w)) ++
        [c_AddHealthzCheck "healthz"; c_AddReadyzCheck "readyz"])))))).
Proof.
  unfold Setup_steps, nine_steps. simpl.
  by rewrite ?app_nil_r, <- ?app_assoc.
Qed.

Lemma follows_Setup : follows w o names_step (Setup w ctx) (Setup_steps w ctx o).
Proof.
  rewrite Setup_steps_unfold. unfold Setup, setupClient_of.
  apply follows_bind_get_op. intros o' Hc Hs. rewrite Hc, Hs.
  apply follows_bind_cons.
  { apply (follows_step ClusterProbe); [|set_solver|done].
    apply follows_call; [by apply not_tolerated_step|done]. }
  intros _. apply follows_bind_cons.
  { apply (follows_step ClusterProbe); [|set_solver|done].
    apply follows_call; [by apply not_tolerated_step|done]. }
  intros _. apply follows_bind.
  { apply (follows_step HandlerInit); [apply follows_initServices| |done].
    by apply step_of_map. }
  intros _. apply follows_bind.
  { apply (follows_step HandlerInit); [apply follows_initComponents| |done].
    by apply step_of_map. }
  intros _. apply follows_bind_cons.
  { apply (follows_step CachePolicy); [|set_solver|done].
    apply follows_call_r; [by apply not_tolerated_step|done]. }
  intros secretCache. apply follows_bind_cons.
  { apply (follows_step CachePolicy); [|set_solver|done].
    apply follows_call_r; [by apply not_tolerated_step|done]. }
  intros odhCache. apply follows_bind_cons; [apply follows_GetConfigOrDie|].
  intros restConfig. apply follows_bind_cons.
  { apply (follows_step ManagerConstruction); [|set_solver|done].
    apply follows_call; [by apply not_tolerated_step|done]. }
  intros _. apply follows_bind_nil; [apply follows_set_mgr|].
  intros _. apply follows_bind_cons.
  { apply (follows_step WebhookRegistration); [|set_solver|done].
    apply follows_hand; [by apply not_tolerated_step|done]. }
  intros _. apply follows_bind_cons.
  { apply (follows_step BuiltinReconcilers); [|set_solver|done].
    apply follows_bind_nil; [apply follows_get_mgr|]. intros _.
    apply follows_hand; [by apply not_tolerated_step|done]. }
  intros _. apply follows_bind_cons.
  { apply (follows_step BuiltinReconcilers); [|set_solver|done].
    apply follows_hand; [by apply not_tolerated_step|done]. }
  intros _. apply follows_bind.
  { apply (follows_step PluggableReconcilers);
      [apply follows_createServiceReconcilers| |done].
    by apply step_of_map. }
  intros _. apply follows_bind.
  { apply (follows_step PluggableReconcilers);
      [apply follows_createComponentReconcilers| |done].
    by apply step_of_map. }
  intros _. apply follows_bind; [apply follows_addStartupTasks|].
  intros _. apply follows_bind_cons.
  { apply (follows_step HealthChecks); [|set_solver|done].
    apply follows_mgr_AddHealthzCheck. }
  intros _. apply (follows_bind w o names_step _ _ [_] []).
  { apply (follows_step HealthChecks); [|set_solver|done].
    apply follows_mgr_AddReadyzCheck. }
  intros _. apply follows_ret.
Qed.

End SetupFollows.

Lemma calls_of_step_step (w : World) (ctx : Context) (o : mainOperator)
    (s : Step) (c : Call) :
  c ∈ calls_of_step w ctx o s → step_of c = Some s.
Proof.
  destruct s; simpl; intros Hc;
    repeat match goal with
      | H : _ ∈ _ ++ _ |- _ => apply elem_of_app in H as [H|H]
      | H : _ ∈ map _ _ |- _ => by apply (step_of_map _ _ _ (λ _, eq_refl)) in H
      end;
    set_solver.
Qed.

Lemma Setup_steps_step (w : World) (ctx : Context) (o : mainOperator) (c : Call) :
  c ∈ Setup_steps w ctx o → ∃ s, s ∈ nine_steps ∧ step_of c = Some s.
Proof.
  unfold Setup_steps. intros Hc.
  apply list_elem_of_In, in_concat in Hc as (cs & Hcs & Hc).
  apply list_elem_of_In, list_elem_of_fmap in Hcs as (s & -> & Hs).
  exists s. split; [done|]. by apply list_elem_of_In, calls_of_step_step in Hc.
Qed.

Lemma Setup_never_starts (w : World) (ctx : Context) (st : St) :
  c_Start ∉ map fst (Setup w ctx st).2.
Proof.
  pose proof (follows_prefix w (op st) _ _ _ st (follows_Setup w ctx (op st))
                (conj eq_refl eq_refl)) as Hpfx.
  destruct (Setup w ctx st) as [[r st'] evs]. simpl in *.
  intros Hin. destruct Hpfx as [rest Hrest].
  assert (Hsteps : c_Start ∈ Setup_steps w ctx (op st)) by (rewrite Hrest; set_solver).
  by apply Setup_steps_step in Hsteps as (s & _ & ?).
Qed.

(** ** The startup-task phase, part by part *)

Section StartupTasksRun.
Variable w : World.
Variable ctx : Context.
Variable setupClient : Client.
Variable platform : Platform.

Lemma run_get_op {B} (k : mainOperator → M B) (st : St) :
  (get_op ≫= k) st = k (op st) st.
Proof.
  rewrite run_bind. unfold get_op.
  by destruct (k (op st) st) as [[[b|err|c] st2] evs2].
Qed.

Lemma addStartupTasks_parts (st : St) :
  addStartupTasks w ctx setupClient platform st =
  (schedule_dsci w ctx setupClient platform ;;
   schedule_dsc w ctx setupClient platform ;;
   schedule_cleanup w ctx setupClient ;;
   mret tt) st.
Proof.
  unfold addStartupTasks, schedule_dsci.
  pose proof (dsci_gate w) as Hgate.
  destruct (os_LookupEnv w "DISABLE_DSC_CONFIG") as [disableDSCConfig existDSCConfig].
  rewrite Hgate. destruct (dsci_enabled w); reflexivity.
Qed.

Lemma run_mgr_Add r (st : St) (m : Manager) :
  mgr (op st) = Some m →
  mgr_Add w r st =
  match Add w m r with
  | None => (Return tt, with_mgr st (with_runnable m r), [(c_Add r, None)])
  | Some err => (Raise err, st, [(c_Add r, Some err)])
  end.
Proof.
  intros Hm. unfold mgr_Add. rewrite run_bind. unfold get_mgr. rewrite Hm.
  rewrite run_bind. unfold call. by destruct (Add w m r).
Qed.

Lemma run_schedule_dsci (st : St) (m : Manager) :
  mgr (op st) = Some m →
  let task := dsci_task w (logf_FromContext ctx) setupClient platform in
  schedule_dsci w ctx setupClient platform st =
  if dsci_enabled w then
    match Add w m task with
    | None => (Return tt, with_mgr st (with_runnable m task), [(c_Add task, None)])
    | Some err => (Raise (wrapError "error scheduling DSCI creation: " err), st,
                   [(c_Add task, Some err)])
    end
  else (Return tt,
        with_log st (Logger_Info (logf_FromContext ctx) "DSCI auto creation is disabled" []),
        []).
Proof.
  intros Hm task. unfold schedule_dsci. destruct (dsci_enabled w); [|done].
  unfold wrap. rewrite (run_mgr_Add _ _ _ Hm). by destruct (Add w m _).
Qed.

Lemma run_schedule_dsc (st : St) (m : Manager) :
  mgr (op st) = Some m →
  let task := dsc_task w (logf_FromContext ctx) setupClient in
  schedule_dsc w ctx setupClient platform st =
  if String.eqb platform (ManagedRhoai (cluster w)) then
    match Add w m task with
    | None => (Return tt, with_mgr st (with_runnable m task), [(c_Add task, None)])
    | Some err => (Raise (wrapError "error scheduling DSC creation: " err), st,
                   [(c_Add task, Some err)])
    end
  else (Return tt, st, []).
Proof.
  intros Hm task. unfold schedule_dsc.
  destruct (String.eqb platform (ManagedRhoai (cluster w))); [|done].
  unfold wrap. rewrite (run_mgr_Add _ _ _ Hm). by destruct (Add w m _).
Qed.

Lemma run_schedule_cleanup (st : St) (m : Manager) :
  mgr (op st) = Some m →
  let task := cleanup_task w (logf_FromContext ctx) setupClient in
  schedule_cleanup w ctx setupClient st =
  match Add w m task with
  | None => (Return tt, with_mgr st (with_runnable m task), [(c_Add task, None)])
  | Some err =>
      (Return tt,
       with_log st (Logger_Error (logf_FromContext ctx) err
                      "error remove deprecated resources from previous version"),
       [(c_Add task, Some err)])
  end.
Proof.
  intros Hm task. unfold schedule_cleanup, catch. rewrite (run_mgr_Add _ _ _ Hm).
  by destruct (Add w m _).
Qed.

End StartupTasksRun.

Section StartupTasksFacts.
Variable w : World.
Variable ctx : Context.
Variable setupClient : Client.
Variable platform : Platform.

Local Abbreviation dsci := (dsci_task w (logf_FromContext ctx) setupClient platform).
Local Abbreviation dsc := (dsc_task w (logf_FromContext ctx) setupClient).
Local Abbreviation cleanup_ := (cleanup_task w (logf_FromContext ctx) setupClient).
Local Abbreviation cleanup_failed err :=
  (Logger_Error (logf_FromContext ctx) err
     "error remove deprecated resources from previous version").

(** What the DSC and cleanup parts do from a state that has a manager. *)
Lemma run_dsc_cleanup (st : St) (m : Manager) :
  mgr (op st) = Some m →
  match (schedule_dsc w ctx setupClient platform ;;
         schedule_cleanup w ctx setupClient ;; mret tt) st with
  | (r, st', evs) =>
      config (op st') = config (op st) ∧
      ((∃ err, r = Raise (wrapError "error scheduling DSC creation: " err) ∧
               evs = [(c_Add dsc, Some err)] ∧ st' = st) ∨
       (r = Return tt ∧
        ∃ pre m1 st1,
          (pre = [] ∧ m1 = m ∧ st1 = st ∨
           pre = [(c_Add dsc, None)] ∧ m1 = with_runnable m dsc ∧
           st1 = with_mgr st m1) ∧
          evs = pre ++ [(c_Add cleanup_, Add w m1 cleanup_)] ∧
          match Add w m1 cleanup_ with
          | None => st' = with_mgr st1 (with_runnable m1 cleanup_)
          | Some err => st' = with_log st1 (cleanup_failed err) ∧
                        mgr (op st') = Some m1
          end))
  end.
Proof.
  intros Hm. rewrite run_bind, (run_schedule_dsc _ _ _ _ _ _ Hm).
  destruct (String.eqb platform (ManagedRhoai (cluster w))).
  - destruct (Add w m dsc) as [err|] eqn:Hdsc.
    + split; [done|]. left. by exists err.
    + rewrite run_bind.
      rewrite (run_schedule_cleanup w ctx setupClient
                 (with_mgr st (with_runnable m dsc)) (with_runnable m dsc) eq_refl).
      destruct (Add w (with_runnable m dsc) cleanup_) as [err|] eqn:Hcl; simpl.
      * split; [done|]. right. split; [done|].
        exists [(c_Add dsc, None)], (with_runnable m dsc),
          (with_mgr st (with_runnable m dsc)).
        split; [by right|]. rewrite Hcl. by repeat split.
      * split; [done|]. right. split; [done|].
        exists [(c_Add dsc, None)], (with_runnable m dsc),
          (with_mgr st (with_runnable m dsc)).
        split; [by right|]. rewrite Hcl. by repeat split.
  - rewrite run_bind, (run_schedule_cleanup w ctx setupClient st m Hm).
    destruct (Add w m cleanup_) as [err|] eqn:Hcl; simpl.
    + split; [done|]. right. split; [done|]. exists [], m, st.
      split; [by left|]. rewrite Hcl. by repeat split.
    + split; [done|]. right. split; [done|]. exists [], m, st.
      split; [by left|]. rewrite Hcl. by repeat split.
Qed.

End StartupTasksFacts.

(** What the DSC and cleanup parts leave behind: a manager whose runnables
    are the earlier ones followed by some of the DSC and cleanup tasks, and
    calls that are registrations of those two tasks only. *)
Lemma dsc_cleanup_summary (w : World) (ctx : Context) (setupClient : Client)
    (platform : Platform) (st : St) (m : Manager) :
  mgr (op st) = Some m →
  match (schedule_dsc w ctx setupClient platform ;;
         schedule_cleanup w ctx setupClient ;; mret tt) st with
  | (r, st', evs) =>
      (∀ err, r = Raise err → ∃ e, err = wrapError "error scheduling DSC creation: " e) ∧
      (∀ c, r ≠ Crash c) ∧
      (∀ e, e ∈ logs st → e ∈ logs st') ∧
      (∀ c, c ∈ map fst evs →
         c = c_Add (dsc_task w (logf_FromContext ctx) setupClient) ∨
         c = c_Add (cleanup_task w (logf_FromContext ctx) setupClient)) ∧
      ∃ m' added,
        mgr (op st') = Some m' ∧ mgr_runnables m' = mgr_runnables m ++ map Task added ∧
        ∀ r', r' ∈ added →
          r' = dsc_task w (logf_FromContext ctx) setupClient ∨
          r' = cleanup_task w (logf_FromContext ctx) setupClient
  end.
Proof.
  intros Hm. pose proof (run_dsc_cleanup w ctx setupClient platform st m Hm) as H.
  destruct ((schedule_dsc w ctx setupClient platform ;;
             schedule_cleanup w ctx setupClient ;; mret tt) st) as [[r st'] evs].
  destruct H as [_ [(err & -> & -> & ->)|(-> & pre & m1 & st1 & Hpre & -> & Hcl)]].
  - split; [intros ? [= <-]; by eexists|]. split; [done|]. split; [done|].
    split; [set_solver|]. exists m, []. rewrite app_nil_r. set_solver.
  - split; [done|]. split; [done|].
    destruct Hpre as [(-> & -> & ->)|(-> & -> & ->)];
      destruct (Add w _ _) as [err|]; destruct_and?; subst st'; simpl.
    + split; [set_solver|]. split; [set_solver|].
      exists m, []. rewrite app_nil_r. split; [done|]. split; [done|]. set_solver.
    + split; [done|]. split; [set_solver|].
      exists (with_runnable m (cleanup_task w (logf_FromContext ctx) setupClient)),
        [cleanup_task w (logf_FromContext ctx) setupClient].
      split; [done|]. split; [done|]. set_solver.
    + split; [set_solver|]. split; [set_solver|].
      exists (with_runnable m (dsc_task w (logf_FromContext ctx) setupClient)),
        [dsc_task w (logf_FromContext ctx) setupClient].
      split; [done|]. split; [done|]. set_solver.
    + split; [done|]. split; [set_solver|].
      exists (with_runnable
                (with_runnable m (dsc_task w (logf_FromContext ctx) setupClient))
                (cleanup_task w (logf_FromContext ctx) setupClient)),
        [dsc_task w (logf_FromContext ctx) setupClient;
         cleanup_task w (logf_FromContext ctx) setupClient].
      split; [done|]. split; [simpl; by rewrite <- (assoc_L (++))|]. set_solver.
Qed.

(** C1, as stated, fails: with [DISABLE_DSC_CONFIG] set to the empty string
    the startup-task phase succeeds, logs that DSCI creation is disabled and
    hands only the cleanup task to the manager. *)
Lemma C1_counterexample :
  os_Environ empty_toggle_world !! "DISABLE_DSC_CONFIG" = Some "" ∧
  addStartupTasks empty_toggle_world main_ctx sample_client "Open Data Hub" ready_st =
    (Return tt,
     with_mgr
       (with_log ready_st (Logger_Info setupLog "DSCI auto creation is disabled" []))
       (with_runnable sample_manager
          (cleanup_task empty_toggle_world setupLog sample_client)),
     [(c_Add (cleanup_task empty_toggle_world setupLog sample_client), None)]) ∧
  Task (dsci_task empty_toggle_world setupLog sample_client "Open Data Hub")
  ∉ mgr_runnables (with_runnable sample_manager
                     (cleanup_task empty_toggle_world setupLog sample_client)).
Proof.
  split; [reflexivity|]. split; [reflexivity|].
  simpl. intros Hin. apply list_elem_of_singleton in Hin.
  apply (dsci_task_not_cleanup empty_toggle_world setupLog sample_client
           "Open Data Hub" setupLog sample_client). congruence.
Qed.

(** C1 (amended): from a state with a manager, when [DISABLE_DSC_CONFIG] is
    absent or is exactly ["false"], the first call of the startup-task phase
    hands the default-DSCI task to the manager; if the manager accepts it the
    task is among its runnables afterwards, and if not the phase returns that
    error wrapped.  When the variable is present with any other value (the
    empty string included), the phase never hands that task to the manager,
    the manager gains no such runnable, and the phase logs that DSCI creation
    is disabled. *)
Theorem C1_dsci_task_gate (w : World) (ctx : Context) (setupClient : Client)
    (platform : Platform) (st : St) (m : Manager) :
  mgr (op st) = Some m →
  let toggle := os_Environ w !! "DISABLE_DSC_CONFIG" in
  let task := dsci_task w (logf_FromContext ctx) setupClient platform in
  match addStartupTasks w ctx setupClient platform st with
  | (r, st', evs) =>
      ∃ m', mgr (op st') = Some m' ∧
      (toggle = None ∨ toggle = Some "false" →
         ∃ evs', evs = (c_Add task, Add w m task) :: evs' ∧
           (Add w m task = None → Task task ∈ mgr_runnables m') ∧
           (∀ err, Add w m task = Some err →
              r = Raise (wrapError "error scheduling DSCI creation: " err))) ∧
      (∀ v, toggle = Some v → v ≠ "false" →
         (c_Add task ∉ map fst evs) ∧
         (Task task ∈ mgr_runnables m' → Task task ∈ mgr_runnables m) ∧
         Logger_Info (logf_FromContext ctx) "DSCI auto creation is disabled" [] ∈ logs st')
  end.
Proof.
  intros Hm toggle task.
  rewrite addStartupTasks_parts, run_bind, (run_schedule_dsci _ _ _ _ _ _ Hm).
  fold task.
  assert (Hgate : dsci_enabled w = true ∧ (toggle = None ∨ toggle = Some "false") ∨
                  dsci_enabled w = false ∧ ∃ v, toggle = Some v ∧ v ≠ "false").
  { unfold dsci_enabled. fold toggle. destruct toggle as [v|]; [|by left; split; [|left]].
    destruct (String.eqb_spec v "false") as [->|Hne].
    - left. split; [done|by right]. - right. split; [done|by exists v]. }
  clearbody toggle.
  destruct Hgate as [[-> Hon]|[-> (v & Hv & Hne)]].
  - destruct (Add w m task) as [err|] eqn:Hadd.
    + exists m. split; [done|]. split.
      * intros _. exists []. split; [done|]. split; [done|]. by intros ? [= <-].
      * intros v' Hv' Hne'. exfalso. destruct Hon as [Hon|Hon]; by simplify_eq.
    + pose proof (dsc_cleanup_summary w ctx setupClient platform
                    (with_mgr st (with_runnable m task)) (with_runnable m task) eq_refl) as H.
      cbv beta.
      destruct ((schedule_dsc w ctx setupClient platform ;;
                 schedule_cleanup w ctx setupClient ;; mret tt)
                  (with_mgr st (with_runnable m task))) as [[r st'] evs].
      destruct H as (_ & _ & _ & _ & m' & added & Hm' & Hrun & _).
      exists m'. split; [done|]. split.
      * intros _. exists evs. split; [done|]. split; [|done].
        intros _. rewrite Hrun. simpl. set_solver.
      * intros v' Hv' Hne'. exfalso. destruct Hon as [Hon|Hon]; by simplify_eq.
  - pose proof (dsc_cleanup_summary w ctx setupClient platform
        (with_log st (Logger_Info (logf_FromContext ctx) "DSCI auto creation is disabled" []))
        m Hm) as H.
    cbv beta.
    destruct ((schedule_dsc w ctx setupClient platform ;;
               schedule_cleanup w ctx setupClient ;; mret tt)
                (with_log st (Logger_Info (logf_FromContext ctx)
                                "DSCI auto creation is disabled" [])))
      as [[r st'] evs].
    destruct H as (_ & _ & Hlogs & Hcalls & m' & added & Hm' & Hrun & Hadded).
    exists m'. split; [done|]. split.
    + intros [Hoff|Hoff]; by simplify_eq.
    + intros _ _ _. simpl. split; [|split].
      * intros Hin. apply Hcalls in Hin as [Hin|Hin].
        -- apply (dsci_task_not_dsc w (logf_FromContext ctx) setupClient platform
                    (logf_FromContext ctx) setupClient). unfold task in Hin. congruence.
        -- apply (dsci_task_not_cleanup w (logf_FromContext ctx) setupClient platform
                    (logf_FromContext ctx) setupClient). unfold task in Hin. congruence.
      * rewrite Hrun. intros Hin. apply elem_of_app in Hin as [Hin|Hin]; [done|].
        exfalso. apply list_elem_of_fmap in Hin as (r' & [= <-] & Hin).
        apply Hadded in Hin as [Hin|Hin].
        -- by apply dsci_task_not_dsc in Hin.
        -- by apply dsci_task_not_cleanup in Hin.
      * apply Hlogs. simpl. set_solver.
Qed.

Lemma C1_dsci_task_gate_witness :
  os_Environ false_toggle_world !! "DISABLE_DSC_CONFIG" = Some "false" ∧
  mgr (op ready_st) = Some sample_manager ∧
  ∃ evs',
    (addStartupTasks false_toggle_world main_ctx sample_client "Open Data Hub"
       ready_st).2 =
    (c_Add (dsci_task false_toggle_world setupLog sample_client "Open Data Hub"),
     None) :: evs'.
Proof.
  split; [reflexivity|]. split; [reflexivity|].
  pose proof (C1_dsci_task_gate false_toggle_world main_ctx sample_client
                "Open Data Hub" ready_st sample_manager eq_refl) as H.
  destruct (addStartupTasks false_toggle_world main_ctx sample_client
              "Open Data Hub" ready_st) as [[r st'] evs].
  destruct H as (m' & _ & Hon & _).
  destruct (Hon (or_intror eq_refl)) as (evs' & Hevs & _).
  exists evs'. exact Hevs.
Defined.

(** C6, as stated, fails in its first half: when the manager refuses the
    default-DSCI task, [Setup] has reached the startup-task phase (the DSCI
    registration is its last call) and returns that error; the cleanup task
    is never handed to the manager. *)
Lemma C6_counterexample :
  match Setup stopped_manager_world main_ctx (main_st sample_cfg) with
  | (r, st', evs) =>
      r = Raise (wrapError "error scheduling DSCI creation: "
                   (errorString "manager is stopped")) ∧
      last evs = Some (c_Add (dsci_task stopped_manager_world setupLog sample_client
                                "Open Data Hub"),
                       Some (errorString "manager is stopped")) ∧
      (c_Add (cleanup_task stopped_manager_world setupLog sample_client)
       ∉ map fst evs) ∧
      (∀ m', mgr (op st') = Some m' → mgr_runnables m' = [])
  end.
Proof.
  set (run := Setup _ _ _). vm_compute in run. subst run. cbv beta iota.
  split; [reflexivity|]. split; [reflexivity|]. split.
  - intros Hin. simpl in Hin.
    repeat (apply elem_of_cons in Hin as [Hin|Hin]; [try discriminate Hin|]).
    + apply (f_equal (λ c, match c with
                           | c_Add r => log_msg <$> head (Fn r main_ctx sample_cfg).1
                           | _ => None
                           end)) in Hin.
      vm_compute in Hin. discriminate Hin.
    + by apply elem_of_nil in Hin.
  - by intros m' [= <-].
Qed.

(** C6 (amended): from a state with a manager, on every platform and in
    every environment, the startup-task phase either returns the wrapped
    error of a failed DSCI or DSC registration, in which case the cleanup task
    was not handed to the manager, or returns nil; in the latter case its last
    call hands the cleanup task to the manager, every earlier call succeeded,
    and the task is among the manager's runnables if the manager accepted it,
    while a refusal is written to the log.  When [Setup] returns an error, the
    call that failed is never the cleanup registration. *)
Theorem C6_cleanup_best_effort (w : World) (ctx : Context) (setupClient : Client)
    (platform : Platform) (st : St) (m : Manager) :
  mgr (op st) = Some m →
  let task := cleanup_task w (logf_FromContext ctx) setupClient in
  match addStartupTasks w ctx setupClient platform st with
  | (r, st', evs) =>
      ((∃ err, r = Raise (wrapError "error scheduling DSCI creation: " err) ∨
               r = Raise (wrapError "error scheduling DSC creation: " err)) ∧
       (c_Add task ∉ map fst evs)) ∨
      (r = Return tt ∧
       ∃ pre ans m',
         evs = pre ++ [(c_Add task, ans)] ∧ Forall (λ ev, ev.2 = None) pre ∧
         mgr (op st') = Some m' ∧
         (ans = None → Task task ∈ mgr_runnables m') ∧
         (∀ err, ans = Some err →
            Logger_Error (logf_FromContext ctx) err
              "error remove deprecated resources from previous version"
            ∈ logs st'))
  end ∧
  (∀ st0, match Setup w ctx st0 with
          | (Raise err, _, evs) =>
              ∃ pre c cause, evs = pre ++ [(c, Some cause)] ∧
                ∀ setupLog' setupClient', c ≠ c_Add (cleanup_task w setupLog' setupClient')
          | _ => True
          end).
Proof.
  intros Hm task. split.
  - rewrite addStartupTasks_parts, run_bind, (run_schedule_dsci _ _ _ _ _ _ Hm).
    set (dsci := dsci_task w (logf_FromContext ctx) setupClient platform).
    set (dsc := dsc_task w (logf_FromContext ctx) setupClient).
    assert (Hdsci : c_Add task ≠ c_Add dsci).
    { intros Heq. apply (dsci_task_not_cleanup w (logf_FromContext ctx) setupClient
        platform (logf_FromContext ctx) setupClient).
      unfold task, dsci in Heq. congruence. }
    assert (Hdsc : c_Add task ≠ c_Add dsc).
    { intros Heq. apply (dsc_task_not_cleanup w (logf_FromContext ctx) setupClient
        (logf_FromContext ctx) setupClient).
      unfold task, dsc in Heq. congruence. }
    destruct (dsci_enabled w).
    + destruct (Add w m dsci) as [err|] eqn:Hadd.
      * left. split; [exists err; by left|]. simpl. set_solver.
      * pose proof (run_dsc_cleanup w ctx setupClient platform
                      (with_mgr st (with_runnable m dsci)) (with_runnable m dsci) eq_refl) as H.
        cbv beta.
        destruct ((schedule_dsc w ctx setupClient platform ;;
                   schedule_cleanup w ctx setupClient ;; mret tt)
                    (with_mgr st (with_runnable m dsci))) as [[r st'] evs].
        destruct H as [_ [(err & -> & -> & ->)|(-> & pre & m1 & st1 & Hpre & -> & Hcl)]].
        -- left. split; [exists err; by right|]. fold dsc. simpl. set_solver.
        -- right. split; [done|]. fold task in Hcl |- *. fold dsc in Hpre.
           exists ((c_Add dsci, None) :: pre), (Add w m1 task).
           destruct (Add w m1 task) as [err|].
           ++ destruct Hcl as [-> Hm1]. exists m1. split; [done|].
              split; [destruct Hpre as [(-> & _)|(-> & _)]; repeat constructor|].
              split; [done|]. split; [done|]. intros ? [= <-]. simpl. set_solver.
           ++ subst st'. exists (with_runnable m1 task). split; [done|].
              split; [destruct Hpre as [(-> & _)|(-> & _)]; repeat constructor|].
              split; [done|]. split; [intros _; simpl; set_solver|done].
    + pose proof (run_dsc_cleanup w ctx setupClient platform
          (with_log st (Logger_Info (logf_FromContext ctx) "DSCI auto creation is disabled" []))
          m Hm) as H.
      cbv beta.
      destruct ((schedule_dsc w ctx setupClient platform ;;
                 schedule_cleanup w ctx setupClient ;; mret tt)
                  (with_log st (Logger_Info (logf_FromContext ctx)
                                  "DSCI auto creation is disabled" [])))
        as [[r st'] evs].
      destruct H as [_ [(err & -> & -> & ->)|(-> & pre & m1 & st1 & Hpre & -> & Hcl)]].
      * left. split; [exists err; by right|]. fold dsc. simpl. set_solver.
      * right. split; [done|]. fold task in Hcl |- *. fold dsc in Hpre.
        exists pre, (Add w m1 task).
        destruct (Add w m1 task) as [err|].
        -- destruct Hcl as [-> Hm1]. exists m1. split; [done|].
           split; [destruct Hpre as [(-> & _)|(-> & _)]; repeat constructor|].
           split; [done|]. split; [done|]. intros ? [= <-]. simpl. set_solver.
        -- subst st'. exists (with_runnable m1 task). split; [done|].
           split; [destruct Hpre as [(-> & _)|(-> & _)]; repeat constructor|].
           split; [done|]. split; [intros _; simpl; set_solver|done].
  - intros st0.
    pose proof (follows_Setup w ctx (op st0) st0 (conj eq_refl eq_refl)) as H.
    destruct (Setup w ctx st0) as [[[a|err|c] st'] evs]; [done| |done].
    destruct H as (pre & c & cause & Hevs & _ & Hfatal & _).
    exists pre, c, cause. split; [done|].
    intros l cl ->. apply Hfatal. by exists l, cl.
Qed.

(** ** [Setup] up to manager construction *)

Section BeforeManager.
Variable w : World.
Variable ctx : Context.

Lemma quiet_bind {A B} P (m : M A) (k : A → M B) :
  quiet P m → (∀ a, quiet P (k a)) → quiet P (m ≫= k).
Proof.
  intros Hm Hk st. rewrite run_bind. specialize (Hm st).
  destruct (m st) as [[[a|err|c] st1] evs1].
  2: { destruct Hm as (-> & _ & Hevs1). by repeat split. }
  2: { destruct Hm as (_ & Hc & _). by destruct (Hc c). }
  destruct Hm as (-> & _ & Hevs1). specialize (Hk a st).
  destruct (k a st) as [[r st2] evs2]. destruct Hk as (-> & Hr & Hevs2).
  split; [done|]. split; [done|]. by apply Forall_app.
Qed.

Lemma quiet_call (P : Call → Prop) c r : P c → quiet P (call c r).
Proof.
  intros Hc st. unfold call. split; [done|]. split; [by destruct r|].
  by repeat constructor.
Qed.

Lemma quiet_wrap {A} P msg (m : M A) : quiet P m → quiet P (wrap msg m).
Proof.
  intros Hm st. unfold wrap. specialize (Hm st).
  destruct (m st) as [[[a|err|c] st1] evs1]; destruct Hm as (-> & Hc & Hevs);
    (split; [done|]; split; [|done]); intros c'; try done.
Qed.

Lemma quiet_ForEach {H} P (GetName : H → string) (fn : H → M unit)
    (handlers : list H) :
  (∀ h, quiet P (fn h)) → quiet P (ForEach GetName handlers fn).
Proof.
  intros Hfn. induction handlers as [|h handlers IH]; simpl.
  - intros st. by repeat split.
  - apply quiet_bind; [by apply quiet_wrap|by intros _].
Qed.

Lemma quiet_initServices p : quiet before_cache (initServices w ctx p).
Proof. apply quiet_ForEach. intros sh. apply quiet_call. by right. Qed.

Lemma quiet_initComponents p : quiet before_cache (initComponents w ctx p).
Proof. apply quiet_ForEach. intros ch. apply quiet_call. by right. Qed.

(** The first two steps of [Setup], for an operator value [o]. *)
Lemma quiet_probe_and_init (o : mainOperator) :
  quiet before_cache
    (wrap "error getting client for setup: "
       (call c_client_New (client_New w (RestConfig (config o)) (scheme o))) ;;
     wrap "unable to initialize cluster config: "
       (call c_cluster_Init (cluster_Init w ctx (setupClient_of o))) ;;
     wrap "unable to init services: " (initServices w ctx (GetRelease_Name w)) ;;
     wrap "unable to init components: " (initComponents w ctx (GetRelease_Name w))).
Proof.
  apply quiet_bind; [apply quiet_wrap, quiet_call; by left|]. intros _.
  apply quiet_bind; [apply quiet_wrap, quiet_call; by left|]. intros _.
  apply quiet_bind; [apply quiet_wrap, quiet_initServices|]. intros _.
  apply quiet_wrap, quiet_initComponents.
Qed.

Lemma regroup4 {B} (m1 m2 m3 m4 : M unit) (k : unit → M B) (st : St) :
  (m1 ;; m2 ;; m3 ;; m4 ≫= k) st = ((m1 ;; m2 ;; m3 ;; m4) ≫= k) st.
Proof.
  rewrite !run_bind. destruct (m1 st) as [[[[]|err|c] st1] evs1]; [|done|done].
  rewrite !run_bind. destruct (m2 st1) as [[[[]|err|c] st2] evs2]; [|done|done].
  rewrite !run_bind. destruct (m3 st2) as [[[[]|err|c] st3] evs3]; [|done|done].
  rewrite !run_bind. destruct (m4 st3) as [[[[]|err|c] st4] evs4]; [|done|done].
  destruct (k () st4) as [[r st5] evs5]. by rewrite !app_assoc.
Qed.

Lemma run_wrap_call msg c (r : option error) (st : St) :
  wrap msg (call c r) st =
  match r with
  | None => (Return tt, st, [(c, None)])
  | Some err => (Raise (wrapError msg err), st, [(c, Some err)])
  end.
Proof. unfold wrap, call. by destruct r. Qed.

Lemma run_wrap_call_r {A} msg c (r : result A) (st : St) :
  wrap msg (call_r c r) st =
  match r with
  | Ok a => (Return a, st, [(c, None)])
  | Err err => (Raise (wrapError msg err), st, [(c, Some err)])
  end.
Proof. unfold wrap, call_r. by destruct r. Qed.

Lemma before_cache_not_manager (evs : list Event) :
  Forall (λ ev : Event, before_cache ev.1) evs → (c_NewManager, None) ∉ evs.
Proof.
  intros Hevs Hin. rewrite Forall_forall in Hevs.
  by destruct (Hevs _ Hin) as [?|?].
Qed.

Lemma added_runnables_app evs1 evs2 :
  added_runnables (evs1 ++ evs2) = added_runnables evs1 ++ added_runnables evs2.
Proof. apply flat_map_app. Qed.

Lemma added_healthz_app evs1 evs2 :
  added_healthz (evs1 ++ evs2) = added_healthz evs1 ++ added_healthz evs2.
Proof. apply flat_map_app. Qed.

Lemma added_readyz_app evs1 evs2 :
  added_readyz (evs1 ++ evs2) = added_readyz evs1 ++ added_readyz evs2.
Proof. apply flat_map_app. Qed.

Lemma before_cache_nothing_added (evs : list Event) :
  Forall (λ ev : Event, before_cache ev.1) evs →
  added_runnables evs = [] ∧ added_healthz evs = [] ∧ added_readyz evs = [].
Proof.
  induction 1 as [|[c r] evs Hc _ IH]; [done|].
  destruct IH as (IH1 & IH2 & IH3).
  unfold added_runnables, added_healthz, added_readyz in *. simpl.
  rewrite IH1, IH2, IH3. by destruct Hc as [Hc|Hc], c.
Qed.

(** How far [Setup] gets.  It stops in the first two steps, or at the cache
    policy, or because the manager cannot be built -- each time leaving the
    operator untouched, and the log as well unless [GetConfigOrDie] ended
    the process -- or it assigns the fresh manager and runs the remaining
    statements. *)
Lemma Setup_runs (st : St) :
  match Setup w ctx st with
  | (r, st', evs) =>
      (st' = st ∧ (∃ err, r = Raise err) ∧
       Forall (λ ev : Event, before_cache ev.1) evs) ∨
      (st' = st ∧
       ∃ pre c err,
         evs = pre ++ [(c, Some err)] ∧
         Forall (λ ev : Event, before_cache ev.1 ∨ ev = (c_createSecretCacheConfig, None)) pre ∧
         r = Raise (wrapError "unable to get application namespace into cache: " err) ∧
         (c = c_createSecretCacheConfig ∧
          createSecretCacheConfig (cluster w) (GetRelease_Name w) = Err err ∨
          c = c_createODHGeneralCacheConfig ∧
          createODHGeneralCacheConfig (cluster w) (GetRelease_Name w) = Err err)) ∨
      (∃ secret general,
         createSecretCacheConfig (cluster w) (GetRelease_Name w) = Ok secret ∧
         createODHGeneralCacheConfig (cluster w) (GetRelease_Name w) = Ok general ∧
         ((∃ err pre, GetConfigOrDie w = Err err ∧ r = Crash (os_Exit 1) ∧
                      st' = with_log st (kubeconfig_failed err) ∧
                      evs = pre ++ [(c_GetConfigOrDie, Some err)] ∧
                      (c_NewManager, None) ∉ evs) ∨
          (∃ restConfig err,
             GetConfigOrDie w = Ok restConfig ∧ st' = st ∧
             r = Raise (wrapError "unable to start manager: " err) ∧
             (c_NewManager, None) ∉ evs) ∨
          (∃ restConfig pre post,
             GetConfigOrDie w = Ok restConfig ∧
             evs = pre ++ (c_NewManager, None) :: post ∧
             added_runnables pre = [] ∧ added_healthz pre = [] ∧
             added_readyz pre = [] ∧
             Setup_rest w ctx (op st)
               (with_mgr st (fresh_manager w (op st) secret general restConfig))
             = (r, st', post))))
  end.
Proof.
  unfold Setup. rewrite run_get_op.
  set (o := op st).
  change {| client_config := RestConfig (config o); client_scheme := scheme o |}
    with (setupClient_of o).
  rewrite regroup4, run_bind.
  pose proof (quiet_probe_and_init o st) as Hq.
  match type of Hq with
  | match ?run with _ => _ end => destruct run as [[[[]|err|c] st1] evs1]
  end; destruct Hq as (-> & Hc & Hevs1);
    [|left; split; [done|]; split; [by exists err|done]|by destruct (Hc c)].
  destruct (before_cache_nothing_added _ Hevs1) as (Ha1 & Ha2 & Ha3).
  rewrite run_bind, run_wrap_call_r.
  destruct (createSecretCacheConfig (cluster w) (GetRelease_Name w))
    as [secret|err] eqn:Hsecret.
  2: { right; left. split; [done|]. exists evs1, c_createSecretCacheConfig, err.
       split; [done|]. split; [|split; [done|by left]].
       eapply Forall_impl; [exact Hevs1|]. intros ev ?. by left. }
  rewrite run_bind, run_wrap_call_r.
  destruct (createODHGeneralCacheConfig (cluster w) (GetRelease_Name w))
    as [general|err] eqn:Hgeneral.
  2: { right; left. split; [done|].
       exists (evs1 ++ [(c_createSecretCacheConfig, None)]),
         c_createODHGeneralCacheConfig, err.
       split; [by rewrite <- app_assoc|]. split; [|split; [done|by right]].
       apply Forall_app. split; [|repeat constructor; by right].
       eapply Forall_impl; [exact Hevs1|]. intros ev ?. by left. }
  apply before_cache_not_manager in Hevs1.
  rewrite run_bind. unfold ctrl_GetConfigOrDie.
  destruct (GetConfigOrDie w) as [restConfig|err].
  2: { right; right. exists secret, general. split; [done|]. split; [done|].
       left. exists err, (evs1 ++ [(c_createSecretCacheConfig, None);
                                   (c_createODHGeneralCacheConfig, None)]).
       do 3 (split; [done|]). split; [by rewrite <- !app_assoc|]. simpl. set_solver. }
  rewrite run_bind, run_wrap_call.
  destruct (NewManager w restConfig _) as [err|].
  { right; right. exists secret, general. split; [done|]. split; [done|].
    right; left. exists restConfig, err. do 3 (split; [done|]). simpl. set_solver. }
  rewrite run_bind. unfold set_mgr at 1.
  match goal with
  | |- context [@mbind M _ _ _ ?k ?m ?s] =>
      change (@mbind M _ _ _ k m s) with (Setup_rest w ctx o s);
      destruct (Setup_rest w ctx o s) as [[r st'] post] eqn:Hrest
  end.
  right; right. exists secret, general. split; [done|]. split; [done|].
  right; right. exists restConfig,
    (evs1 ++ [(c_createSecretCacheConfig, None);
              (c_createODHGeneralCacheConfig, None); (c_GetConfigOrDie, None)]),
    post.
  split; [done|]. split; [by rewrite <- !app_assoc|].
  rewrite added_runnables_app, added_healthz_app, added_readyz_app, Ha1, Ha2, Ha3.
  do 3 (split; [done|]). exact Hrest.
Qed.

End BeforeManager.

Lemma C6_cleanup_best_effort_witness :
  mgr (op ready_st) = Some sample_manager ∧
  ∃ pre err,
    (addStartupTasks cleanup_refused_world main_ctx sample_client "Open Data Hub"
       ready_st).2 =
    pre ++ [(c_Add (cleanup_task cleanup_refused_world setupLog sample_client),
             Some err)].
Proof.
  split; [reflexivity|].
  pose proof (C6_cleanup_best_effort cleanup_refused_world main_ctx sample_client
                "Open Data Hub" ready_st sample_manager eq_refl) as [H _].
  destruct (addStartupTasks cleanup_refused_world main_ctx sample_client
              "Open Data Hub" ready_st) as [[r st'] evs] eqn:Hrun.
  vm_compute in Hrun. injection Hrun as <- <- <-.
  destruct H as [[_ Hnot]|(_ & pre & ans & m' & Hevs & _)].
  - exfalso. apply Hnot. simpl. set_solver.
  - exists pre. destruct ans as [err|].
    + exists err. exact Hevs.
    + exfalso. apply (app_inj_tail [_] pre) in Hevs as [_ Heq]. discriminate Heq.
Defined.

(** C7, as stated, fails in its first half: the application namespace
    lookup returns a bare string, so when it comes back empty the builder
    still succeeds, with the empty string as a namespace, and [Setup] runs to
    the end. *)
Lemma C7_counterexample :
  GetApplicationNamespace (cluster no_app_world) = "" ∧
  (∃ m, getCommonCache (cluster no_app_world) "Open Data Hub" = Ok m ∧
        "" ∈ namespaces m) ∧
  (Setup no_app_world main_ctx (main_st sample_cfg)).1.1 = Return tt.
Proof.
  split; [reflexivity|]. split.
  - destruct (getCommonCache_Ok no_app_cluster "Open Data Hub" _ eq_refl)
      as (m & Hm & Hdom).
    exists m. split; [exact Hm|]. rewrite Hdom. unfold base_set. simpl. set_solver.
  - vm_compute. reflexivity.
Qed.

(** C7 (amended): if the operator namespace cannot be resolved, the three
    builders return that error, and [Setup] does not return nil, leaves the
    operator untouched, never constructs the manager, and once it has reached
    the cache policy returns that error under the cache-policy message.  The
    application namespace lookup cannot fail: whenever the operator namespace
    resolves, the builders succeed and the sets contain whatever string the
    lookup returned.  A set computed by a builder is never empty. *)
Theorem C7_cache_policy_failure (w : World) (ctx : Context) (st : St)
    (platform : Platform) :
  (∀ err, GetOperatorNamespace (cluster w) = Err err →
     getCommonCache (cluster w) platform = Err err ∧
     createSecretCacheConfig (cluster w) platform = Err err ∧
     createODHGeneralCacheConfig (cluster w) platform = Err err ∧
     match Setup w ctx st with
     | (r, st', evs) =>
         st' = st ∧ (∀ a, r ≠ Return a) ∧ (c_NewManager ∉ map fst evs) ∧
         (c_createSecretCacheConfig ∈ map fst evs →
          r = Raise (wrapError "unable to get application namespace into cache: " err))
     end) ∧
  (∀ operatorNs, GetOperatorNamespace (cluster w) = Ok operatorNs →
     ∃ common secret general,
       getCommonCache (cluster w) platform = Ok common ∧
       createSecretCacheConfig (cluster w) platform = Ok secret ∧
       createODHGeneralCacheConfig (cluster w) platform = Ok general ∧
       GetApplicationNamespace (cluster w) ∈ namespaces common ∧
       GetApplicationNamespace (cluster w) ∈ namespaces secret ∧
       GetApplicationNamespace (cluster w) ∈ namespaces general) ∧
  (∀ m, getCommonCache (cluster w) platform = Ok m ∨
        createSecretCacheConfig (cluster w) platform = Ok m ∨
        createODHGeneralCacheConfig (cluster w) platform = Ok m →
        namespaces m ≠ ∅).
Proof.
  split; [|split].
  - intros err Hns.
    split; [by apply getCommonCache_Err|].
    split; [by apply createSecretCacheConfig_Err|].
    split; [by apply createODHGeneralCacheConfig_Err|].
    pose proof (createSecretCacheConfig_Err (cluster w) (GetRelease_Name w) _ Hns) as Hs.
    pose proof (createODHGeneralCacheConfig_Err (cluster w) (GetRelease_Name w) _ Hns) as Hg.
    pose proof (Setup_runs w ctx st) as H.
    destruct (Setup w ctx st) as [[r st'] evs].
    destruct H as [(-> & [err' ->] & Hevs)|[(-> & pre & c & e & -> & Hpre & -> & Hc)
                                           |(secret & general & Hsecret & _)]].
    + split; [done|]. split; [done|]. rewrite Forall_forall in Hevs.
      split; intros Hin; apply list_elem_of_fmap in Hin as ([c r'] & Hc & Hin);
        simpl in Hc; subst c; by destruct (Hevs _ Hin) as [?|?].
    + assert (e = err) as -> by (destruct Hc as [[_ Hc]|[_ Hc]]; congruence).
      split; [done|]. split; [done|]. split; [|done].
      rewrite Forall_forall in Hpre.
      intros Hin. rewrite List.map_app in Hin. apply elem_of_app in Hin as [Hin|Hin].
      * apply list_elem_of_fmap in Hin as ([c' r'] & Hc' & Hin). simpl in Hc'. subst c'.
        destruct (Hpre _ Hin) as [[?|?]|?]; done.
      * simpl in Hin. apply list_elem_of_singleton in Hin.
        destruct Hc as [[-> _]|[-> _]]; done.
    + congruence.
  - intros operatorNs Hns.
    destruct (getCommonCache_Ok (cluster w) platform _ Hns) as (common & Hc & Hdc).
    destruct (createSecretCacheConfig_Ok (cluster w) platform _ Hns) as (secret & Hs & Hds).
    destruct (createODHGeneralCacheConfig_Ok (cluster w) platform _ Hns)
      as (general & Hg & Hdg).
    exists common, secret, general. rewrite Hdc, Hds, Hdg. unfold base_set.
    do 3 (split; [done|]). set_solver.
  - intros m Hm.
    destruct (GetOperatorNamespace (cluster w)) as [operatorNs|err] eqn:Hns.
    + destruct (getCommonCache_Ok (cluster w) platform _ Hns) as (common & Hc & Hdc).
      destruct (createSecretCacheConfig_Ok (cluster w) platform _ Hns)
        as (secret & Hs & Hds).
      destruct (createODHGeneralCacheConfig_Ok (cluster w) platform _ Hns)
        as (general & Hg & Hdg).
      assert (Hin : "redhat-ods-monitoring" ∈ namespaces m).
      { destruct Hm as [Hm|[Hm|Hm]];
          [rewrite Hc in Hm|rewrite Hs in Hm|rewrite Hg in Hm];
          injection Hm as <-; [rewrite Hdc|rewrite Hds|rewrite Hdg];
          unfold base_set; set_solver. }
      set_solver.
    + rewrite (getCommonCache_Err _ platform _ Hns),
        (createSecretCacheConfig_Err _ platform _ Hns),
        (createODHGeneralCacheConfig_Err _ platform _ Hns) in Hm.
      by destruct Hm as [?|[?|?]].
Qed.

Lemma C7_cache_policy_failure_witness :
  GetOperatorNamespace (cluster no_operator_ns_world) =
    Err (errorString "operator namespace not found") ∧
  createSecretCacheConfig (cluster no_operator_ns_world) "Open Data Hub" =
    Err (errorString "operator namespace not found") ∧
  (Setup no_operator_ns_world main_ctx (main_st sample_cfg)).1.2 = main_st sample_cfg.
Proof.
  split; [reflexivity|].
  destruct (C7_cache_policy_failure no_operator_ns_world main_ctx (main_st sample_cfg)
              "Open Data Hub") as [H _].
  destruct (H _ eq_refl) as (_ & Hsecret & _ & HSetup).
  split; [exact Hsecret|].
  destruct (Setup no_operator_ns_world main_ctx (main_st sample_cfg)) as [[r st'] evs].
  by destruct HSetup as [-> _].
Defined.

(** ** What the calls register on the manager *)

Section Grows.
Variable w : World.

Lemma grows_ret {A} (a : A) : grows (mret a).
Proof.
  intros st mg Hmg. split; [done|]. split; [done|]. split; [done|].
  exists mg. by rewrite !app_nil_r.
Qed.

Lemma grows_bind {A B} (m : M A) (k : A → M B) :
  grows m → (∀ a, grows (k a)) → grows (m ≫= k).
Proof.
  intros Hm Hk st mg Hmg. rewrite run_bind. specialize (Hm st mg Hmg).
  destruct (m st) as [[[a|err|c] st1] evs1].
  - destruct Hm as (_ & Hc1 & Hs1 & mg1 & Hmg1 & Hcfg1 & Hopt1 & Hr1 & Hh1 & Hy1).
    specialize (Hk a st1 mg1 Hmg1).
    destruct (k a st1) as [[r st2] evs2].
    destruct Hk as (Hcr & Hc2 & Hs2 & mg2 & Hmg2 & Hcfg2 & Hopt2 & Hr2 & Hh2 & Hy2).
    split; [done|]. split; [congruence|]. split; [congruence|].
    exists mg2. split; [done|]. split; [congruence|]. split; [congruence|].
    rewrite added_runnables_app, added_healthz_app, added_readyz_app, List.map_app,
      !app_assoc.
    rewrite Hr2, Hh2, Hy2, Hr1, Hh1, Hy1. done.
  - destruct Hm as (_ & Hc1 & Hs1 & mg1 & H1). split; [done|].
    split; [done|]. split; [done|]. by exists mg1.
  - destruct Hm as (Hc & _). by destruct (Hc c).
Qed.

Lemma grows_wrap {A} msg (m : M A) : grows m → grows (wrap msg m).
Proof.
  intros Hm st mg Hmg. unfold wrap. specialize (Hm st mg Hmg).
  destruct (m st) as [[[a|err|c] st1] evs1]; [done| |done].
  destruct Hm as (_ & H). by split.
Qed.

Lemma grows_log e : grows (log e).
Proof.
  intros st mg Hmg. split; [done|]. split; [done|]. split; [done|].
  exists mg. by rewrite !app_nil_r.
Qed.

Lemma grows_mgr_Add r : grows (mgr_Add w r).
Proof.
  intros st mg Hmg. rewrite (run_mgr_Add w r st mg Hmg).
  destruct (Add w mg r) as [err|].
  - split; [done|]. split; [done|]. split; [done|].
    exists mg. by rewrite !app_nil_r.
  - split; [done|]. split; [done|]. split; [done|].
    exists (with_runnable mg r). simpl. by rewrite !app_nil_r.
Qed.

Lemma grows_mgr_AddHealthzCheck name : grows (mgr_AddHealthzCheck w name).
Proof.
  intros st mg Hmg. unfold mgr_AddHealthzCheck. rewrite run_bind.
  unfold get_mgr. rewrite Hmg. rewrite run_bind. unfold call.
  destruct (AddHealthzCheck w mg name) as [err|]; simpl.
  - split; [done|]. split; [done|]. split; [done|].
    exists mg. by rewrite !app_nil_r.
  - split; [done|]. split; [done|]. split; [done|].
    exists (with_healthz mg name). simpl. by rewrite !app_nil_r.
Qed.

Lemma grows_mgr_AddReadyzCheck name : grows (mgr_AddReadyzCheck w name).
Proof.
  intros st mg Hmg. unfold mgr_AddReadyzCheck. rewrite run_bind.
  unfold get_mgr. rewrite Hmg. rewrite run_bind. unfold call.
  destruct (AddReadyzCheck w mg name) as [err|]; simpl.
  - split; [done|]. split; [done|]. split; [done|].
    exists mg. by rewrite !app_nil_r.
  - split; [done|]. split; [done|]. split; [done|].
    exists (with_readyz mg name). simpl. by rewrite !app_nil_r.
Qed.

Lemma grows_schedule_cleanup ctx setupClient :
  grows (schedule_cleanup w ctx setupClient).
Proof.
  intros st mg Hmg. rewrite (run_schedule_cleanup w ctx setupClient st mg Hmg).
  destruct (Add w mg _) as [err|].
  - split; [done|]. split; [done|]. split; [done|].
    exists mg. by rewrite !app_nil_r.
  - split; [done|]. split; [done|]. split; [done|].
    exists (with_runnable mg (cleanup_task w (logf_FromContext ctx) setupClient)).
    simpl. by rewrite !app_nil_r.
Qed.

Lemma grows_schedule_dsci ctx setupClient platform :
  grows (schedule_dsci w ctx setupClient platform).
Proof.
  unfold schedule_dsci. destruct (dsci_enabled w).
  - apply grows_wrap, grows_mgr_Add.
  - apply grows_log.
Qed.

Lemma grows_schedule_dsc ctx setupClient platform :
  grows (schedule_dsc w ctx setupClient platform).
Proof.
  unfold schedule_dsc. destruct (String.eqb platform (ManagedRhoai (cluster w))).
  - apply grows_wrap, grows_mgr_Add.
  - apply grows_ret.
Qed.

Lemma grows_addStartupTasks ctx setupClient platform :
  grows (addStartupTasks w ctx setupClient platform).
Proof.
  intros st mg Hmg. rewrite addStartupTasks_parts.
  apply (grows_bind _ _ (grows_schedule_dsci ctx setupClient platform)); [|done].
  intros _. apply grows_bind; [apply grows_schedule_dsc|].
  intros _. apply grows_bind; [apply grows_schedule_cleanup|].
  intros _. apply grows_ret.
Qed.

Lemma grows_Setup_tail ctx o : grows (Setup_tail w ctx o).
Proof.
  unfold Setup_tail.
  apply grows_bind; [apply grows_addStartupTasks|]. intros _.
  apply grows_bind; [apply grows_wrap, grows_mgr_AddHealthzCheck|]. intros _.
  apply grows_bind; [apply grows_wrap, grows_mgr_AddReadyzCheck|]. intros _.
  apply grows_ret.
Qed.

End Grows.

Lemma added_runnables_sublist (evs : list Event)
    (tasks : list leaderElectionRunnableWrapper) :
  map fst evs `prefix_of` map c_Add tasks →
  added_runnables evs `sublist_of` tasks ∧
  added_healthz evs = [] ∧ added_readyz evs = [].
Proof.
  revert tasks. induction evs as [|[c r] evs IH]; intros tasks Hpfx.
  - split; [apply sublist_nil_l|done].
  - destruct tasks as [|t tasks]; simpl in Hpfx.
    { by apply prefix_nil_not in Hpfx. }
    apply prefix_cons_inv_1 in Hpfx as Hc. apply prefix_cons_inv_2 in Hpfx.
    simpl in Hc. subst c. destruct (IH tasks Hpfx) as (Hsub & Hh & Hy).
    unfold added_runnables, added_healthz, added_readyz in *. simpl.
    rewrite Hh, Hy. split; [|done].
    destruct r; simpl; by constructor.
Qed.

Lemma added_runnables_elem (evs : list Event) (r : leaderElectionRunnableWrapper) :
  (c_Add r, None) ∈ evs → r ∈ added_runnables evs.
Proof.
  intros Hin. apply list_elem_of_In. apply in_flat_map.
  exists (c_Add r, None). split; [by apply list_elem_of_In|]. by left.
Qed.

Lemma startup_tasks_length (w : World) (ctx : Context)
    (setupClient : Client) (platform : Platform) :
  (1 ≤ length (startup_tasks w ctx setupClient platform) ≤ 3)%nat.
Proof.
  unfold startup_tasks.
  destruct (dsci_enabled w), (String.eqb platform (ManagedRhoai (cluster w)));
    simpl; lia.
Qed.

Lemma Task_elem (r : leaderElectionRunnableWrapper)
    (l : list leaderElectionRunnableWrapper) :
  Task r ∈ map Task l ↔ r ∈ l.
Proof.
  split.
  - intros Hin. apply list_elem_of_fmap in Hin as (r' & Heq & Hin). by injection Heq as ->.
  - intros Hin. apply list_elem_of_fmap. by exists r.
Qed.

(** ** With a manager in place nothing panics *)

Section Keeps.
Variable w : World.

Lemma keeps_ret {A} (a : A) : keeps (mret a).
Proof. intros st Hm. by repeat split. Qed.

Lemma keeps_bind {A B} (m : M A) (k : A → M B) :
  keeps m → (∀ a, keeps (k a)) → keeps (m ≫= k).
Proof.
  intros Hm Hk st Hst. rewrite run_bind. specialize (Hm st Hst).
  destruct (m st) as [[[a|err|c] st1] evs1].
  - destruct Hm as (_ & Hc1 & Hs1 & Hm1). specialize (Hk a st1 Hm1).
    destruct (k a st1) as [[r st2] evs2].
    destruct Hk as (Hcr & Hc2 & Hs2 & Hm2).
    split; [done|]. split; [congruence|]. split; [congruence|done].
  - destruct Hm as (_ & H). by split.
  - destruct Hm as (Hc & _). by destruct (Hc c).
Qed.

Lemma keeps_wrap {A} msg (m : M A) : keeps m → keeps (wrap msg m).
Proof.
  intros Hm st Hst. unfold wrap. specialize (Hm st Hst).
  destruct (m st) as [[[a|err|c] st1] evs1]; [done| |done].
  destruct Hm as (_ & H). by split.
Qed.

Lemma keeps_log e : keeps (log e).
Proof. intros st Hm. by repeat split. Qed.

Lemma keeps_get_mgr : keeps get_mgr.
Proof. intros st [m Hm]. unfold get_mgr. rewrite Hm. by repeat split. Qed.

Lemma keeps_hand c callee : keeps (hand c callee).
Proof.
  intros st [m Hm]. unfold hand.
  destruct (callee (mgr (op st))) as [[err|] f]; simpl; rewrite Hm;
    by repeat split.
Qed.

Lemma keeps_ForEach {H} (GetName : H → string) (fn : H → M unit)
    (handlers : list H) :
  (∀ h, keeps (fn h)) → keeps (ForEach GetName handlers fn).
Proof.
  intros Hfn. induction handlers as [|h handlers IH]; simpl.
  - apply keeps_ret.
  - apply keeps_bind; [by apply keeps_wrap|by intros _].
Qed.

Lemma keeps_grows {A} (m : M A) : grows m → keeps m.
Proof.
  intros Hg st [mg Hmg]. specialize (Hg st mg Hmg).
  destruct (m st) as [[r st'] evs].
  destruct Hg as (Hcr & Hc & Hs & mg' & Hmg' & _).
  do 3 (split; [done|]). by exists mg'.
Qed.

Lemma keeps_createServiceReconcilers ctx : keeps (createServiceReconcilers w ctx).
Proof.
  apply keeps_ForEach. intros sh.
  apply keeps_bind; [apply keeps_log|]. intros _.
  apply keeps_wrap, keeps_hand.
Qed.

Lemma keeps_createComponentReconcilers ctx : keeps (createComponentReconcilers w ctx).
Proof.
  apply keeps_ForEach. intros ch.
  apply keeps_bind; [apply keeps_log|]. intros _.
  apply keeps_wrap, keeps_hand.
Qed.

Lemma keeps_Setup_rest ctx o : keeps (Setup_rest w ctx o).
Proof.
  unfold Setup_rest.
  apply keeps_bind; [apply keeps_wrap, keeps_hand|]. intros _.
  apply keeps_bind.
  { apply keeps_wrap, keeps_bind; [apply keeps_get_mgr|]. intros _. apply keeps_hand. }
  intros _.
  apply keeps_bind; [apply keeps_wrap, keeps_hand|]. intros _.
  apply keeps_bind; [apply keeps_wrap, keeps_createServiceReconcilers|]. intros _.
  apply keeps_bind; [apply keeps_wrap, keeps_createComponentReconcilers|]. intros _.
  apply keeps_grows, grows_Setup_tail.
Qed.

End Keeps.

(** ** The callees that are handed the manager *)

Section Collaborators.
Variable w : World.
Variable ctx : Context.

Lemma run_wrap_hand msg c (callee : option Manager → handed) (st : St) :
  wrap msg (hand c callee) st =
  (match (callee (mgr (op st))).1 with
   | None => Return tt
   | Some err => Raise (wrapError msg err)
   end,
   with_registered st (callee (mgr (op st))).2,
   [(c, (callee (mgr (op st))).1)]).
Proof. unfold wrap, hand. by destruct (callee (mgr (op st))) as [[err|] f]. Qed.

Lemma run_wrap_deref_hand msg c (callee : option Manager → handed) (st : St) m :
  mgr (op st) = Some m →
  wrap msg (get_mgr ;; hand c callee) st = wrap msg (hand c callee) st.
Proof.
  intros Hm. unfold wrap. rewrite run_bind. unfold get_mgr. rewrite Hm.
  by destruct (hand c callee st) as [[[[]|err|cr] st1] evs1].
Qed.

Lemma with_registered_mgr (st : St) (f : Manager → Manager) (m : Manager) :
  mgr (op st) = Some m → mgr (op (with_registered st f)) = Some (f m).
Proof. intros Hm. simpl. by rewrite Hm. Qed.


(** A handler phase run from a state with a manager: how it ends and what
    it leaves behind the pointer. *)
Lemma ForEach_hand {H} (GetName : H → string) (line : H → LogEntry)
    (msg : H → string) (c : H → Call) (new : H → option Manager → handed)
    (handlers : list H) (st : St) (m : Manager) :
  mgr (op st) = Some m →
  match ForEach GetName handlers
          (λ h, log (line h) ;; wrap (msg h) (hand (c h) (new h))) st with
  | (r, st', evs) =>
      config (op st') = config (op st) ∧ scheme (op st') = scheme (op st) ∧
      ((r = Return tt ∧
        Forall (λ hm : H * Manager, (new hm.1 (Some hm.2)).1 = None)
          (handed_on new handlers m) ∧
        mgr (op st') = Some (registered new handlers m)) ∨
       (∃ h mi e,
          (h, mi) ∈ handed_on new handlers m ∧ (new h (Some mi)).1 = Some e ∧
          r = Raise (wrapError (GetName h +:+ ": ") (wrapError (msg h) e)) ∧
          mgr (op st') = Some (left_by (new h) mi)))
  end.
Proof.
  revert st m. induction handlers as [|h handlers IH]; intros st m Hm.
  - simpl. do 2 (split; [done|]). left. by repeat split.
  - cbn [ForEach handed_on]. rewrite run_bind. unfold wrap at 1.
    rewrite run_bind. unfold log at 1. rewrite run_wrap_hand.
    cbn [with_log op]. rewrite Hm.
    destruct (new h (Some m)) as [[e|] f] eqn:Hnew; cbn [fst snd].
    + do 2 (split; [done|]). right. exists h, m, e.
      split; [set_solver|]. rewrite Hnew. split; [done|]. split; [done|].
      simpl. rewrite Hm. unfold left_by. by rewrite Hnew.
    + set (st1 := with_registered _ f).
      assert (Hm1 : mgr (op st1) = Some (left_by (new h) m)).
      { unfold st1, left_by. simpl. by rewrite Hm, Hnew. }
      specialize (IH st1 _ Hm1).
      destruct (ForEach GetName handlers _ st1) as [[r st'] evs].
      destruct IH as (Hc & Hs & IH). split; [by rewrite Hc|]. split; [by rewrite Hs|].
      destruct IH as [(-> & Hall & Hm')|(h' & mi & e & Hin & He & -> & Hm')].
      * left. split; [done|]. split; [|done].
        constructor; [simpl; by rewrite Hnew|done].
      * right. exists h', mi, e. split; [set_solver|]. by repeat split.
Qed.

(** When the statements that follow the assignment to [o.mgr] return nil,
    every collaborator has had the manager before the startup tasks and the
    health checks are added. *)
Lemma Setup_rest_Return (o : mainOperator) (st st' : St) (m0 : Manager)
    (evs : list Event) :
  mgr (op st) = Some m0 →
  Setup_rest w ctx o st = (Return tt, st', evs) →
  ∃ st1 evs1 evs2,
    evs = evs1 ++ evs2 ∧
    mgr (op st1) = Some (after_collaborators w ctx m0) ∧
    config (op st1) = config (op st) ∧ scheme (op st1) = scheme (op st) ∧
    Setup_tail w ctx o st1 = (Return tt, st', evs2).
Proof.
  intros Hm0 Hrun. unfold Setup_rest in Hrun.
  rewrite run_bind, run_wrap_hand, Hm0 in Hrun.
  pose proof (with_registered_mgr st (RegisterAllWebhooks w (Some m0)).2 m0 Hm0) as Hm1.
  fold (left_by (RegisterAllWebhooks w) m0) in Hm1.
  set (m1 := left_by (RegisterAllWebhooks w) m0) in Hm1.
  assert (Hcs1 : config (op (with_registered st (RegisterAllWebhooks w (Some m0)).2))
                 = config (op st) ∧
                 scheme (op (with_registered st (RegisterAllWebhooks w (Some m0)).2))
                 = scheme (op st)) by done.
  revert Hrun Hm1 Hcs1.
  generalize (with_registered st (RegisterAllWebhooks w (Some m0)).2). intros st1.
  destruct (RegisterAllWebhooks w (Some m0)).1 as [e1|]; [discriminate 1|].
  intros Hrun Hm1 Hcs1.
  rewrite run_bind, (run_wrap_deref_hand _ _ _ _ _ Hm1), run_wrap_hand, Hm1 in Hrun.
  pose proof (with_registered_mgr st1
                (DSCInitialization_SetupWithManager w ctx (Some m1)).2 m1 Hm1) as Hm2.
  fold (left_by (DSCInitialization_SetupWithManager w ctx) m1) in Hm2.
  set (m2 := left_by (DSCInitialization_SetupWithManager w ctx) m1) in Hm2.
  assert (Hcs2 : config (op (with_registered st1
                   (DSCInitialization_SetupWithManager w ctx (Some m1)).2))
                 = config (op st) ∧
                 scheme (op (with_registered st1
                   (DSCInitialization_SetupWithManager w ctx (Some m1)).2))
                 = scheme (op st)) by done.
  revert Hrun Hm2 Hcs2.
  generalize (with_registered st1
                (DSCInitialization_SetupWithManager w ctx (Some m1)).2). intros st2.
  destruct (DSCInitialization_SetupWithManager w ctx (Some m1)).1 as [e2|];
    [discriminate 1|].
  intros Hrun Hm2 Hcs2.
  rewrite run_bind, run_wrap_hand, Hm2 in Hrun.
  pose proof (with_registered_mgr st2
                (NewDataScienceClusterReconciler w ctx (Some m2)).2 m2 Hm2) as Hm3.
  fold (left_by (NewDataScienceClusterReconciler w ctx) m2) in Hm3.
  set (m3 := left_by (NewDataScienceClusterReconciler w ctx) m2) in Hm3.
  assert (Hcs3 : config (op (with_registered st2
                   (NewDataScienceClusterReconciler w ctx (Some m2)).2))
                 = config (op st) ∧
                 scheme (op (with_registered st2
                   (NewDataScienceClusterReconciler w ctx (Some m2)).2))
                 = scheme (op st)) by done.
  revert Hrun Hm3 Hcs3.
  generalize (with_registered st2
                (NewDataScienceClusterReconciler w ctx (Some m2)).2). intros st3.
  destruct (NewDataScienceClusterReconciler w ctx (Some m2)).1 as [e3|];
    [discriminate 1|].
  intros Hrun Hm3 Hcs3.
  rewrite run_bind in Hrun. unfold wrap at 1 in Hrun.
  pose proof (ForEach_hand sh_GetName
                (λ sh, Logger_Info (logf_FromContext ctx) "creating reconciler"
                         [("type", "service"); ("name", sh_GetName sh)])
                (λ sh, "error creating " +:+ sh_GetName sh +:+ " service reconciler: ")
                (λ sh, c_NewReconciler (sh_GetName sh))
                (λ sh, sh_NewReconciler sh ctx) (sr_registry w) st3 m3 Hm3) as Hs.
  change (ForEach sh_GetName (sr_registry w) _ st3)
    with (createServiceReconcilers w ctx st3) in Hs.
  destruct (createServiceReconcilers w ctx st3) as [[[[]|e4|c4] st4] evs4];
    [|discriminate Hrun..].
  destruct Hs as (Hc4 & Hs4 & [(_ & _ & Hm4)|(? & ? & ? & _ & _ & ? & _)]); [|done].
  set (m4 := registered (λ sh, sh_NewReconciler sh ctx) (sr_registry w) m3) in Hm4.
  rewrite run_bind in Hrun. unfold wrap at 1 in Hrun.
  pose proof (ForEach_hand ch_GetName
                (λ ch, Logger_Info (logf_FromContext ctx) "creating reconciler"
                         [("type", "component"); ("name", ch_GetName ch)])
                (λ ch, "error creating " +:+ ch_GetName ch +:+ " component reconciler: ")
                (λ ch, c_NewComponentReconciler (ch_GetName ch))
                (λ ch, ch_NewComponentReconciler ch ctx) (cr_registry w) st4 m4 Hm4) as Hc.
  change (ForEach ch_GetName (cr_registry w) _ st4)
    with (createComponentReconcilers w ctx st4) in Hc.
  destruct (createComponentReconcilers w ctx st4) as [[[[]|e5|c5] st5] evs5];
    [|discriminate Hrun..].
  destruct Hc as (Hc5 & Hs5 & [(_ & _ & Hm5)|(? & ? & ? & _ & _ & ? & _)]); [|done].
  destruct (Setup_tail w ctx o st5) as [[r6 st6] evs6] eqn:Htail.
  injection Hrun as -> -> <-.
  exists st5, ([(c_RegisterAllWebhooks, None)] ++
               [(c_DSCInitialization_SetupWithManager, None)] ++
               [(c_NewDataScienceClusterReconciler, None)] ++ evs4 ++ evs5), evs6.
  split; [by rewrite <- !app_assoc|]. split; [exact Hm5|].
  destruct Hcs3 as [Hc3 Hs3].
  split; [by rewrite Hc5, Hc4|]. split; [by rewrite Hs5, Hs4|done].
Qed.

Lemma follows_Setup_tail (o : mainOperator) :
  follows w o names_step (Setup_tail w ctx o)
    (map c_Add (startup_tasks w ctx (setupClient_of o) (GetRelease_Name w)) ++
     [c_AddHealthzCheck "healthz"; c_AddReadyzCheck "readyz"]).
Proof.
  unfold Setup_tail.
  apply follows_bind; [apply follows_addStartupTasks|].
  intros _. apply follows_bind_cons.
  { apply (follows_step w o HealthChecks); [|set_solver|done].
    apply follows_mgr_AddHealthzCheck. }
  intros _. apply (follows_bind w o names_step _ _ [_] []).
  { apply (follows_step w o HealthChecks); [|set_solver|done].
    apply follows_mgr_AddReadyzCheck. }
  intros _. apply follows_ret.
Qed.

End Collaborators.

(** The two ways a run of [Setup] can go: it stops before the operator has
    a manager, leaving the operator as it was, or it goes on with a manager
    in place, and then it returns. *)
Lemma Setup_outcome (w : World) (ctx : Context) (st : St) :
  match Setup w ctx st with
  | (r, st', evs) =>
      (((c_NewManager, None) ∉ evs) ∧
       ((st' = st ∧ ∃ err, r = Raise err) ∨
        (∃ err pre, GetConfigOrDie w = Err err ∧ r = Crash (os_Exit 1) ∧
                    st' = with_log st (kubeconfig_failed err) ∧
                    evs = pre ++ [(c_GetConfigOrDie, Some err)]))) ∨
      ((c_NewManager, None) ∈ evs ∧ (∀ c, r ≠ Crash c) ∧
       is_Some (mgr (op st')) ∧
       config (op st') = config (op st) ∧ scheme (op st') = scheme (op st) ∧
       ∃ secret general restConfig,
         createSecretCacheConfig (cluster w) (GetRelease_Name w) = Ok secret ∧
         createODHGeneralCacheConfig (cluster w) (GetRelease_Name w) = Ok general ∧
         GetConfigOrDie w = Ok restConfig)
  end.
Proof.
  pose proof (Setup_runs w ctx st) as H.
  destruct (Setup w ctx st) as [[r st'] evs].
  destruct H as [(-> & Hr & Hevs)|[(-> & pre & c & e & -> & Hpre & -> & Hc)
                |(secret & general & Hs & Hg &
                  [(err & pre & Hcfg & -> & -> & -> & Hnot)
                  |[(restConfig & err & Hcfg & -> & -> & Hnot)
                   |(restConfig & pre & post & Hcfg & -> & _ & _ & _ & Hrest)]])]].
  - left. split; [by apply before_cache_not_manager|]. by left.
  - left. split; [|left; split; [done|by eexists]].
    rewrite Forall_forall in Hpre. intros Hin.
    apply elem_of_app in Hin as [Hin|Hin].
    + destruct (Hpre _ Hin) as [[?|?]|?]; done.
    + apply list_elem_of_singleton in Hin. by destruct Hc as [[-> _]|[-> _]].
  - left. split; [done|]. right. by exists err, pre.
  - left. split; [done|]. left. split; [done|by eexists].
  - right. split; [set_solver|].
    pose proof (keeps_Setup_rest w ctx (op st)
                  (with_mgr st (fresh_manager w (op st) secret general restConfig))
                  (mk_is_Some _ _ eq_refl)) as Hk.
    rewrite Hrest in Hk. destruct Hk as (Hcr & Hc & Hsch & Hm).
    do 4 (split; [done|]). by exists secret, general, restConfig.
Qed.

(** What [main] does, by the outcome of [Setup]. *)
Lemma main_shape (w : World) :
  match LoadConfig w with
  | Err _ => main w = {| exit_code := 1; run_logs := []; run_calls := [] |}
  | Ok cfg =>
      match Setup w main_ctx (main_st cfg) with
      | (Return _, st', evs) =>
          ∃ m, mgr (op st') = Some m ∧
            main w =
            {| exit_code := match Manager_Start w m main_ctx with
                            | None => 0 | Some _ => 1 end;
               run_logs :=
                 logs st' ++
                 Logger_Info setupLog "starting operator" [] ::
                 match Manager_Start w m main_ctx with
                 | None => []
                 | Some err => [Logger_Error setupLog err "problem running operator"]
                 end;
               run_calls := evs ++ [(c_Start, Manager_Start w m main_ctx)] |}
      | (Raise err, st', evs) =>
          main w =
          {| exit_code := 1;
             run_logs := logs st' ++ [Logger_Error setupLog err "unable to setup operator"];
             run_calls := evs |}
      | (Crash c, st', evs) =>
          main w = {| exit_code := 1; run_logs := logs st'; run_calls := evs |}
      end
  end.
Proof.
  unfold main. destruct (LoadConfig w) as [cfg|err]; [|done].
  cbn [factory.Create factory.NewFactory factory.config factory.OperatorTypeMain
       String.eqb Ascii.eqb Bool.eqb].
  change (logf_IntoContext {| ctx_logger := "" |} setupLog) with main_ctx.
  change {| op := New cfg; logs := [] |} with (main_st cfg).
  pose proof (Setup_outcome w main_ctx (main_st cfg)) as Hout.
  unfold run_operator. rewrite run_bind. unfold catch.
  destruct (Setup w main_ctx (main_st cfg)) as [[[[]|err|c] st'] evs].
  - destruct Hout as [(_ & [[_ [err ?]]|(err & pre & _ & ? & _)])
                     |(_ & _ & [m Hm] & _)]; [done..|].
    exists m. split; [done|]. cbv beta iota.
    rewrite run_bind. unfold log at 1. unfold Start. rewrite run_bind.
    unfold get_mgr. simpl. rewrite Hm. unfold call.
    destruct (Manager_Start w m main_ctx); simpl;
      by rewrite ?app_nil_r, <- ?app_assoc.
  - simpl. by rewrite app_nil_r.
  - destruct Hout as [(_ & [[_ [err' ?]]|(err & pre & _ & [= ->] & _)])
                     |(_ & Hcr & _)]; [done|done|by destruct (Hcr c)].
Qed.

(** ** [Start] and the manager *)

(** C9, as stated, fails: a [Setup] that fails after it has built the
    manager (here at webhook registration) leaves that manager in the
    operator, and [Start] on that operator does not panic: it runs the
    manager and returns what the manager returns. *)
Lemma C9_counterexample :
  match Setup webhook_failure_world main_ctx (main_st sample_cfg) with
  | (r, st', evs) =>
      r = Raise (wrapError "unable to register webhooks: "
                   (errorString "no certificate")) ∧
      is_Some (mgr (op st')) ∧
      Start webhook_failure_world main_ctx st' = (Return tt, st', [(c_Start, None)])
  end.
Proof.
  set (run := Setup _ _ _). vm_compute in run. subst run. cbv beta iota.
  split; [reflexivity|]. split; [by eexists|reflexivity].
Qed.

(** C9 (amended): the operator [New] returns has no manager.  On an operator
    without a manager [Start] dereferences nil: it panics, makes no call and
    returns no error; on an operator with a manager it never panics and
    returns what the manager's run returns.  After [Setup] has run on an
    operator without a manager, the operator has a manager exactly when
    manager construction succeeded in that run -- whether [Setup] then
    returned nil or an error -- so [Start] afterwards panics exactly when it
    did not. *)
Theorem C9_Start_panics_without_manager (w : World) (ctx : Context) (st : St) :
  mgr (op st) = None →
  (∀ cfg, mgr (New cfg) = None) ∧
  Start w ctx st = (Crash nil_pointer_dereference, st, []) ∧
  (∀ st0 m, mgr (op st0) = Some m →
     Start w ctx st0 =
       (match Manager_Start w m ctx with
        | None => Return tt
        | Some err => Raise err
        end, st0, [(c_Start, Manager_Start w m ctx)])) ∧
  match Setup w ctx st with
  | (r, st', evs) =>
      (is_Some (mgr (op st')) ↔ (c_NewManager, None) ∈ evs) ∧
      (r = Return tt → (c_NewManager, None) ∈ evs) ∧
      ((c_NewManager, None) ∉ evs →
         Start w ctx st' = (Crash nil_pointer_dereference, st', [])) ∧
      ((c_NewManager, None) ∈ evs → ∀ c, (Start w ctx st').1.1 ≠ Crash c)
  end.
Proof.
  intros Hnil.
  assert (HStart : ∀ st0, mgr (op st0) = None →
            Start w ctx st0 = (Crash nil_pointer_dereference, st0, [])).
  { intros st0 H0. unfold Start. rewrite run_bind. unfold get_mgr. by rewrite H0. }
  assert (HStart' : ∀ st0 m, mgr (op st0) = Some m →
            Start w ctx st0 =
              (match Manager_Start w m ctx with
               | None => Return tt
               | Some err => Raise err
               end, st0, [(c_Start, Manager_Start w m ctx)])).
  { intros st0 m H0. unfold Start. rewrite run_bind. unfold get_mgr. rewrite H0.
    unfold call. by destruct (Manager_Start w m ctx). }
  split; [done|]. split; [by apply HStart|]. split; [exact HStart'|].
  pose proof (Setup_outcome w ctx st) as H.
  destruct (Setup w ctx st) as [[r st'] evs].
  destruct H as [(Hnot & Hstop)|(Hin & Hcr & [m Hm] & _)].
  - assert (Hnil' : mgr (op st') = None).
    { destruct Hstop as [[-> _]|(err & pre & _ & _ & -> & _)]; done. }
    split; [|split; [|split]].
    + rewrite Hnil'. split; [by intros [? ?]|done].
    + intros ->. by destruct Hstop as [[_ [err ?]]|(err & pre & _ & ? & _)].
    + intros _. by apply HStart.
    + done.
  - split; [|split; [|split]].
    + split; [done|]. intros _. by exists m.
    + done.
    + done.
    + intros _ c. rewrite (HStart' st' m Hm). simpl.
      by destruct (Manager_Start w m ctx).
Qed.

Lemma C9_Start_panics_without_manager_witness :
  mgr (op (main_st sample_cfg)) = None ∧
  Start quiet_world main_ctx (main_st sample_cfg) =
    (Crash nil_pointer_dereference, main_st sample_cfg, []).
Proof.
  split; [reflexivity|].
  exact (proj1 (proj2 (C9_Start_panics_without_manager quiet_world main_ctx
                         (main_st sample_cfg) eq_refl))).
Defined.

(** ** [Setup] runs its nine steps in order and stops at the first failure *)

(** C3: the calls [Setup] makes are an initial segment of the calls of the
    nine steps taken in order (cluster probe, handler Init for services then
    components, cache policy, manager construction, webhooks, the two
    built-in reconcilers, the pluggable reconcilers, startup tasks, health
    checks).  [Setup] returns nil exactly when no call it made failed, the
    tolerated cleanup registration apart, and then it made all the calls of
    the nine steps.  When it returns an error, the last call made is the
    first failing one, nothing was called after it, and the error wraps that
    call's error under a message naming the step the call belongs to.  The
    only other way [Setup] ends is the process exiting with status 1 inside
    [GetConfigOrDie]: that failing call is then the last one made and every
    call before it succeeded; [Setup] never panics.  In [main], [Start] is
    called, once and last, only after [Setup] returned nil; otherwise it is
    not called and the process exits with status 1. *)
Theorem C3_Setup_fail_fast (w : World) (ctx : Context) (st : St) :
  (∀ s c, c ∈ calls_of_step w ctx (op st) s → step_of c = Some s) ∧
  match Setup w ctx st with
  | (r, _, evs) =>
      map fst evs `prefix_of` Setup_steps w ctx (op st) ∧
      (r = Return tt ↔ Forall (ok w) evs) ∧
      (∀ a, r = Return a →
         map fst evs = Setup_steps w ctx (op st) ∧ Forall (ok w) evs) ∧
      (∀ err, r = Raise err →
         ∃ pre c cause,
           evs = pre ++ [(c, Some cause)] ∧ Forall (ok w) pre ∧
           ¬ tolerated w c ∧ cause ∈ chain err ∧ names_step c err) ∧
      (∀ c, r = Crash c →
         c = os_Exit 1 ∧
         ∃ pre cause,
           evs = pre ++ [(c_GetConfigOrDie, Some cause)] ∧ Forall (ok w) pre ∧
           GetConfigOrDie w = Err cause)
  end ∧
  (∀ cfg, LoadConfig w = Ok cfg →
     match Setup w main_ctx (main_st cfg) with
     | (Return _, _, evs) =>
         ∃ res, run_calls (main w) = evs ++ [(c_Start, res)]
     | (Raise _, _, evs) | (Crash _, _, evs) =>
         run_calls (main w) = evs ∧ (c_Start ∉ map fst (run_calls (main w))) ∧
         exit_code (main w) = 1%Z
     end).
Proof.
  split; [intros s c; apply calls_of_step_step|]. split.
  - pose proof (follows_Setup w ctx (op st) st (conj eq_refl eq_refl)) as H.
    pose proof (Setup_outcome w ctx st) as Hout.
    assert (Hbad : ∀ (pre : list Event) c cause,
              ¬ tolerated w c → ¬ Forall (ok w) (pre ++ [(c, Some cause)])).
    { intros pre c cause Hfatal Hall. rewrite Forall_app, Forall_singleton in Hall.
      destruct Hall as [_ [Hall|Hall]]; [discriminate Hall|done]. }
    destruct (Setup w ctx st) as [[[[]|err|c] st'] evs].
    + destruct H as (_ & Hcs & Hok). split; [by rewrite Hcs|].
      split; [done|]. split; [done|]. split; [intros ? [=]|intros ? [=]].
    + destruct H as (pre & c & cause & Hevs & Hpre & Hfatal & Hcause & Hname & Hpfx).
      split; [done|]. split.
      { split; [done|]. intros Hall. subst evs. by apply Hbad in Hall. }
      split; [intros a Ha; discriminate|].
      split; [|intros ? [=]]. intros err' [= <-]. by exists pre, c, cause.
    + destruct H as [Hpfx Hc]. split; [done|].
      destruct Hout as [(_ & [[_ [err ?]]|(err & pre' & Hcfg & [= ->] & _ & Hevs)])
                       |(_ & Hcr & _)]; [done| |by destruct (Hcr c)].
      destruct Hc as (_ & pre & cause & -> & Hpre).
      apply app_inj_tail in Hevs as [-> [= ->]].
      split.
      { split; [done|]. intros Hall. apply Hbad in Hall; [done|].
        by apply not_tolerated_step. }
      split; [intros a Ha; discriminate|]. split; [intros ? [=]|].
      intros c [= <-]. split; [done|]. by exists pre', err.
  - intros cfg Hcfg.
    pose proof (Setup_never_starts w main_ctx (main_st cfg)) as Hstart.
    pose proof (main_shape w) as Hmain. rewrite Hcfg in Hmain.
    destruct (Setup w main_ctx (main_st cfg)) as [[[a|err|c] st'] evs].
    + destruct Hmain as (m & _ & ->). by eexists.
    + rewrite Hmain. by repeat split.
    + rewrite Hmain. by repeat split.
Qed.

Lemma C3_Setup_fail_fast_witness :
  (Setup quiet_world main_ctx (main_st sample_cfg)).1.1 = Return tt ∧
  map fst (Setup quiet_world main_ctx (main_st sample_cfg)).2
    = Setup_steps quiet_world main_ctx (New sample_cfg) ∧
  (Setup webhook_failure_world main_ctx (main_st sample_cfg)).1.1 =
    Raise (wrapError "unable to register webhooks: " (errorString "no certificate")) ∧
  (c_Start ∉ map fst (run_calls (main webhook_failure_world))) ∧
  exit_code (main webhook_failure_world) = 1%Z ∧
  (Setup no_kubeconfig_world main_ctx (main_st sample_cfg)).1.1 = Crash (os_Exit 1) ∧
  exit_code (main no_kubeconfig_world) = 1%Z.
Proof.
  split; [vm_compute; reflexivity|]. split.
  { destruct (C3_Setup_fail_fast quiet_world main_ctx (main_st sample_cfg))
      as (_ & Hrun & _).
    destruct (Setup quiet_world main_ctx (main_st sample_cfg))
      as [[[a|err|c] st'] evs] eqn:Hq; vm_compute in Hq; try discriminate Hq.
    destruct Hrun as (_ & _ & Hret & _). exact (proj1 (Hret a eq_refl)). }
  split; [vm_compute; reflexivity|].
  destruct (C3_Setup_fail_fast webhook_failure_world main_ctx (main_st sample_cfg))
    as (_ & _ & Hmain).
  specialize (Hmain sample_cfg eq_refl).
  destruct (Setup webhook_failure_world main_ctx (main_st sample_cfg))
    as [[[a|err|c] st'] evs] eqn:Hrun; vm_compute in Hrun; try discriminate Hrun.
  destruct Hmain as (_ & Hstart & Hexit). split; [exact Hstart|].
  split; [exact Hexit|]. split; [vm_compute; reflexivity|].
  destruct (C3_Setup_fail_fast no_kubeconfig_world main_ctx (main_st sample_cfg))
    as (_ & _ & Hmain').
  specialize (Hmain' sample_cfg eq_refl).
  destruct (Setup no_kubeconfig_world main_ctx (main_st sample_cfg))
    as [[[a'|err'|c'] st''] evs'] eqn:Hrun'; vm_compute in Hrun'; try discriminate Hrun'.
  exact (proj2 (proj2 Hmain')).
Defined.

(* ===================================================================== *)
(** * Further properties of the code                                      *)
(* ===================================================================== *)

(** ** Cache builders *)

(** X1: the three builders succeed or fail together, on the operator
    namespace lookup alone.  When it resolves, the common set is the operator,
    monitoring and application namespaces (plus the console-link namespace on
    the managed platform), the secret set adds [openshift-ingress] to it and
    the general set adds [openshift-ingress] and [openshift-operators]; when
    it fails, each builder returns the lookup's error unchanged. *)
Theorem X1_cache_sets_exact (cl : Cluster) (platform : Platform) :
  match GetOperatorNamespace cl with
  | Ok operatorNs =>
      ∃ common secret general,
        getCommonCache cl platform = Ok common ∧
        createSecretCacheConfig cl platform = Ok secret ∧
        createODHGeneralCacheConfig cl platform = Ok general ∧
        namespaces common = base_set cl platform operatorNs ∧
        namespaces secret = namespaces common ∪ {["openshift-ingress"]} ∧
        namespaces general =
          namespaces common ∪ {["openshift-ingress"; "openshift-operators"]}
  | Err err =>
      getCommonCache cl platform = Err err ∧
      createSecretCacheConfig cl platform = Err err ∧
      createODHGeneralCacheConfig cl platform = Err err
  end.
Proof.
  destruct (GetOperatorNamespace cl) as [operatorNs|err] eqn:Hns.
  - destruct (getCommonCache_Ok cl platform _ Hns) as (common & Hc & Hdc).
    destruct (createSecretCacheConfig_Ok cl platform _ Hns) as (secret & Hs & Hds).
    destruct (createODHGeneralCacheConfig_Ok cl platform _ Hns) as (general & Hg & Hdg).
    exists common, secret, general. rewrite Hdc, Hds, Hdg.
    do 4 (split; [done|]). split; [done|]. set_solver.
  - split; [by apply getCommonCache_Err|].
    split; [by apply createSecretCacheConfig_Err|].
    by apply createODHGeneralCacheConfig_Err.
Qed.

(** X2: the platform matters to the builders only through the comparison
    with the managed platform: two platforms that are both different from it
    give the same three maps, and on the managed platform each set is the set
    of any other platform plus the console-link namespace. *)
Theorem X2_cache_platform_only_console (cl : Cluster) (p1 p2 : Platform) :
  p1 ≠ ManagedRhoai cl → p2 ≠ ManagedRhoai cl →
  getCommonCache cl p1 = getCommonCache cl p2 ∧
  createSecretCacheConfig cl p1 = createSecretCacheConfig cl p2 ∧
  createODHGeneralCacheConfig cl p1 = createODHGeneralCacheConfig cl p2 ∧
  ∀ secret general secret' general',
    createSecretCacheConfig cl p1 = Ok secret →
    createODHGeneralCacheConfig cl p1 = Ok general →
    createSecretCacheConfig cl (ManagedRhoai cl) = Ok secret' →
    createODHGeneralCacheConfig cl (ManagedRhoai cl) = Ok general' →
    namespaces secret' = namespaces secret ∪ {[NamespaceConsoleLink cl]} ∧
    namespaces general' = namespaces general ∪ {[NamespaceConsoleLink cl]}.
Proof.
  intros H1 H2.
  assert (Hcommon : getCommonCache cl p1 = getCommonCache cl p2).
  { unfold getCommonCache.
    by rewrite (eqb_platform_false cl p1 H1), (eqb_platform_false cl p2 H2). }
  assert (Hsecret : createSecretCacheConfig cl p1 = createSecretCacheConfig cl p2).
  { unfold createSecretCacheConfig. by rewrite Hcommon. }
  assert (Hgeneral : createODHGeneralCacheConfig cl p1 = createODHGeneralCacheConfig cl p2).
  { unfold createODHGeneralCacheConfig. by rewrite Hcommon. }
  do 3 (split; [done|]).
  intros secret general secret' general' Hs Hg Hs' Hg'.
  destruct (GetOperatorNamespace cl) as [operatorNs|err] eqn:Hns.
  - destruct (createSecretCacheConfig_Ok cl p1 _ Hns) as (s1 & Hs1 & Hds).
    destruct (createODHGeneralCacheConfig_Ok cl p1 _ Hns) as (g1 & Hg1 & Hdg).
    destruct (createSecretCacheConfig_Ok cl (ManagedRhoai cl) _ Hns)
      as (s2 & Hs2 & Hds').
    destruct (createODHGeneralCacheConfig_Ok cl (ManagedRhoai cl) _ Hns)
      as (g2 & Hg2 & Hdg').
    rewrite Hs1 in Hs. rewrite Hg1 in Hg. rewrite Hs2 in Hs'. rewrite Hg2 in Hg'.
    injection Hs as <-. injection Hg as <-. injection Hs' as <-. injection Hg' as <-.
    rewrite Hds, Hdg, Hds', Hdg'. unfold base_set.
    rewrite (eqb_platform_false cl p1 H1), String.eqb_refl. set_solver.
  - rewrite (createSecretCacheConfig_Err cl p1 _ Hns) in Hs. discriminate.
Qed.

Lemma X2_cache_platform_only_console_witness :
  createSecretCacheConfig odh_cluster "Open Data Hub" =
  createSecretCacheConfig odh_cluster "OpenShift AI Self-Managed".
Proof.
  refine (proj1 (proj2 (X2_cache_platform_only_console odh_cluster
            "Open Data Hub" "OpenShift AI Self-Managed" _ _))); discriminate.
Defined.

(** X3: the footprint of the cache sets is bounded: the common set has
    between one and four namespaces, the secret set between two and five, the
    general set between three and six. *)
Theorem X3_cache_sets_size (cl : Cluster) (platform : Platform)
    (common secret general : gmap string cache_Config) :
  getCommonCache cl platform = Ok common →
  createSecretCacheConfig cl platform = Ok secret →
  createODHGeneralCacheConfig cl platform = Ok general →
  (1 ≤ size (namespaces common) ≤ 4)%nat ∧
  (2 ≤ size (namespaces secret) ≤ 5)%nat ∧
  (3 ≤ size (namespaces general) ≤ 6)%nat.
Proof.
  assert (D2 : ({["redhat-ods-monitoring"]} : gset string) ## {["openshift-ingress"]})
    by set_solver.
  assert (D3 : ({["redhat-ods-monitoring"; "openshift-ingress"]} : gset string)
               ## {["openshift-operators"]}) by set_solver.
  intros Hc Hs Hg.
  destruct (GetOperatorNamespace cl) as [operatorNs|err] eqn:Hns.
  2: { rewrite (getCommonCache_Err cl platform _ Hns) in Hc. discriminate. }
  destruct (getCommonCache_Ok cl platform _ Hns) as (c' & Hc' & Hdc).
  destruct (createSecretCacheConfig_Ok cl platform _ Hns) as (s' & Hs' & Hds).
  destruct (createODHGeneralCacheConfig_Ok cl platform _ Hns) as (g' & Hg' & Hdg).
  rewrite Hc' in Hc. rewrite Hs' in Hs. rewrite Hg' in Hg.
  injection Hc as <-. injection Hs as <-. injection Hg as <-.
  rewrite Hds, Hdg, Hdc. clear Hc' Hs' Hg' Hdc Hds Hdg Hns.
  set (base := base_set cl platform operatorNs).
  assert (Hlow1 : ({["redhat-ods-monitoring"]} : gset string) ⊆ base)
    by (unfold base, base_set; set_solver).
  assert (Hlow2 : ({["redhat-ods-monitoring"; "openshift-ingress"]} : gset string)
                  ⊆ base ∪ {["openshift-ingress"]}) by set_solver.
  assert (Hlow3 : ({["redhat-ods-monitoring"; "openshift-ingress";
                     "openshift-operators"]} : gset string)
                  ⊆ base ∪ {["openshift-ingress"]} ∪ {["openshift-operators"]})
    by set_solver.
  apply subseteq_size in Hlow1, Hlow2, Hlow3.
  apply size_union in D2, D3. rewrite !size_singleton in D2.
  rewrite D2, size_singleton in D3.
  rewrite size_singleton in Hlow1. rewrite D2 in Hlow2. rewrite D3 in Hlow3.
  clear D2 D3.
  assert (Hle : ∀ X Y : gset string, (size (X ∪ Y) ≤ size X + size Y)%nat).
  { intros X Y. rewrite size_union_alt.
    assert (Hsub : Y ∖ X ⊆ Y) by set_solver.
    apply subseteq_size in Hsub. lia. }
  assert (Hbase : (size base ≤ 4)%nat).
  { unfold base, base_set.
    set (console := if String.eqb platform (ManagedRhoai cl)
                    then {[NamespaceConsoleLink cl]} else (∅ : gset string)).
    assert (Hconsole : (size console ≤ 1)%nat).
    { subst console. destruct (String.eqb platform (ManagedRhoai cl));
        rewrite ?size_singleton, ?size_empty; lia. }
    pose proof (Hle ({[operatorNs]} ∪ {["redhat-ods-monitoring"]}
                     ∪ {[GetApplicationNamespace cl]}) console) as B1.
    pose proof (Hle ({[operatorNs]} ∪ {["redhat-ods-monitoring"]})
                  {[GetApplicationNamespace cl]}) as B2.
    pose proof (Hle {[operatorNs]} {["redhat-ods-monitoring"]}) as B3.
    rewrite !size_singleton in B3. rewrite !size_singleton in B2. lia. }
  pose proof (Hle base {["openshift-ingress"]}) as U1.
  pose proof (Hle (base ∪ {["openshift-ingress"]}) {["openshift-operators"]}) as U2.
  rewrite size_singleton in U1. rewrite size_singleton in U2. lia.
Qed.

Lemma X3_cache_sets_size_witness :
  ∃ secret, createSecretCacheConfig odh_cluster "Open Data Hub" = Ok secret ∧
            (size (namespaces secret) ≤ 5)%nat.
Proof.
  destruct (getCommonCache_Ok odh_cluster "Open Data Hub" _ eq_refl)
    as (common & Hc & _).
  destruct (createSecretCacheConfig_Ok odh_cluster "Open Data Hub" _ eq_refl)
    as (secret & Hs & _).
  destruct (createODHGeneralCacheConfig_Ok odh_cluster "Open Data Hub" _ eq_refl)
    as (general & Hg & _).
  exists secret. split; [exact Hs|].
  exact (proj2 (proj1 (proj2 (X3_cache_sets_size odh_cluster "Open Data Hub"
                                 common secret general Hc Hs Hg)))).
Defined.

(** ** The cache transform, again *)

(** X4: after the transform the input has no managed fields (for a nil
    pointer there is nothing to read, as before), and it answers
    [meta.Accessor] as before; transforming a second time changes nothing and
    ends as the first time did; and transforming two inputs gives the same
    heap in either order. *)
Theorem X4_DefaultTransform_idempotent (h : Heap) (a b : any) :
  let h' := (DefaultTransform h a).2 in
  GetManagedFields h' a
    = match a with ptr _ => returned None | nil_ptr _ => panicked end ∧
  meta_Accessor h' a = meta_Accessor h a ∧
  DefaultTransform h' a
    = (match a with ptr _ => returned (a, None) | nil_ptr _ => panicked end, h') ∧
  (DefaultTransform h' a).1 = (DefaultTransform h a).1 ∧
  ∀ l, (DefaultTransform h' b).2 l
       = (DefaultTransform (DefaultTransform h b).2 a).2 l.
Proof.
  assert (Hrun : ∀ (g : Heap) (x l : ref),
            (DefaultTransform g (ptr x)).2 l =
            if decide (x = l) then
              match g x with
              | Object kind meta body =>
                  Object kind {| meta_Name := meta_Name meta;
                                 meta_Namespace := meta_Namespace meta;
                                 meta_ManagedFields := None |} body
              | NotObject payload => NotObject payload
              end
            else g l).
  { intros g x l.
    unfold DefaultTransform, meta_Accessor, GetManagedFields, SetManagedFields.
    destruct (g x) as [kind [n ns mf]|payload] eqn:Hx; rewrite ?Hx; simpl.
    - case_bool_decide as Hmf; simpl.
      + unfold insert, fn_insert. by destruct (decide (x = l)).
      + destruct (decide (x = l)) as [<-|]; [|done]. rewrite Hx.
        destruct mf; [|done]. by destruct Hmf.
    - by destruct (decide (x = l)) as [<-|]. }
  assert (Hres : ∀ (g : Heap) (x : ref),
            (DefaultTransform g (ptr x)).1 = returned (ptr x, None)).
  { intros g x.
    unfold DefaultTransform, meta_Accessor, GetManagedFields, SetManagedFields.
    destruct (g x) as [kind [n ns mf]|payload] eqn:Hx; rewrite ?Hx; simpl; [|done].
    by case_bool_decide. }
  cbv zeta. destruct a as [a|ka].
  2: { simpl. do 4 (split; [done|]). intros l. by destruct b. }
  set (h' := (DefaultTransform h (ptr a)).2).
  assert (Ha : h' a = match h a with
                      | Object kind meta body =>
                          Object kind {| meta_Name := meta_Name meta;
                                         meta_Namespace := meta_Namespace meta;
                                         meta_ManagedFields := None |} body
                      | NotObject payload => NotObject payload
                      end).
  { unfold h'. rewrite Hrun. by destruct (decide (a = a)). }
  assert (Hnil : GetManagedFields h' (ptr a) = returned None).
  { unfold GetManagedFields. rewrite Ha. by destruct (h a). }
  split; [done|]. split.
  { unfold meta_Accessor. rewrite Ha. by destruct (h a). }
  split.
  { unfold DefaultTransform at 1.
    destruct (meta_Accessor h' (ptr a)) as [obj|err] eqn:Hacc; [|done].
    assert (obj = ptr a) as ->.
    { unfold meta_Accessor in Hacc. destruct (h' a); by simplify_eq. }
    rewrite Hnil. by case_bool_decide. }
  split; [by rewrite !Hres|].
  intros l. destruct b as [b|kb]; [|done]. unfold h'. rewrite !Hrun.
  repeat case_decide; subst; try done;
    repeat match goal with
      | |- context [match h ?x with _ => _ end] => destruct (h x)
      end; done.
Qed.

(** ** The startup-task phase as a whole *)

(** X6: from a state with a manager, the startup-task phase never panics
    and touches nothing but the manager's runnables: the operator's
    configuration and scheme, and the manager's configuration, options and
    health checks are as before.  The runnables are the earlier ones followed by
    at most three new ones, which come in the order DSCI, DSC, cleanup. *)
Theorem X6_addStartupTasks_footprint (w : World) (ctx : Context)
    (setupClient : Client) (platform : Platform) (st : St) (m : Manager) :
  mgr (op st) = Some m →
  match addStartupTasks w ctx setupClient platform st with
  | (r, st', evs) =>
      (∀ c, r ≠ Crash c) ∧
      config (op st') = config (op st) ∧ scheme (op st') = scheme (op st) ∧
      ∃ m' added,
        mgr (op st') = Some m' ∧
        mgr_config m' = mgr_config m ∧ mgr_options m' = mgr_options m ∧
        mgr_healthz m' = mgr_healthz m ∧ mgr_readyz m' = mgr_readyz m ∧
        mgr_runnables m' = mgr_runnables m ++ map Task added ∧
        added `sublist_of` startup_tasks w ctx setupClient platform ∧
        (length added ≤ 3)%nat
  end.
Proof.
  intros Hm.
  pose proof (grows_addStartupTasks w ctx setupClient platform st m Hm) as Hg.
  pose proof (follows_addStartupTasks w ctx (op st) setupClient platform st
                (conj eq_refl eq_refl)) as Hf.
  destruct (addStartupTasks w ctx setupClient platform st) as [[r st'] evs].
  destruct Hg as (Hcr & Hc & Hs & m' & Hm' & Hcfg & Hopt & Hr & Hh & Hy).
  assert (Hpfx : map fst evs `prefix_of`
                   map c_Add (startup_tasks w ctx setupClient platform)).
  { destruct r as [a|err|c]; [|by destruct Hf as (?&?&?&?&?&?&?&?&?)|by destruct Hf].
    destruct Hf as (_ & -> & _). done. }
  destruct (added_runnables_sublist _ _ Hpfx) as (Hsub & Hh0 & Hy0).
  rewrite Hh0, app_nil_r in Hh. rewrite Hy0, app_nil_r in Hy.
  do 3 (split; [done|]). exists m', (added_runnables evs).
  do 7 (split; [done|]).
  apply sublist_length in Hsub.
  pose proof (startup_tasks_length w ctx setupClient platform). lia.
Qed.

Lemma X6_addStartupTasks_footprint_witness :
  mgr (op ready_st) = Some sample_manager ∧
  config (op (addStartupTasks quiet_world main_ctx sample_client "Open Data Hub"
                ready_st).1.2) = sample_cfg.
Proof.
  split; [reflexivity|].
  pose proof (X6_addStartupTasks_footprint quiet_world main_ctx sample_client
                "Open Data Hub" ready_st sample_manager eq_refl) as H.
  destruct (addStartupTasks quiet_world main_ctx sample_client "Open Data Hub"
              ready_st) as [[r st'] evs].
  destruct H as (_ & Hc & _). exact Hc.
Defined.

(** X7: the default-DSC task is tied to the managed platform.  On any other
    platform the startup-task phase never hands it to the manager and the
    manager gains no such runnable; on the managed platform, whenever the phase
    returns nil the task is among the manager's runnables. *)
Theorem X7_dsc_task_managed_only (w : World) (ctx : Context)
    (setupClient : Client) (platform : Platform) (st : St) (m : Manager) :
  mgr (op st) = Some m →
  let task := dsc_task w (logf_FromContext ctx) setupClient in
  match addStartupTasks w ctx setupClient platform st with
  | (r, st', evs) =>
      ∃ m', mgr (op st') = Some m' ∧
        (platform ≠ ManagedRhoai (cluster w) →
           (c_Add task ∉ map fst evs) ∧
           (Task task ∈ mgr_runnables m' → Task task ∈ mgr_runnables m)) ∧
        (platform = ManagedRhoai (cluster w) → r = Return tt →
           (c_Add task, None) ∈ evs ∧ Task task ∈ mgr_runnables m')
  end.
Proof.
  intros Hm task.
  pose proof (grows_addStartupTasks w ctx setupClient platform st m Hm) as Hg.
  pose proof (follows_addStartupTasks w ctx (op st) setupClient platform st
                (conj eq_refl eq_refl)) as Hf.
  destruct (addStartupTasks w ctx setupClient platform st) as [[r st'] evs].
  destruct Hg as (Hcr & Hc & Hs & m' & Hm' & Hcfg & Hopt & Hr & Hh & Hy).
  exists m'. split; [done|]. split.
  - intros Hne.
    assert (Hpfx : map fst evs `prefix_of`
                     map c_Add (startup_tasks w ctx setupClient platform)).
    { destruct r as [a|err|c]; [|by destruct Hf as (?&?&?&?&?&?&?&?&?)|by destruct Hf].
      destruct Hf as (_ & -> & _). done. }
    assert (Hnot : task ∉ startup_tasks w ctx setupClient platform).
    { unfold startup_tasks. rewrite (eqb_platform_false _ _ Hne). simpl.
      rewrite ?app_nil_r. intros Hin. apply elem_of_app in Hin as [Hin|Hin].
      - destruct (dsci_enabled w); [|by apply elem_of_nil in Hin].
        apply list_elem_of_singleton in Hin. symmetry in Hin.
        by apply dsci_task_not_dsc in Hin.
      - apply list_elem_of_singleton in Hin. by apply dsc_task_not_cleanup in Hin. }
    split.
    + intros Hin. apply Hnot. destruct Hpfx as [rest Hrest].
      assert (Hin' : c_Add task ∈ map c_Add (startup_tasks w ctx setupClient platform))
        by (rewrite Hrest; set_solver).
      apply list_elem_of_fmap in Hin' as (t & Ht & Hin'). by injection Ht as ->.
    + rewrite Hr. intros Hin. apply elem_of_app in Hin as [Hin|Hin]; [done|].
      exfalso. apply Hnot. apply Task_elem in Hin.
      destruct (added_runnables_sublist _ _ Hpfx) as (Hsub & _).
      by eapply elem_of_sublist.
  - intros Heq ->. destruct Hf as (_ & Hcalls & Hok).
    assert (Hin : c_Add task ∈ map fst evs).
    { rewrite Hcalls. unfold startup_tasks. rewrite (eqb_platform_true _ _ Heq).
      apply list_elem_of_fmap. exists task. split; [done|]. set_solver. }
    apply list_elem_of_fmap in Hin as ([c x] & Hc' & Hin). simpl in Hc'. subst c.
    rewrite Forall_forall in Hok. destruct (Hok _ Hin) as [Hx|Htol]; simpl in *.
    + subst x. split; [done|]. rewrite Hr. apply elem_of_app. right.
      by apply Task_elem, added_runnables_elem.
    + by apply not_tolerated_dsc in Htol.
Qed.

Lemma X7_dsc_task_managed_only_witness :
  mgr (op ready_st) = Some sample_manager ∧
  (c_Add (dsc_task quiet_world setupLog sample_client)
   ∉ map fst (addStartupTasks quiet_world main_ctx sample_client "Open Data Hub"
                ready_st).2).
Proof.
  split; [reflexivity|].
  pose proof (X7_dsc_task_managed_only quiet_world main_ctx sample_client
                "Open Data Hub" ready_st sample_manager eq_refl) as H.
  destruct (addStartupTasks quiet_world main_ctx sample_client "Open Data Hub"
              ready_st) as [[r st'] evs].
  destruct H as (m' & _ & Hother & _).
  apply Hother. discriminate.
Defined.

Lemma added_checks_of_calls (w : World) (evs : list Event) :
  Forall (ok w) evs →
  added_healthz evs =
    flat_map (λ c, match c with c_AddHealthzCheck name => [name] | _ => [] end)
      (map fst evs) ∧
  added_readyz evs =
    flat_map (λ c, match c with c_AddReadyzCheck name => [name] | _ => [] end)
      (map fst evs).
Proof.
  induction 1 as [|[c r] evs Hok _ [IH1 IH2]]; [done|].
  unfold added_healthz, added_readyz in *. simpl. rewrite IH1, IH2.
  destruct Hok as [Hr|(l & cl & Hc)]; simpl in *; subst; [by destruct c|done].
Qed.

Lemma flat_map_map_nil {A B C} (f : B → list C) (g : A → B) (l : list A) :
  (∀ x, f (g x) = []) → flat_map f (map g l) = [].
Proof. intros Hfg. induction l as [|x l IH]; simpl; [done|]. by rewrite Hfg, IH. Qed.

Lemma added_runnables_calls_sublist (evs : list Event) :
  added_runnables evs `sublist_of`
    flat_map (λ c, match c with c_Add r => [r] | _ => [] end) (map fst evs).
Proof.
  induction evs as [|[c x] evs IH]; [done|].
  unfold added_runnables in *. simpl.
  destruct c; try done. destruct x; simpl; by constructor.
Qed.

Lemma flat_map_Add (tasks : list leaderElectionRunnableWrapper) :
  flat_map (λ c, match c with c_Add r => [r] | _ => [] end) (map c_Add tasks) = tasks.
Proof. induction tasks as [|t tasks IH]; simpl; [done|]. by rewrite IH. Qed.

(** ** What [Setup] leaves behind *)

(** X8: when [Setup] returns nil, both cache builders and [GetConfigOrDie]
    succeeded and the operator holds a manager.  That manager is what the
    collaborators (webhooks, the two built-in controllers, the service and
    the component handlers, in that order) left of the manager built from
    that configuration and from the options [Setup] assembles, with [Setup]'s
    own registrations added after theirs: the liveness check [healthz] and
    the readiness check [readyz] come last among the checks, and the
    runnables end with startup tasks in the order DSCI, DSC, cleanup, every
    scheduled task other than cleanup being among them.  The operator's
    configuration and scheme are unchanged. *)
Theorem X8_Setup_success_state (w : World) (ctx : Context) (st st' : St)
    (evs : list Event) :
  Setup w ctx st = (Return tt, st', evs) →
  ∃ secret general restConfig m added,
    createSecretCacheConfig (cluster w) (GetRelease_Name w) = Ok secret ∧
    createODHGeneralCacheConfig (cluster w) (GetRelease_Name w) = Ok general ∧
    GetConfigOrDie w = Ok restConfig ∧
    mgr (op st') = Some m ∧
    let built :=
      manager_New (ctrl_Manager restConfig
                     (managerOptions (op st) (cacheOptions w (op st) secret general))) in
    let m1 := after_collaborators w ctx built in
    mgr_config m = mgr_config m1 ∧ mgr_options m = mgr_options m1 ∧
    mgr_healthz m = mgr_healthz m1 ++ ["healthz"] ∧
    mgr_readyz m = mgr_readyz m1 ++ ["readyz"] ∧
    mgr_runnables m = mgr_runnables m1 ++ map Task added ∧
    added `sublist_of`
      startup_tasks w ctx (setupClient_of (op st)) (GetRelease_Name w) ∧
    (∀ r, r ∈ startup_tasks w ctx (setupClient_of (op st)) (GetRelease_Name w) →
          r ≠ cleanup_task w (logf_FromContext ctx) (setupClient_of (op st)) →
          r ∈ added) ∧
    config (op st') = config (op st) ∧ scheme (op st') = scheme (op st).
Proof.
  intros Hrun. pose proof (Setup_runs w ctx st) as H. rewrite Hrun in H.
  destruct H as [(_ & [err Herr] & _)|[(_ & pre & c & e & _ & _ & Herr & _)
                |(secret & general & Hs & Hg &
                  [(err & pre & _ & Herr & _)
                  |[(restConfig & err & _ & _ & Herr & _)
                   |(restConfig & pre & post & Hcfg & -> & _ & _ & _ & Hrest)]])]];
    [done..|].
  set (built := fresh_manager w (op st) secret general restConfig) in *.
  destruct (Setup_rest_Return w ctx (op st) (with_mgr st built) st' built post
              eq_refl Hrest)
    as (st1 & evs1 & evs2 & -> & Hm1 & Hc1 & Hs1 & Htail).
  pose proof (grows_Setup_tail w ctx (op st) st1 _ Hm1) as Hgrow.
  assert (Hsame : same_config (op st) st1) by (split; [by rewrite Hc1|by rewrite Hs1]).
  pose proof (follows_Setup_tail w ctx (op st) st1 Hsame) as Hfol.
  rewrite Htail in Hgrow, Hfol.
  destruct Hgrow as (_ & Hc & Hsch & m & Hm & Hmc & Hmo & Hr & Hh & Hy).
  destruct Hfol as (_ & Hcalls & Hok).
  exists secret, general, restConfig, m, (added_runnables evs2).
  do 4 (split; [done|]). cbv zeta. fold (fresh_manager w (op st) secret general restConfig).
  fold built. do 2 (split; [done|]).
  destruct (added_checks_of_calls w evs2 Hok) as [Hh' Hy'].
  rewrite Hcalls in Hh', Hy'.
  rewrite !flat_map_app, !flat_map_map_nil in Hh', Hy' by done.
  simpl in Hh', Hy'. rewrite Hh' in Hh. rewrite Hy' in Hy.
  do 3 (split; [done|]).
  split; [|split; [|split; [by rewrite Hc, Hc1|by rewrite Hsch, Hs1]]].
  - pose proof (added_runnables_calls_sublist evs2) as Hsub.
    rewrite Hcalls in Hsub.
    rewrite !flat_map_app, flat_map_Add in Hsub. simpl in Hsub.
    by rewrite app_nil_r in Hsub.
  - intros r Hin Hne.
    assert (Hcall : c_Add r ∈ map fst evs2).
    { rewrite Hcalls. apply elem_of_app; left.
      apply list_elem_of_fmap. by exists r. }
    apply list_elem_of_fmap in Hcall as ([c x] & Hc' & Hin'). simpl in Hc'. subst c.
    rewrite Forall_forall in Hok. destruct (Hok _ Hin') as [Hx|Htol]; simpl in *.
    + subst x. by apply added_runnables_elem.
    + destruct Htol as (l & cl & Heq). injection Heq as ->.
      exfalso. revert Hin Hne. unfold startup_tasks.
      rewrite !elem_of_app. intros [Hin|[Hin|Hin]] Hne.
      * destruct (dsci_enabled w); [|by apply elem_of_nil in Hin].
        apply list_elem_of_singleton in Hin. symmetry in Hin.
        by apply dsci_task_not_cleanup in Hin.
      * destruct (String.eqb _ _); [|by apply elem_of_nil in Hin].
        apply list_elem_of_singleton in Hin. symmetry in Hin.
        by apply dsc_task_not_cleanup in Hin.
      * apply list_elem_of_singleton in Hin. done.
Qed.

Lemma X8_Setup_success_state_witness :
  ∃ m, mgr (op (Setup registering_world main_ctx (main_st sample_cfg)).1.2) = Some m ∧
       mgr_healthz m = ["healthz"] ∧ mgr_readyz m = ["readyz"] ∧
       ∃ added,
         mgr_runnables m =
           [Other "webhook-server"; Other "dscinitialization";
            Other "datasciencecluster"; Other "monitoring"; Other "dashboard"]
           ++ map Task added.
Proof.
  destruct (X8_Setup_success_state registering_world main_ctx (main_st sample_cfg)
              (Setup registering_world main_ctx (main_st sample_cfg)).1.2
              (Setup registering_world main_ctx (main_st sample_cfg)).2)
    as (secret & general & restConfig & m & added & _ & _ & _ & Hm & _ & _ & Hh & Hy
        & Hr & _).
  - vm_compute. reflexivity.
  - exists m. split; [exact Hm|]. split; [exact Hh|]. split; [exact Hy|].
    exists added. exact Hr.
Defined.



(** ** The entry point *)

(** X11: what [main] does, in terms of [Setup].  If the configuration
    cannot be loaded it exits with status 1 before anything is called or
    logged.  If [Setup] returns an error it logs that error and exits with
    status 1 without calling [Start].  If [Setup] does not return, the status
    is 1.  If [Setup] returns nil the operator holds a manager, [main] logs
    that it is starting and calls [Start] once, as its last call; the exit
    status is 0 when the manager's run returns nil, and otherwise its error is
    logged and the status is 1.  The status is never anything but 0 or 1. *)
Theorem X11_main_outcomes (w : World) :
  match LoadConfig w with
  | Err _ => main w = {| exit_code := 1; run_logs := []; run_calls := [] |}
  | Ok cfg =>
      match Setup w main_ctx (main_st cfg) with
      | (Return _, st', evs) =>
          ∃ m, mgr (op st') = Some m ∧
            main w =
            {| exit_code := match Manager_Start w m main_ctx with
                            | None => 0 | Some _ => 1 end;
               run_logs :=
                 logs st' ++
                 Logger_Info setupLog "starting operator" [] ::
                 match Manager_Start w m main_ctx with
                 | None => []
                 | Some err => [Logger_Error setupLog err "problem running operator"]
                 end;
               run_calls := evs ++ [(c_Start, Manager_Start w m main_ctx)] |}
      | (Raise err, st', evs) =>
          main w =
          {| exit_code := 1;
             run_logs := logs st' ++ [Logger_Error setupLog err "unable to setup operator"];
             run_calls := evs |}
      | (Crash c, st', evs) =>
          main w = {| exit_code := 1; run_logs := logs st'; run_calls := evs |}
      end
  end ∧
  (exit_code (main w) = 0 ∨ exit_code (main w) = 1)%Z.
Proof.
  pose proof (main_shape w) as Hshape.
  split; [exact Hshape|].
  destruct (LoadConfig w) as [cfg|err]; [|rewrite Hshape; by right].
  destruct (Setup w main_ctx (main_st cfg)) as [[[[]|err|c] st'] evs].
  - destruct Hshape as (m & _ & ->). simpl.
    destruct (Manager_Start w m main_ctx); [by right|by left].
  - rewrite Hshape. by right.
  - rewrite Hshape. by right.
Qed.

(** ** The cache options *)


(** ** The handler phases *)

(** Running a callback over the handlers, when the callback's outcome on
    each handler is decided by [res]: either every handler gives nil and the
    result is nil, or the result is the error of some handler that failed. *)
Lemma ForEach_outcome {H} (I : St → Prop) (GetName : H → string)
    (fn : H → M unit) (res : H → option error) (wrapf : H → error → error)
    (handlers : list H) :
  (∀ h st, I st →
     ∃ st' evs, I st' ∧
       fn h st = (match res h with
                  | None => Return tt
                  | Some e => Raise (wrapf h e)
                  end, st', evs)) →
  ∀ st, I st →
    ∃ st' evs, I st' ∧
      ((Forall (λ h, res h = None) handlers ∧
        ForEach GetName handlers fn st = (Return tt, st', evs)) ∨
       (∃ h e, h ∈ handlers ∧ res h = Some e ∧
          ForEach GetName handlers fn st =
            (Raise (wrapError (GetName h +:+ ": ") (wrapf h e)), st', evs))).
Proof.
  intros Hfn. induction handlers as [|h handlers IH]; intros st Hst.
  - exists st, []. split; [done|]. left. by split.
  - destruct (Hfn h st Hst) as (st1 & evs1 & Hst1 & Hrun).
    simpl. destruct (res h) as [e|] eqn:Hres.
    + exists st1, evs1. split; [done|]. right. exists h, e.
      split; [set_solver|]. split; [done|].
      rewrite run_bind. unfold wrap. by rewrite Hrun.
    + destruct (IH st1 Hst1) as (st2 & evs2 & Hst2 & Hrest).
      exists st2, (evs1 ++ evs2). split; [done|].
      assert (Hstep : ∀ r, ForEach GetName handlers fn st1 = (r, st2, evs2) →
                (wrap (GetName h +:+ ": ") (fn h) ;; ForEach GetName handlers fn) st
                = (r, st2, evs1 ++ evs2)).
      { intros r Hr. rewrite run_bind. unfold wrap. rewrite Hrun. by rewrite Hr. }
      destruct Hrest as [[Hall Hr]|(h' & e & Hin & Hres' & Hr)].
      * left. split; [by constructor|by apply Hstep].
      * right. exists h', e. split; [set_solver|]. split; [done|by apply Hstep].
Qed.

(** X13: the Init phases return nil exactly when the [Init] of every
    registered handler, called with the given platform, returns nil; otherwise
    they return an error that wraps the error of a registered handler whose
    [Init] failed.  Either way the operator and the log are untouched. *)
Theorem X13_init_phases (w : World) (ctx : Context) (p : Platform) (st : St) :
  match initServices w ctx p st with
  | (r, st', _) =>
      st' = st ∧
      ((r = Return tt ∧ Forall (λ sh, sh_Init sh p = None) (sr_registry w)) ∨
       (∃ sh e err, sh ∈ sr_registry w ∧ sh_Init sh p = Some e ∧
                    r = Raise err ∧ e ∈ chain err))
  end ∧
  match initComponents w ctx p st with
  | (r, st', _) =>
      st' = st ∧
      ((r = Return tt ∧ Forall (λ ch, ch_Init ch p = None) (cr_registry w)) ∨
       (∃ ch e err, ch ∈ cr_registry w ∧ ch_Init ch p = Some e ∧
                    r = Raise err ∧ e ∈ chain err))
  end.
Proof.
  split.
  - destruct (ForEach_outcome (λ st', st' = st) sh_GetName
                (λ sh, call (c_Init_service (sh_GetName sh)) (sh_Init sh p))
                (λ sh, sh_Init sh p) (λ _ e, e) (sr_registry w)) with (st := st)
      as (st' & evs & -> & Hrun); [|done|].
    { intros sh st0 ->. exists st, [(c_Init_service (sh_GetName sh), sh_Init sh p)].
      split; [done|]. unfold call. by destruct (sh_Init sh p). }
    unfold initServices, sr_ForEach.
    destruct Hrun as [[Hall ->]|(sh & e & Hin & Hres & ->)].
    + split; [done|]. by left.
    + split; [done|]. right. exists sh, e. eexists. do 3 (split; [done|]).
      simpl. right. apply chain_self.
  - destruct (ForEach_outcome (λ st', st' = st) ch_GetName
                (λ ch, call (c_Init_component (ch_GetName ch)) (ch_Init ch p))
                (λ ch, ch_Init ch p) (λ _ e, e) (cr_registry w)) with (st := st)
      as (st' & evs & -> & Hrun); [|done|].
    { intros ch st0 ->. exists st, [(c_Init_component (ch_GetName ch), ch_Init ch p)].
      split; [done|]. unfold call. by destruct (ch_Init ch p). }
    unfold initComponents, cr_ForEach.
    destruct Hrun as [[Hall ->]|(ch & e & Hin & Hres & ->)].
    + split; [done|]. by left.
    + split; [done|]. right. exists ch, e. eexists. do 3 (split; [done|]).
      simpl. right. apply chain_self.
Qed.


